(** * test-backend: probe client and fault-injecting mock server

    A shallow embedding of [config.go] (configuration validation) and
    [backend.go] (the mock server's handlers and the probe client's retry
    loop, scheduler and concurrency gate), with the properties the
    specification states about them.

    Conventions
    - Go [int], [int64] and [time.Duration] are 64-bit two's complement
      integers: values are in [Z], and every arithmetic result goes through
      [wrap64].
    - Go [float64] is Rocq's primitive binary64 [float]; comparisons and
      arithmetic are the IEEE operations.
    - Go's [%] is the truncated remainder [Z.rem] (sign of the dividend).
    - Effects (metrics, log calls, sleeps, writes to the response, actions on
      the connection) are recorded, in program order, as a list of events. *)

From Stdlib Require Import ZArith List String Bool Lia Floats Permutation.
Import ListNotations.
Open Scope string_scope.
Open Scope list_scope.
Open Scope Z_scope.

(** ** Machine integers and durations *)

Module Go.

Definition two63 : Z := 2 ^ 63.
Definition two64 : Z := 2 ^ 64.

(** Two's complement wrap-around of a 64-bit signed result. *)
Definition wrap64 (z : Z) : Z := (z + two63) mod two64 - two63.

Definition int64_range (z : Z) : Prop := - two63 <= z < two63.

Definition add64 (a b : Z) : Z := wrap64 (a + b).
Definition mul64 (a b : Z) : Z := wrap64 (a * b).

(** [a % b] of Go: truncated division, the remainder has the sign of [a]. *)
Definition rem (a b : Z) : Z := Z.rem a b.

(** [time.Duration]: a count of nanoseconds in an [int64]. *)
Definition Duration := Z.
Definition Nanosecond : Duration := 1.
Definition Second : Duration := 1000000000.

(** [float64(n)] for an integer [n] with [|n| < 2^63]; exact below [2^53]. *)
Definition float64_of_int (n : Z) : float :=
  if n <? 0
  then PrimFloat.opp (PrimFloat.of_uint63 (Uint63.of_Z (- n)))
  else PrimFloat.of_uint63 (Uint63.of_Z n).

(** The integer a finite float truncates to (toward zero), [None] for
    infinities and NaN. *)
Definition float64_trunc (f : float) : option Z :=
  match Prim2SF f with
  | S754_zero _ => Some 0
  | S754_finite s m e =>
      let v := if 0 <=? e then Z.shiftl (Zpos m) e else Z.shiftr (Zpos m) (- e) in
      Some (if s then - v else v)
  | S754_infinity _ | S754_nan => None
  end.

(** [int64(f)]: the truncation of [f] when it fits; the language leaves the
    result to the implementation otherwise, here the value [impl]. *)
Definition int64_of_float64 (impl : Z) (f : float) : Z :=
  match float64_trunc f with
  | Some v => if (- two63 <=? v) && (v <? two63) then v else impl
  | None => impl
  end.

End Go.

(** ** config.go: the configuration structures *)

Record EndpointConfig := {
  ec_Name : string;
  ec_URL : string;
  ec_Method : string;
  ec_Headers : list (string * string);
  ec_Body : string;
  ec_Retries : Z;
  ec_RequestsPerSecond : float
}.

Record ClientConfig := {
  cc_Endpoints : list EndpointConfig;
  cc_Timeout : Go.Duration;
  cc_Interval : Go.Duration;
  cc_MaxConcurrentRequests : Z
}.

Record BackendEndpoint := {
  be_Path : string;
  be_Method : string;
  be_StatusCode : Z;
  be_Headers : list (string * string);   (* the entries of map[string]string *)
  be_Body : string;
  be_Delay : Go.Duration;
  be_DropPercent : float;
  be_IdlePercent : float;
  be_IdleDuration : Go.Duration
}.

Record BackendConfig := {
  bc_Port : Z;
  bc_Endpoints : list BackendEndpoint
}.

Record LoggingConfig := {
  lc_Level : string;
  lc_Verbose : bool
}.

Record Config := {
  cfg_Type : string;
  cfg_Client : option ClientConfig;
  cfg_Backend : option BackendConfig;
  cfg_Logging : LoggingConfig
}.

(** The errors [validateConfig] builds with [fmt.Errorf]. *)
Inductive ConfigError :=
| ErrType (got : string)
| ErrClientRequired (type : string)
| ErrNoClientEndpoints
| ErrURLRequired (i : nat)
| ErrBackendRequired (type : string)
| ErrNoBackendEndpoints
| ErrPathRequired (i : nat)
| ErrDropPercentRange (i : nat)
| ErrIdlePercentRange (i : nat)
| ErrPercentSum (i : nat).

(** ** config.go: validateConfig *)

Definition set_ec_Method (m : string) (ep : EndpointConfig) : EndpointConfig :=
  {| ec_Name := ec_Name ep; ec_URL := ec_URL ep; ec_Method := m;
     ec_Headers := ec_Headers ep; ec_Body := ec_Body ep;
     ec_Retries := ec_Retries ep;
     ec_RequestsPerSecond := ec_RequestsPerSecond ep |}.

(** One iteration of the loop over the client endpoints: the element that
    is left at index [i], or the error returned. *)
Definition validateClientEndpoint (i : nat) (ep : EndpointConfig)
  : ConfigError + EndpointConfig :=
  if String.eqb (ec_URL ep) "" then inl (ErrURLRequired i)
  else if String.eqb (ec_Method ep) "" then inr (set_ec_Method "GET" ep)
  else inr ep.

Fixpoint validateClientEndpoints (i : nat) (eps : list EndpointConfig)
  : ConfigError + list EndpointConfig :=
  match eps with
  | [] => inr []
  | ep :: rest =>
      match validateClientEndpoint i ep with
      | inl e => inl e
      | inr ep' =>
          match validateClientEndpoints (S i) rest with
          | inl e => inl e
          | inr rest' => inr (ep' :: rest')
          end
      end
  end.

Definition set_be_Method (m : string) (ep : BackendEndpoint) : BackendEndpoint :=
  {| be_Path := be_Path ep; be_Method := m; be_StatusCode := be_StatusCode ep;
     be_Headers := be_Headers ep; be_Body := be_Body ep; be_Delay := be_Delay ep;
     be_DropPercent := be_DropPercent ep; be_IdlePercent := be_IdlePercent ep;
     be_IdleDuration := be_IdleDuration ep |}.

Definition set_be_StatusCode (c : Z) (ep : BackendEndpoint) : BackendEndpoint :=
  {| be_Path := be_Path ep; be_Method := be_Method ep; be_StatusCode := c;
     be_Headers := be_Headers ep; be_Body := be_Body ep; be_Delay := be_Delay ep;
     be_DropPercent := be_DropPercent ep; be_IdlePercent := be_IdlePercent ep;
     be_IdleDuration := be_IdleDuration ep |}.

Definition set_be_IdleDuration (d : Go.Duration) (ep : BackendEndpoint)
  : BackendEndpoint :=
  {| be_Path := be_Path ep; be_Method := be_Method ep;
     be_StatusCode := be_StatusCode ep;
     be_Headers := be_Headers ep; be_Body := be_Body ep; be_Delay := be_Delay ep;
     be_DropPercent := be_DropPercent ep; be_IdlePercent := be_IdlePercent ep;
     be_IdleDuration := d |}.

(** The three percentage checks of one backend endpoint.  The tests read the
    loop's copy [ep], which the defaults written to the slice do not touch. *)
Definition percentError (i : nat) (ep : BackendEndpoint) : option ConfigError :=
  if (be_DropPercent ep <? 0)%float || (100 <? be_DropPercent ep)%float
  then Some (ErrDropPercentRange i)
  else if (be_IdlePercent ep <? 0)%float || (100 <? be_IdlePercent ep)%float
  then Some (ErrIdlePercentRange i)
  else if (100 <? be_DropPercent ep + be_IdlePercent ep)%float
  then Some (ErrPercentSum i)
  else None.

(** One iteration of the loop over the backend endpoints. *)
Definition validateBackendEndpoint (i : nat) (ep : BackendEndpoint)
  : ConfigError + BackendEndpoint :=
  if String.eqb (be_Path ep) "" then inl (ErrPathRequired i)
  else
    let e1 := if String.eqb (be_Method ep) "" then set_be_Method "GET" ep else ep in
    let e2 := if be_StatusCode ep =? 0 then set_be_StatusCode 200 e1 else e1 in
    match percentError i ep with
    | Some err => inl err
    | None =>
        inr (if (0 <? be_IdlePercent ep)%float && (be_IdleDuration ep =? 0)
             then set_be_IdleDuration (30 * Go.Second) e2
             else e2)
    end.

Fixpoint validateBackendEndpoints (i : nat) (eps : list BackendEndpoint)
  : ConfigError + list BackendEndpoint :=
  match eps with
  | [] => inr []
  | ep :: rest =>
      match validateBackendEndpoint i ep with
      | inl e => inl e
      | inr ep' =>
          match validateBackendEndpoints (S i) rest with
          | inl e => inl e
          | inr rest' => inr (ep' :: rest')
          end
      end
  end.

Definition typeIn (t a b : string) : bool := String.eqb t a || String.eqb t b.

Definition validateClient (c : Config) : ConfigError + option ClientConfig :=
  if typeIn (cfg_Type c) "client" "both" then
    match cfg_Client c with
    | None => inl (ErrClientRequired (cfg_Type c))
    | Some cl =>
        match cc_Endpoints cl with
        | [] => inl ErrNoClientEndpoints
        | eps =>
            match validateClientEndpoints 0 eps with
            | inl e => inl e
            | inr eps' =>
                inr (Some {| cc_Endpoints := eps'; cc_Timeout := cc_Timeout cl;
                             cc_Interval := cc_Interval cl;
                             cc_MaxConcurrentRequests := cc_MaxConcurrentRequests cl |})
            end
        end
    end
  else inr (cfg_Client c).

Definition validateBackend (c : Config) : ConfigError + option BackendConfig :=
  if typeIn (cfg_Type c) "backend" "both" then
    match cfg_Backend c with
    | None => inl (ErrBackendRequired (cfg_Type c))
    | Some b =>
        let port := if bc_Port b =? 0 then 8080 else bc_Port b in
        match bc_Endpoints b with
        | [] => inl ErrNoBackendEndpoints
        | eps =>
            match validateBackendEndpoints 0 eps with
            | inl e => inl e
            | inr eps' => inr (Some {| bc_Port := port; bc_Endpoints := eps' |})
            end
        end
    end
  else inr (cfg_Backend c).

(** [validateConfig]: the error, or the configuration with its defaults
    filled in (the Go function updates [config] in place and returns nil). *)
Definition validateConfig (c : Config) : ConfigError + Config :=
  if negb (String.eqb (cfg_Type c) "client")
     && negb (String.eqb (cfg_Type c) "backend")
     && negb (String.eqb (cfg_Type c) "both")
  then inl (ErrType (cfg_Type c))
  else
    match validateClient c with
    | inl e => inl e
    | inr cl =>
        match validateBackend c with
        | inl e => inl e
        | inr b =>
            let lg := if String.eqb (lc_Level (cfg_Logging c)) ""
                      then {| lc_Level := "info";
                              lc_Verbose := lc_Verbose (cfg_Logging c) |}
                      else cfg_Logging c in
            inr {| cfg_Type := cfg_Type c; cfg_Client := cl;
                   cfg_Backend := b; cfg_Logging := lg |}
        end
    end.

(** ** main.go: which engines start *)

Inductive Engine :=
| ClientEngine (cl : option ClientConfig)
| BackendEngine (b : option BackendConfig).

(** [main]: [LoadConfig] fails (exit status 1, nothing started) when
    validation fails; otherwise the switch on [config.Type] starts the
    engines. *)
Definition startedEngines (c : Config) : list Engine :=
  match validateConfig c with
  | inl _ => []
  | inr c' =>
      if String.eqb (cfg_Type c') "client" then [ClientEngine (cfg_Client c')]
      else if String.eqb (cfg_Type c') "backend" then [BackendEngine (cfg_Backend c')]
      else if String.eqb (cfg_Type c') "both"
      then [ClientEngine (cfg_Client c'); BackendEngine (cfg_Backend c')]
      else []
  end.

(** The mock endpoints a configuration file describes for the mock role:
    the backend section of a file whose type selects the backend. *)
Definition mockEndpoints (c : Config) : list BackendEndpoint :=
  if typeIn (cfg_Type c) "backend" "both" then
    match cfg_Backend c with
    | Some b => bc_Endpoints b
    | None => []
    end
  else [].

(** ** Observable effects *)

Inductive Level := Debug | Info | Warn | Error.

Inductive Metric :=
| ClientRequestsTotal | ClientRequestDuration | ClientRequestErrors
| ClientDNSDuration | ClientTCPDuration | ClientTLSDuration
| ClientTTFBDuration | ClientRetries
| BackendRequestsTotal | BackendRequestDuration | BackendResponseSize
| BackendDroppedTotal | BackendIdledTotal | BackendIdleDuration.

(** A label value: a string, or an integer printed with ["%d"]. *)
Inductive Label := LStr (s : string) | LInt (n : Z).

(** An observed value: [d.Seconds()] of a duration, or [float64(n)]. *)
Inductive ObsValue := Seconds (d : Go.Duration) | Number (n : Z).

Inductive Event :=
| Log (lvl : Level) (format : string)     (* a call of the logger *)
| Inc (m : Metric) (labels : list Label)
| Observe (m : Metric) (labels : list Label) (v : ObsValue)
| Sleep (d : Go.Duration)                  (* time.Sleep(d) *)
| Hijack (ok : bool)                       (* hj.Hijack(), err == nil iff ok *)
| ConnClose                                (* conn.Close() *)
| HeaderSet (key value : string)           (* w.Header().Set(key, value) *)
| WriteHeader (code : Z)                   (* on the server's writer *)
| Write (body : string)                    (* on the server's writer *)
| SetStatusCode (code : Z)                 (* rw.statusCode = code *)
| ExecuteRequest (attempt : Z)             (* executeRequest is entered *)
| NewTicker (d : Go.Duration)
| TickerStop
| RecvTick                                 (* select took <-ticker.C *)
| RecvDone                                 (* select took <-ctx.Done() *)
| Launch (gated : bool)                    (* launchRequest() *)
| Panic.                                   (* the call in progress panics *)

Definition Trace := list Event.

Definition Event_eqb_Inc (m : Metric) (e : Event) : bool :=
  match e with
  | Inc m' _ =>
      match m, m' with
      | ClientRequestsTotal, ClientRequestsTotal
      | ClientRequestErrors, ClientRequestErrors
      | ClientRetries, ClientRetries
      | BackendRequestsTotal, BackendRequestsTotal
      | BackendDroppedTotal, BackendDroppedTotal
      | BackendIdledTotal, BackendIdledTotal => true
      | _, _ => false
      end
  | _ => false
  end.

(** How many times the counter [m] is incremented in a trace. *)
Definition increments (m : Metric) (tr : Trace) : nat :=
  List.length (filter (Event_eqb_Inc m) tr).

(** The values observed on the histogram [m], in order. *)
Fixpoint observations (m : Metric) (tr : Trace) : list ObsValue :=
  match tr with
  | [] => []
  | Observe BackendIdleDuration _ v :: rest =>
      match m with
      | BackendIdleDuration => v :: observations m rest
      | _ => observations m rest
      end
  | Observe BackendRequestDuration _ v :: rest =>
      match m with
      | BackendRequestDuration => v :: observations m rest
      | _ => observations m rest
      end
  | Observe BackendResponseSize _ v :: rest =>
      match m with
      | BackendResponseSize => v :: observations m rest
      | _ => observations m rest
      end
  | _ :: rest => observations m rest
  end.

(** The bytes a trace sends on the response: status lines and bodies. *)
Definition writesResponse (e : Event) : bool :=
  match e with
  | WriteHeader _ | Write _ => true
  | _ => false
  end.

Definition responseWrites (tr : Trace) : list Event := filter writesResponse tr.

Definition isConnClose (e : Event) : bool :=
  match e with ConnClose => true | _ => false end.

(** How many times a trace closes the connection it took over. *)
Definition connectionCloses (tr : Trace) : nat :=
  List.length (filter isConnClose tr).

Fixpoint sleeps (tr : Trace) : list Go.Duration :=
  match tr with
  | [] => []
  | Sleep d :: rest => d :: sleeps rest
  | _ :: rest => sleeps rest
  end.

(** ** backend.go: the response writers *)

(** The dynamic type behind an [http.ResponseWriter].
    - [ConnWriter takeover]: the server's own writer.  [takeover = None]
      when it has no [Hijack] method; [Some ok] when it has one, which
      returns [err == nil] exactly when [ok].
    - [LoggingWriter inner]: [&responseWriter{ResponseWriter: inner, ...}]
      of [loggingMiddleware].  The struct embeds the interface
      [http.ResponseWriter] and declares [WriteHeader]; its method set is
      [Header], [Write], [WriteHeader]. *)
Inductive ResponseWriter :=
| ConnWriter (takeover : option bool)
| LoggingWriter (inner : ResponseWriter).

(** The type assertion [w.(http.Hijacker)]. *)
Definition asHijacker (w : ResponseWriter) : option bool :=
  match w with
  | ConnWriter takeover => takeover
  | LoggingWriter _ => None
  end.

(** net/http, [checkWriteHeaderCode]: the server's writer takes a status
    code of three digits and panics on any other. *)
Definition validStatus (code : Z) : bool := (100 <=? code) && (code <=? 999).

(** [w.WriteHeader(code)].  The wrapper of [loggingMiddleware] stores the
    code in its field before it calls the writer it wraps. *)
Fixpoint w_WriteHeader (w : ResponseWriter) (code : Z) : Trace :=
  match w with
  | ConnWriter _ => if validStatus code then [WriteHeader code] else [Panic]
  | LoggingWriter inner => SetStatusCode code :: w_WriteHeader inner code
  end.

Definition isPanic (e : Event) : bool :=
  match e with Panic => true | _ => false end.

(** Whether a call panicked: a panic unwinds the goroutine, so it is the
    last event of the trace of the call. *)
Definition panicked (tr : Trace) : bool := existsb isPanic tr.

(** Sequencing of two pieces of code: the second runs only when the first
    returns. *)
Definition andThen (first second : Trace) : Trace :=
  if panicked first then first else first ++ second.

Fixpoint w_Write (w : ResponseWriter) (body : string) : Trace :=
  match w with
  | ConnWriter _ => [Write body]
  | LoggingWriter inner => w_Write inner body
  end.

Fixpoint w_HeaderSet (w : ResponseWriter) (kv : string * string) : Trace :=
  match w with
  | ConnWriter _ => [HeaderSet (fst kv) (snd kv)]
  | LoggingWriter inner => w_HeaderSet inner kv
  end.

(** ** backend.go: createHandler *)

Record Request := {
  req_Method : string;
  req_Path : string;
  req_RemoteAddr : string;
  req_Header : list (string * list string)
}.

(** What the runtime contributes to one call of a handler: the readings of
    the clock, and the order in which the [range] over the map of headers
    visits its entries, which Go leaves unspecified. *)
Record Clock := {
  clk_UnixNano : Z;          (* time.Now().UnixNano() of the draw *)
  clk_Since : Go.Duration;   (* time.Since(start) after the response *)
  clk_RangeSeed : nat        (* picks the iteration order of the range *)
}.

Fixpoint insertAt {A : Type} (n : nat) (x : A) (l : list A) : list A :=
  match n, l with
  | O, _ => x :: l
  | S _, [] => [x]
  | S n', y :: l' => y :: insertAt n' x l'
  end.

(** The entries of a Go map, held here as the list of its entries, in the
    order a [range] visits them: the seed is read as the Lehmer code of a
    permutation, so that every order of the entries is the order of some
    seed, and every seed gives an order of the entries. *)
Fixpoint rangeOrder {A : Type} (seed : nat) (entries : list A) : list A :=
  match entries with
  | [] => []
  | x :: rest =>
      insertAt (Nat.modulo seed (S (List.length rest))) x
        (rangeOrder (Nat.div seed (S (List.length rest))) rest)
  end.

(** [float64(time.Now().UnixNano()%10000) / 100.0] *)
Definition draw (unixNano : Z) : float :=
  (Go.float64_of_int (Go.rem unixNano 10000) / 100)%float.

Definition faultsConfigured (ep : BackendEndpoint) : bool :=
  (0 <? be_DropPercent ep)%float || (0 <? be_IdlePercent ep)%float.

(** Lines 104-112: take the connection over and close it, or fall back to
    returning without a write. *)
Definition closeAfterDrop (w : ResponseWriter) : Trace :=
  match asHijacker w with
  | Some ok => Hijack ok :: (if ok then [ConnClose] else [])
  | None => []
  end.

(** Lines 126-133: the same steps on the idle branch. *)
Definition closeAfterIdle (w : ResponseWriter) : Trace :=
  match asHijacker w with
  | Some true => [Hijack true; ConnClose]
  | Some false => [Hijack false]
  | None => []
  end.

Definition pathMethod (r : Request) : list Label :=
  [LStr (req_Path r); LStr (req_Method r)].

Definition dropConnection (w : ResponseWriter) (r : Request) : Trace :=
  [Log Warn "Dropping connection for %s %s (%.1f%% drop rate)";
   Inc BackendDroppedTotal (pathMethod r)]
  ++ closeAfterDrop w.

Definition resolvedIdleDuration (ep : BackendEndpoint) : Go.Duration :=
  if be_IdleDuration ep =? 0 then 30 * Go.Second else be_IdleDuration ep.

Definition idleConnection (ep : BackendEndpoint) (w : ResponseWriter)
  (r : Request) : Trace :=
  let idleDuration := resolvedIdleDuration ep in
  [Log Warn "Idling connection for %s %s for %v (%.1f%% idle rate)";
   Inc BackendIdledTotal (pathMethod r);
   Observe BackendIdleDuration (pathMethod r) (Seconds idleDuration);
   Sleep idleDuration]
  ++ closeAfterIdle w.

Definition normalResponse (ep : BackendEndpoint) (w : ResponseWriter)
  (r : Request) (clk : Clock) : Trace :=
  (if 0 <? be_Delay ep then [Sleep (be_Delay ep)] else [])
  ++ flat_map (w_HeaderSet w) (rangeOrder (clk_RangeSeed clk) (be_Headers ep))
  ++ andThen (w_WriteHeader w (be_StatusCode ep))
       ((if String.eqb (be_Body ep) "" then [] else w_Write w (be_Body ep))
        ++ [Inc BackendRequestsTotal
              [LStr (req_Path r); LStr (req_Method r); LInt (be_StatusCode ep)];
            Observe BackendRequestDuration (pathMethod r)
              (Seconds (clk_Since clk))]
        ++ (if String.eqb (be_Body ep) "" then []
            else [Observe BackendResponseSize (pathMethod r)
                    (Number (Z.of_nat (String.length (be_Body ep))))])
        ++ [Log Debug "Handled %s %s -> %d (took %v)"]).

Definition createHandler (ep : BackendEndpoint) (w : ResponseWriter)
  (r : Request) (clk : Clock) : Trace :=
  if faultsConfigured ep then
    let random := draw (clk_UnixNano clk) in
    if (random <? be_DropPercent ep)%float then dropConnection w r
    else if (random <? be_DropPercent ep + be_IdlePercent ep)%float
    then idleConnection ep w r
    else normalResponse ep w r clk
  else normalResponse ep w r clk.

(** ** backend.go: registerEndpoint and loggingMiddleware *)

(** [http.Error(w, msg, code)]: a plain-text reply with the status [code]. *)
Definition http_Error (w : ResponseWriter) (msg : string) (code : Z) : Trace :=
  w_HeaderSet w ("Content-Type", "text/plain; charset=utf-8")
  ++ w_HeaderSet w ("X-Content-Type-Options", "nosniff")
  ++ andThen (w_WriteHeader w code)
       (w_Write w (String.append msg (String (Ascii.ascii_of_nat 10) ""))).

Definition StatusMethodNotAllowed : Z := 405.

(** The function [registerEndpoint] hands to the mux for [endpoint.Path]. *)
Definition registerEndpoint (ep : BackendEndpoint) (w : ResponseWriter)
  (r : Request) (clk : Clock) : Trace :=
  if negb (String.eqb (req_Method r) (be_Method ep))
  then http_Error w "Method not allowed" StatusMethodNotAllowed
  else createHandler ep w r clk.

Definition Handler := ResponseWriter -> Request -> Clock -> Trace.

Definition loggingMiddleware (verbose : bool) (next : Handler) : Handler :=
  fun w r clk =>
    [Log Info "← %s %s from %s"]
    ++ (if verbose
        then Log Debug "  Request Headers:"
             :: flat_map (fun kv => map (fun _ => Log Debug "    %s: %s") (snd kv))
                  (req_Header r)
        else [])
    ++ andThen (next (LoggingWriter w) r clk)
         [Log Info "→ %s %s -> %d (took %v)"].

(** What the server started by [Run] does with a request the mux routes to
    the pattern of [ep]. *)
Definition serve (verbose : bool) (ep : BackendEndpoint) : Handler :=
  loggingMiddleware verbose (registerEndpoint ep).

(** The fault decision a trace shows, by the counter it increments. *)
Inductive FaultDecision := Drop | Idle | Respond.

Fixpoint decisions (tr : Trace) : list FaultDecision :=
  match tr with
  | [] => []
  | Inc BackendDroppedTotal _ :: rest => Drop :: decisions rest
  | Inc BackendIdledTotal _ :: rest => Idle :: decisions rest
  | Inc BackendRequestsTotal _ :: rest => Respond :: decisions rest
  | _ :: rest => decisions rest
  end.

(** ** backend.go, client side: executeRequest *)

(** The phase durations the trace hooks of one exchange record. *)
Record Timings := {
  t_dns : Go.Duration;
  t_connect : Go.Duration;
  t_tls : Go.Duration;
  t_ttfb : Go.Duration;
  t_total : Go.Duration
}.

(** What the HTTP stack does with one attempt. *)
Inductive Exchange :=
| NewRequestFails                 (* http.NewRequestWithContext returns an error *)
| DoFails                         (* c.client.Do(req) returns an error *)
| ReadBodyFails (status : Z)      (* io.ReadAll(resp.Body) returns an error *)
| Completed (status : Z) (header : list (string * list string))
            (body : string) (tm : Timings).

Inductive RequestError :=
| ErrCreateRequest                (* "failed to create request: %w" *)
| ErrRequestFailed                (* "request failed: %w" *)
| ErrReadBody.                    (* "failed to read response body: %w" *)

Definition observeIfPositive (m : Metric) (name : string) (d : Go.Duration)
  : Trace :=
  if 0 <? d then [Observe m [LStr name] (Seconds d)] else [].

Definition debugIfPositive (format : string) (d : Go.Duration) : Trace :=
  if 0 <? d then [Log Debug format] else [].

Definition executeRequest (verbose : bool) (ep : EndpointConfig) (attempt : Z)
  (x : Exchange) : Trace * option RequestError :=
  let nm := [LStr (ec_Name ep); LStr (ec_Method ep)] in
  match x with
  | NewRequestFails => ([ExecuteRequest attempt], Some ErrCreateRequest)
  | DoFails =>
      ([ExecuteRequest attempt;
        Log Info "→ [%s] %s %s (attempt %d)";
        Inc ClientRequestErrors (nm ++ [LStr "request_failed"])],
       Some ErrRequestFailed)
  | ReadBodyFails _ =>
      ([ExecuteRequest attempt;
        Log Info "→ [%s] %s %s (attempt %d)";
        Inc ClientRequestErrors (nm ++ [LStr "read_body_failed"])],
       Some ErrReadBody)
  | Completed status header body tm =>
      ([ExecuteRequest attempt;
        Log Info "→ [%s] %s %s (attempt %d)";
        Inc ClientRequestsTotal (nm ++ [LInt status]);
        Observe ClientRequestDuration nm (Seconds (t_total tm))]
       ++ observeIfPositive ClientDNSDuration (ec_Name ep) (t_dns tm)
       ++ observeIfPositive ClientTCPDuration (ec_Name ep) (t_connect tm)
       ++ observeIfPositive ClientTLSDuration (ec_Name ep) (t_tls tm)
       ++ observeIfPositive ClientTTFBDuration (ec_Name ep) (t_ttfb tm)
       ++ [Log Info "← [%s] Status: %d, Size: %d bytes, Duration: %v"]
       ++ (if verbose then
             [Log Debug "  Diagnostics for [%s]:"]
             ++ debugIfPositive "    DNS Lookup: %v" (t_dns tm)
             ++ debugIfPositive "    TCP Connect: %v" (t_connect tm)
             ++ debugIfPositive "    TLS Handshake: %v" (t_tls tm)
             ++ debugIfPositive "    Time to First Byte: %v" (t_ttfb tm)
             ++ [Log Debug "    Total Time: %v"; Log Debug "  Response Headers:"]
             ++ flat_map (fun kv => map (fun _ => Log Debug "    %s: %s") (snd kv))
                  header
             ++ (if (0 <? String.length body)%nat
                 then [Log Debug "  Response Body: %s"] else [])
           else []),
       None)
  end.

(** ** backend.go, client side: makeRequest *)

Section MakeRequest.

Variable verbose : bool.
Variable ep : EndpointConfig.
(** [net k]: what the HTTP stack does with the attempt numbered [k]. *)
Variable net : Z -> Exchange.

Definition maxAttempts : Z := Go.add64 (ec_Retries ep) 1.

(** The [for attempts < maxAttempts] loop, entered with the counter at
    [attempts].  [fuel] bounds the iterations; [None] when it runs out. *)
Fixpoint attemptLoop (fuel : nat) (attempts : Z) : option Trace :=
  if attempts <? maxAttempts then
    match fuel with
    | O => None
    | S fuel' =>
        let attempts := Go.add64 attempts 1 in
        match executeRequest verbose ep attempts (net attempts) with
        | (tr, Some _) =>
            let tr1 := tr ++ [Log Error "Request failed [%s] (attempt %d/%d): %v"]
                          ++ (if 1 <? attempts
                              then [Inc ClientRetries
                                      [LStr (ec_Name ep); LStr (ec_Method ep)]]
                              else []) in
            if attempts <? maxAttempts then
              option_map
                (fun rest => tr1 ++ Sleep (Go.mul64 Go.Second attempts) :: rest)
                (attemptLoop fuel' attempts)
            else
              option_map (fun rest => tr1 ++ rest) (attemptLoop fuel' attempts)
        | (tr, None) => Some tr
        end
    end
  else Some [].

Definition makeRequest : option Trace :=
  attemptLoop (Z.to_nat maxAttempts) 0.

End MakeRequest.

(** The attempt numbers [executeRequest] is entered with, in order. *)
Fixpoint executions (tr : Trace) : list Z :=
  match tr with
  | [] => []
  | ExecuteRequest k :: rest => k :: executions rest
  | _ :: rest => executions rest
  end.

(** ** backend.go, client side: runEndpoint *)

(** The case a [select] of the scheduling loop takes. *)
Inductive Select := SelDone | SelTick.

Inductive Outcome :=
| Panics       (* time.NewTicker panics: non-positive interval *)
| Returns      (* the context is done *)
| Selecting.   (* blocked in the select, the cases given are used up *)

Definition gated (cfg : ClientConfig) : bool := 0 <? cc_MaxConcurrentRequests cfg.

(** The [for { select { ... } }] loop of both modes. *)
Fixpoint tickLoop (cfg : ClientConfig) (sel : list Select) : Trace * Outcome :=
  match sel with
  | [] => ([], Selecting)
  | SelDone :: _ => ([RecvDone; TickerStop], Returns)
  | SelTick :: rest =>
      let (tr, o) := tickLoop cfg rest in
      (RecvTick :: Launch (gated cfg) :: tr, o)
  end.

(** [time.Duration(float64(time.Second) / endpoint.RequestsPerSecond)] *)
Definition rateInterval (impl : Z) (rate : float) : Go.Duration :=
  Go.int64_of_float64 impl (Go.float64_of_int Go.Second / rate)%float.

Definition rateLimited (ep : EndpointConfig) : bool :=
  (0 <? ec_RequestsPerSecond ep)%float.

Definition runEndpoint (impl : Z) (cfg : ClientConfig) (ep : EndpointConfig)
  (sel : list Select) : Trace * Outcome :=
  if rateLimited ep then
    let interval := rateInterval impl (ec_RequestsPerSecond ep) in
    if interval <=? 0 then ([], Panics)
    else
      let (tr, o) := tickLoop cfg sel in
      (NewTicker interval
       :: Log Info (if gated cfg
                    then "Endpoint [%s] configured for %.2f requests/second (max %d concurrent)"
                    else "Endpoint [%s] configured for %.2f requests/second (unlimited concurrent)")
       :: tr, o)
  else
    if cc_Interval cfg <=? 0 then ([], Panics)
    else
      let (tr, o) := tickLoop cfg sel in
      (NewTicker (cc_Interval cfg)
       :: Log Info (if gated cfg
                    then "Endpoint [%s] configured with interval %v (max %d concurrent)"
                    else "Endpoint [%s] configured with interval %v (unlimited concurrent)")
       :: Launch (gated cfg)
       :: tr, o).

Definition isLaunch (e : Event) : bool :=
  match e with Launch _ => true | _ => false end.

Definition isRecvTick (e : Event) : bool :=
  match e with RecvTick => true | _ => false end.

Definition launches (tr : Trace) : nat := List.length (filter isLaunch tr).
Definition ticks (tr : Trace) : nat := List.length (filter isRecvTick tr).

(** Every launch of the trace comes right after a received tick. *)
Fixpoint launchesFollowTicks (prev : option Event) (tr : Trace) : bool :=
  match tr with
  | [] => true
  | Launch g :: rest =>
      match prev with
      | Some RecvTick => launchesFollowTicks (Some (Launch g)) rest
      | _ => false
      end
  | e :: rest => launchesFollowTicks (Some e) rest
  end.

(** ** backend.go, client side: the goroutines of launchRequest

    Each [launchRequest()] starts one goroutine.  With a semaphore it runs
    [semaphore <- struct{}{}], [c.makeRequest], and the deferred
    [<-semaphore]; without one it runs [c.makeRequest] alone.  The
    goroutines of one [runEndpoint] interleave; the state below holds the
    number of elements buffered in the semaphore channel and where each
    goroutine stands. *)

Module Limiter.

Inductive Goroutine :=
| Acquiring            (* at [semaphore <- struct{}{}] *)
| InFlight (g : bool)  (* inside [c.makeRequest]; [g]: holds a slot *)
| Releasing            (* [makeRequest] returned, at the deferred [<-semaphore] *)
| Finished.

Record State := {
  buffered : Z;                 (* len(semaphore) *)
  goroutines : list Goroutine
}.

Definition initial : State := {| buffered := 0; goroutines := [] |}.

Inductive Step :=
| Dispatch               (* the scheduler calls launchRequest() *)
| Send (i : nat)         (* goroutine [i] completes its channel send *)
| Return (i : nat)       (* [c.makeRequest] of goroutine [i] returns *)
| Receive (i : nat).     (* goroutine [i] completes its channel receive *)

Fixpoint update (i : nat) (g : Goroutine) (gs : list Goroutine)
  : list Goroutine :=
  match gs, i with
  | [], _ => []
  | _ :: rest, O => g :: rest
  | x :: rest, S j => x :: update j g rest
  end.

Section WithMaximum.

(** [c.config.MaxConcurrentRequests] *)
Variable maxConcurrent : Z.

(** The semaphore exists ([semaphore != nil]) when the maximum is positive;
    it is then a channel of that capacity. *)
Definition hasSemaphore : bool := 0 <? maxConcurrent.

(** One step of the system, [None] when the step cannot be taken in [s]:
    a send on a buffered channel completes only while the buffer is not
    full, a receive only while it is not empty. *)
Definition step (s : State) (a : Step) : option State :=
  match a with
  | Dispatch =>
      Some {| buffered := buffered s;
              goroutines := goroutines s
                            ++ [if hasSemaphore then Acquiring else InFlight false] |}
  | Send i =>
      match nth_error (goroutines s) i with
      | Some Acquiring =>
          if buffered s <? maxConcurrent
          then Some {| buffered := buffered s + 1;
                       goroutines := update i (InFlight true) (goroutines s) |}
          else None
      | _ => None
      end
  | Return i =>
      match nth_error (goroutines s) i with
      | Some (InFlight true) =>
          Some {| buffered := buffered s;
                  goroutines := update i Releasing (goroutines s) |}
      | Some (InFlight false) =>
          Some {| buffered := buffered s;
                  goroutines := update i Finished (goroutines s) |}
      | _ => None
      end
  | Receive i =>
      match nth_error (goroutines s) i with
      | Some Releasing =>
          if 0 <? buffered s
          then Some {| buffered := buffered s - 1;
                       goroutines := update i Finished (goroutines s) |}
          else None
      | _ => None
      end
  end.

Fixpoint run (s : State) (steps : list Step) : option State :=
  match steps with
  | [] => Some s
  | a :: rest =>
      match step s a with
      | Some s' => run s' rest
      | None => None
      end
  end.

End WithMaximum.

Definition isInFlight (g : Goroutine) : bool :=
  match g with InFlight _ => true | _ => false end.

Definition holdsSlot (g : Goroutine) : bool :=
  match g with InFlight true | Releasing => true | _ => false end.

Definition isUngated (g : Goroutine) : bool :=
  match g with InFlight false => true | _ => false end.

Definition count (p : Goroutine -> bool) (gs : list Goroutine) : Z :=
  Z.of_nat (List.length (filter p gs)).

(** The executions mid-flight: goroutines inside [c.makeRequest]. *)
Definition midFlight (s : State) : Z := count isInFlight (goroutines s).

End Limiter.

(** ** logger.go: shouldLog *)

(** The [Logger] struct, without its output stream. *)
Record Logger := {
  lg_level : string;
  lg_verbose : bool
}.

(** The map literal [levels] of [shouldLog], with the two results of a
    lookup: the value and whether the key is present. *)
Definition levels (name : string) : option Z :=
  if String.eqb name "debug" then Some 0
  else if String.eqb name "info" then Some 1
  else if String.eqb name "warn" then Some 2
  else if String.eqb name "error" then Some 3
  else None.

(** [levels[name]] without the presence test: zero for a missing key. *)
Definition levelsAt (name : string) : Z :=
  match levels name with Some n => n | None => 0 end.

Definition shouldLog (l : Logger) (level : string) : bool :=
  let currentLevel :=
    match levels (lg_level l) with
    | Some n => n
    | None => levelsAt "info"
    end in
  match levels level with
  | Some messageLevel => currentLevel <=? messageLevel
  | None => true
  end.

(** The level string each logging method passes to [shouldLog]. *)
Definition levelName (lvl : Level) : string :=
  match lvl with
  | Debug => "debug"
  | Info => "info"
  | Warn => "warn"
  | Error => "error"
  end.

(** The log calls of a trace that reach the output. *)
Definition printed (l : Logger) (tr : Trace) : Trace :=
  filter (fun e => match e with
                   | Log lvl _ => shouldLog l (levelName lvl)
                   | _ => false
                   end) tr.

(** ** backend.go: the status the logging middleware reports *)

Definition StatusOK : Z := 200.

(** The field [statusCode] of the wrapper after the handler has run: set to
    [http.StatusOK] when the wrapper is built, overwritten by each
    [WriteHeader] through it. *)
Definition statusCodeField (tr : Trace) : Z :=
  fold_left (fun st e => match e with SetStatusCode c => c | _ => st end)
            tr StatusOK.

(** ** backend.go: Run registers the handlers *)

(** The patterns [Run] registers on its mux, in order: ["/metrics"] when a
    metrics handler is set, then the path of every configured endpoint. *)
Definition registeredPatterns (metricsHandler : bool) (cfg : BackendConfig)
  : list string :=
  (if metricsHandler then ["/metrics"] else [])
  ++ map be_Path (bc_Endpoints cfg).

(** [mux.Handle] and [mux.HandleFunc] panic on an empty pattern and on a
    pattern that is already registered.  [registerAll seen ps] registers the
    patterns [ps] on a mux that holds [seen]: the patterns held afterwards,
    or [None] when one of these two panics occurs.  Other reasons for which
    the mux refuses a pattern (its syntax, overlaps between distinct
    patterns) are not part of this model. *)
Fixpoint registerAll (seen ps : list string) : option (list string) :=
  match ps with
  | [] => Some seen
  | p :: rest =>
      if String.eqb p "" then None
      else if existsb (String.eqb p) seen then None
      else registerAll (seen ++ [p]) rest
  end.

(** * Properties *)

(** ** Facts on binary64 addition

    From the specification of the primitive floats: the sum of two
    non-negative binary64 numbers is zero only when both are. *)

Module Float64.

Lemma digits2_pos_bounds (p : positive) :
  2 ^ (Zpos (digits2_pos p) - 1) <= Zpos p < 2 ^ Zpos (digits2_pos p).
Proof.
  induction p as [p IH | p IH |]; simpl digits2_pos.
  - rewrite Pos2Z.inj_succ.
    replace (Z.succ (Zpos (digits2_pos p)) - 1) with (Z.succ (Zpos (digits2_pos p) - 1)) by lia.
    rewrite !Z.pow_succ_r by lia. lia.
  - rewrite Pos2Z.inj_succ.
    replace (Z.succ (Zpos (digits2_pos p)) - 1) with (Z.succ (Zpos (digits2_pos p) - 1)) by lia.
    rewrite !Z.pow_succ_r by lia. lia.
  - simpl. lia.
Qed.

Lemma shr_1_m (mrs : shr_record) :
  0 <= shr_m mrs -> shr_m (shr_1 mrs) = Z.div2 (shr_m mrs).
Proof.
  destruct mrs as [m r s]. simpl.
  destruct m as [|[p|p|]|p]; simpl; intros H; try reflexivity; lia.
Qed.

Lemma pow2_xI (p : positive) : 2 ^ Zpos p~1 = 2 * (2 ^ Zpos p * 2 ^ Zpos p).
Proof.
  assert (E : Zpos p~1 = 1 + Zpos p + Zpos p) by lia.
  rewrite E, !Z.pow_add_r by lia. rewrite Z.pow_1_r. lia.
Qed.

Lemma pow2_xO (p : positive) : 2 ^ Zpos p~0 = 2 ^ Zpos p * 2 ^ Zpos p.
Proof.
  assert (E : Zpos p~0 = Zpos p + Zpos p) by lia.
  rewrite E, Z.pow_add_r by lia. reflexivity.
Qed.

Lemma iter_shr_1_m (p : positive) :
  forall mrs, 0 <= shr_m mrs ->
  shr_m (iter_pos shr_1 p mrs) = shr_m mrs / 2 ^ Zpos p.
Proof.
  induction p as [p IH | p IH |]; intros mrs H; simpl iter_pos.
  - assert (H1 : 0 <= shr_m (shr_1 mrs)).
    { rewrite shr_1_m by assumption. rewrite Z.div2_div. apply Z.div_pos; lia. }
    assert (H2 : 0 <= shr_m (iter_pos shr_1 p (shr_1 mrs))).
    { rewrite IH by assumption. apply Z.div_pos; lia. }
    rewrite IH by assumption. rewrite IH by assumption.
    rewrite shr_1_m by assumption. rewrite Z.div2_div.
    rewrite !Z.div_div by lia.
    rewrite pow2_xI. f_equal; lia.
  - assert (H2 : 0 <= shr_m (iter_pos shr_1 p mrs)).
    { rewrite IH by assumption. apply Z.div_pos; lia. }
    rewrite IH by assumption. rewrite IH by assumption.
    rewrite !Z.div_div by lia.
    rewrite pow2_xO. reflexivity.
  - rewrite shr_1_m by assumption. rewrite Z.div2_div. reflexivity.
Qed.

Lemma shr_record_of_loc_m (m : Z) (l : location) :
  shr_m (shr_record_of_loc m l) = m.
Proof. destruct l as [|[| |]]; reflexivity. Qed.

(** Shifting a positive mantissa to its canonical exponent leaves it
    positive once the exponent is at least [emin]: no underflow to zero. *)
Lemma shr_fexp_positive (m e : Z) (l : location) :
  0 < m -> emin <= e ->
  0 < shr_m (fst (shr_fexp prec emax m e l)) /\
  emin <= snd (shr_fexp prec emax m e l).
Proof.
  intros Hm He. unfold shr_fexp, shr.
  destruct m as [|p|p]; try lia. simpl Zdigits2.
  pose proof (digits2_pos_bounds p) as Hd.
  remember (Zpos (digits2_pos p)) as d eqn:Ed.
  assert (Hd0 : 0 < d) by (subst d; lia).
  unfold fexp. change (SpecFloat.emin prec emax) with (-1074) in *.
  change prec with 53.
  destruct (Z.max (d + e - 53) (-1074) - e) as [|n|n] eqn:En; simpl fst; simpl snd.
  - rewrite shr_record_of_loc_m. lia.
  - rewrite iter_shr_1_m by (rewrite shr_record_of_loc_m; lia).
    rewrite shr_record_of_loc_m.
    assert (Hn : Zpos n <= d - 1) by lia.
    split; [|lia].
    apply Z.div_str_pos. split; [lia|].
    apply Z.le_trans with (2 ^ (d - 1)); [|lia].
    apply Z.pow_le_mono_r; lia.
  - rewrite shr_record_of_loc_m. lia.
Qed.

Lemma round_nearest_even_positive (m : Z) (l : location) :
  0 < m -> 0 < round_nearest_even m l.
Proof.
  intros H. destruct l as [|[| |]]; simpl; try lia.
  destruct (Z.even m); lia.
Qed.

Definition isZero (x : spec_float) : bool :=
  match x with S754_zero _ => true | _ => false end.

Lemma binary_round_aux_nonzero (s : bool) (m e : Z) (l : location) :
  0 < m -> emin <= e -> isZero (binary_round_aux prec emax s m e l) = false.
Proof.
  intros Hm He. unfold binary_round_aux.
  destruct (shr_fexp_positive m e l Hm He) as [H1 H2].
  destruct (shr_fexp prec emax m e l) as [mrs' e'] eqn:E1. simpl in H1, H2.
  pose proof (round_nearest_even_positive (shr_m mrs') (loc_of_shr_record mrs') H1) as H3.
  destruct (shr_fexp_positive _ e' loc_Exact H3 H2) as [H4 H5].
  destruct (shr_fexp prec emax _ e' loc_Exact) as [mrs'' e''] eqn:E2.
  simpl in H4, H5.
  destruct (shr_m mrs'') as [|q|q]; try lia.
  destruct (e'' <=? emax - prec); reflexivity.
Qed.

Lemma binary_round_nonzero (s : bool) (m : positive) (e : Z) :
  emin <= e -> isZero (binary_round prec emax s m e) = false.
Proof.
  intros He. unfold binary_round, shl_align.
  assert (Hf : emin <= fexp prec emax (Zpos (digits2_pos m) + e)).
  { unfold fexp. fold emin. lia. }
  destruct (fexp prec emax (Zpos (digits2_pos m) + e) - e);
    apply binary_round_aux_nonzero; lia.
Qed.

Lemma valid_finite_exponent (s : bool) (m : positive) (e : Z) :
  valid_binary (S754_finite s m e) = true -> emin <= e.
Proof.
  simpl. unfold bounded, canonical_mantissa. intros H.
  apply andb_true_iff in H. destruct H as [H _].
  apply Z.eqb_eq in H. unfold fexp in H. fold emin in H. lia.
Qed.

(** Two floats that are not below zero and add up to zero are both zero. *)
Lemma add_zero_nonneg (x y : float) :
  (x <? 0)%float = false -> (y <? 0)%float = false ->
  (x + y =? 0)%float = true ->
  (0 <? x)%float = false /\ (0 <? y)%float = false.
Proof.
  rewrite !ltb_spec, eqb_spec, add_spec.
  pose proof (Prim2SF_valid x) as Vx. pose proof (Prim2SF_valid y) as Vy.
  change (Prim2SF 0) with (S754_zero false).
  destruct (Prim2SF x) as [sx|sx| |sx mx ex], (Prim2SF y) as [sy|sy| |sy my ey];
    unfold SF64add, SFadd, SFltb, SFeqb; simpl SFcompare;
    try (intros; split; reflexivity);
    try (destruct sx; discriminate);
    try (destruct sy; discriminate);
    try (destruct sx, sy; discriminate).
  intros Hx Hy.
  destruct sx; [discriminate|]. destruct sy; [discriminate|].
  apply valid_finite_exponent in Vx. apply valid_finite_exponent in Vy.
  intros H. exfalso.
  simpl cond_Zopp in H.
  pose proof (binary_round_nonzero false
    (fst (shl_align mx ex (Z.min ex ey)) + fst (shl_align my ey (Z.min ex ey)))%positive
    (Z.min ex ey) ltac:(lia)) as Hz.
  simpl binary_normalize in H.
  destruct (binary_round prec emax false _ (Z.min ex ey)) as [s|s| |s m e];
    simpl in *; try discriminate; destruct s; discriminate.
Qed.

(** Comparison is antisymmetric, and total on numbers: only NaN compares
    neither way. *)
Lemma SFcompare_antisym (x y : spec_float) :
  SFcompare y x = option_map CompOpp (SFcompare x y).
Proof.
  destruct x as [sx|sx| |sx mx ex], y as [sy|sy| |sy my ey]; simpl;
    try reflexivity;
    try (destruct sx; reflexivity); try (destruct sy; reflexivity);
    try (destruct sx, sy; reflexivity).
  destruct sx, sy; try reflexivity.
  - rewrite (Z.compare_antisym ey ex).
    destruct (ey ?= ex) eqn:E; simpl; try reflexivity.
    rewrite (Pos.compare_cont_antisym mx my Eq). reflexivity.
  - rewrite (Z.compare_antisym ey ex).
    destruct (ey ?= ex) eqn:E; simpl; try reflexivity.
    rewrite (Pos.compare_cont_antisym mx my Eq). reflexivity.
Qed.

Lemma not_leb_ltb (x y : float) :
  (x =? x)%float = true -> (y =? y)%float = true ->
  (x <=? y)%float = false -> (y <? x)%float = true.
Proof.
  rewrite !eqb_spec, leb_spec, ltb_spec.
  unfold SFeqb, SFleb, SFltb.
  rewrite (SFcompare_antisym (Prim2SF x) (Prim2SF y)).
  intros Hx Hy.
  destruct (SFcompare (Prim2SF x) (Prim2SF y)) as [[| |]|] eqn:E;
    simpl; try discriminate; try reflexivity.
  exfalso.
  destruct (Prim2SF x) as [sx|sx| |sx mx ex], (Prim2SF y) as [sy|sy| |sy my ey];
    simpl in *; discriminate.
Qed.

End Float64.

(** ** Configuration validation *)

(** One of the five comparisons of lines 130-136 holds: a check of
    [validateConfig] fires on the endpoint. *)
Definition failsPercentChecks (ep : BackendEndpoint) : Prop :=
  (be_DropPercent ep <? 0)%float = true \/
  (100 <? be_DropPercent ep)%float = true \/
  (be_IdlePercent ep <? 0)%float = true \/
  (100 <? be_IdlePercent ep)%float = true \/
  (100 <? be_DropPercent ep + be_IdlePercent ep)%float = true.

Lemma percentError_invalid (ep : BackendEndpoint) (i : nat) :
  failsPercentChecks ep -> percentError i ep <> None.
Proof.
  unfold failsPercentChecks, percentError.
  intros [H | [H | [H | [H | H]]]];
    repeat match goal with
           | |- context [if ?b then _ else _] => destruct b eqn:?
           end;
    try discriminate;
    repeat match goal with
           | E : (_ || _)%bool = false |- _ =>
               apply orb_false_iff in E; destruct E
           end;
    congruence.
Qed.

Lemma percentError_valid (ep : BackendEndpoint) (i : nat) :
  percentError i ep = None ->
  (be_DropPercent ep <? 0)%float = false /\
  (100 <? be_DropPercent ep)%float = false /\
  (be_IdlePercent ep <? 0)%float = false /\
  (100 <? be_IdlePercent ep)%float = false /\
  (100 <? be_DropPercent ep + be_IdlePercent ep)%float = false.
Proof.
  unfold percentError.
  destruct (be_DropPercent ep <? 0)%float, (100 <? be_DropPercent ep)%float;
    simpl; try discriminate.
  destruct (be_IdlePercent ep <? 0)%float, (100 <? be_IdlePercent ep)%float;
    simpl; try discriminate.
  destruct (100 <? be_DropPercent ep + be_IdlePercent ep)%float;
    try discriminate.
  intros _. repeat split.
Qed.

Lemma validateBackendEndpoint_invalid (ep : BackendEndpoint) (i : nat) :
  failsPercentChecks ep -> exists e, validateBackendEndpoint i ep = inl e.
Proof.
  intros H. unfold validateBackendEndpoint.
  destruct (String.eqb (be_Path ep) ""); [eexists; reflexivity|].
  destruct (percentError i ep) eqn:E.
  - eexists; reflexivity.
  - exfalso. exact (percentError_invalid ep i H E).
Qed.

Lemma validateBackendEndpoints_invalid (ep : BackendEndpoint) :
  failsPercentChecks ep ->
  forall eps i, In ep eps -> exists e, validateBackendEndpoints i eps = inl e.
Proof.
  intros H eps. induction eps as [|a rest IH]; intros i Hin.
  - destruct Hin.
  - simpl. destruct Hin as [-> | Hin].
    + destruct (validateBackendEndpoint_invalid ep i H) as [e ->].
      eexists; reflexivity.
    + destruct (validateBackendEndpoint i a); [eexists; reflexivity|].
      destruct (IH (S i) Hin) as [e ->]. eexists; reflexivity.
Qed.

Lemma mockEndpoints_In (c : Config) (ep : BackendEndpoint) :
  In ep (mockEndpoints c) ->
  typeIn (cfg_Type c) "backend" "both" = true /\
  exists b, cfg_Backend c = Some b /\ In ep (bc_Endpoints b).
Proof.
  unfold mockEndpoints.
  destruct (typeIn (cfg_Type c) "backend" "both"); [|intros []].
  destruct (cfg_Backend c) as [b|]; [|intros []].
  intros H. split; [reflexivity|]. exists b. split; [reflexivity|exact H].
Qed.

Lemma validateBackend_invalid (c : Config) (ep : BackendEndpoint) :
  In ep (mockEndpoints c) -> failsPercentChecks ep ->
  exists e, validateBackend c = inl e.
Proof.
  intros Hin Hbad.
  destruct (mockEndpoints_In c ep Hin) as [Ht [b [Hb Hep]]].
  unfold validateBackend. rewrite Ht, Hb.
  destruct (bc_Endpoints b) as [|a rest] eqn:E; [destruct Hep|].
  destruct (validateBackendEndpoints_invalid ep Hbad (a :: rest) 0%nat Hep)
    as [e ->].
  eexists; reflexivity.
Qed.

Lemma validateConfig_invalid (c : Config) (ep : BackendEndpoint) :
  In ep (mockEndpoints c) -> failsPercentChecks ep ->
  exists e, validateConfig c = inl e.
Proof.
  intros Hin Hbad. unfold validateConfig.
  destruct (negb (String.eqb (cfg_Type c) "client")
            && negb (String.eqb (cfg_Type c) "backend")
            && negb (String.eqb (cfg_Type c) "both"))%bool;
    [eexists; reflexivity|].
  destruct (validateClient c); [eexists; reflexivity|].
  destruct (validateBackend_invalid c ep Hin Hbad) as [e ->].
  eexists; reflexivity.
Qed.

(** The claim's words: a percentage lies within [[0, 100]] when it is at
    least 0 and at most 100, and outside when it is not; the percentages of
    an endpoint are out of range when one of them lies outside, or their
    sum is above 100. *)
Definition inPercentRange (p : float) : bool :=
  ((0 <=? p) && (p <=? 100))%float.

Definition percentagesOutOfRange (ep : BackendEndpoint) : Prop :=
  inPercentRange (be_DropPercent ep) = false \/
  inPercentRange (be_IdlePercent ep) = false \/
  (100 <? be_DropPercent ep + be_IdlePercent ep)%float = true.

(** A [float64] is a number when it is not NaN, that is, equal to itself. *)
Definition isNumber (p : float) : bool := (p =? p)%float.

Lemma outside_number_fails_check (p : float) :
  isNumber p = true -> inPercentRange p = false ->
  (p <? 0)%float = true \/ (100 <? p)%float = true.
Proof.
  unfold isNumber, inPercentRange. intros Hn H.
  apply andb_false_iff in H. destruct H as [H | H].
  - left. apply (Float64.not_leb_ltb 0 p eq_refl Hn H).
  - right. apply (Float64.not_leb_ltb p 100 Hn eq_refl H).
Qed.

(** Validation returns an error for every configuration one of whose mock
    endpoints has percentages that are numbers and are out of range: below
    0, above 100, or with a sum above 100; [main] then starts no engine. *)
Lemma numbers_out_of_range_rejected (c : Config) (ep : BackendEndpoint) :
  In ep (mockEndpoints c) ->
  isNumber (be_DropPercent ep) = true ->
  isNumber (be_IdlePercent ep) = true ->
  percentagesOutOfRange ep ->
  (exists e, validateConfig c = inl e) /\ startedEngines c = [].
Proof.
  intros Hin Hd Hi Hout.
  assert (Hbad : failsPercentChecks ep).
  { unfold failsPercentChecks. destruct Hout as [H | [H | H]].
    - destruct (outside_number_fails_check _ Hd H); tauto.
    - destruct (outside_number_fails_check _ Hi H); tauto.
    - tauto. }
  destruct (validateConfig_invalid c ep Hin Hbad) as [e He].
  split; [exists e; exact He|].
  unfold startedEngines. rewrite He. reflexivity.
Qed.

Definition sampleMock (drop idle : float) : BackendEndpoint :=
  {| be_Path := "/unreliable"; be_Method := "GET"; be_StatusCode := 200;
     be_Headers := [("Content-Type", "text/plain")]; be_Body := "OK";
     be_Delay := 0; be_DropPercent := drop; be_IdlePercent := idle;
     be_IdleDuration := 0 |}.

Definition sampleBackendConfig (eps : list BackendEndpoint) : Config :=
  {| cfg_Type := "backend"; cfg_Client := None;
     cfg_Backend := Some {| bc_Port := 0; bc_Endpoints := eps |};
     cfg_Logging := {| lc_Level := ""; lc_Verbose := false |} |}.

Example numbers_out_of_range_rejected_sample :
  (exists e, validateConfig
               (sampleBackendConfig [sampleMock 10 20; sampleMock 60 50]) = inl e)
  /\ startedEngines (sampleBackendConfig [sampleMock 10 20; sampleMock 60 50]) = [].
Proof.
  apply (numbers_out_of_range_rejected
           (sampleBackendConfig [sampleMock 10 20; sampleMock 60 50])
           (sampleMock 60 50)).
  - simpl. right. left. reflexivity.
  - reflexivity.
  - reflexivity.
  - unfold percentagesOutOfRange. do 2 right. reflexivity.
Qed.

(** C9, at a configuration file whose one mock endpoint has the drop
    percentage NaN (YAML [drop_percent: .nan]).  NaN is not within
    [[0, 100]], so the endpoint's percentages are out of range; but NaN
    compares neither below 0 nor above 100, and a sum with NaN is NaN: none
    of the checks of lines 130-136 fires, validation returns no error, and
    [main] starts the backend engine with the endpoint in it. *)
Theorem nan_percentage_accepted :
  let ep := sampleMock PrimFloat.nan 0 in
  let c := sampleBackendConfig [ep] in
  In ep (mockEndpoints c) /\
  percentagesOutOfRange ep /\
  percentError 0 ep = None /\
  validateConfig c
  = inr {| cfg_Type := "backend"; cfg_Client := None;
           cfg_Backend := Some {| bc_Port := 8080; bc_Endpoints := [ep] |};
           cfg_Logging := {| lc_Level := "info"; lc_Verbose := false |} |} /\
  startedEngines c
  = [BackendEngine (Some {| bc_Port := 8080; bc_Endpoints := [ep] |})].
Proof.
  split; [left; reflexivity|].
  split; [left; reflexivity|].
  split; [reflexivity|]. split; reflexivity.
Qed.

(** A valid file is accepted with its defaults filled in. *)
Example validateConfig_accepts :
  validateConfig (sampleBackendConfig [sampleMock 10 20]) =
  inr {| cfg_Type := "backend"; cfg_Client := None;
         cfg_Backend :=
           Some {| bc_Port := 8080;
                   bc_Endpoints :=
                     [set_be_IdleDuration 30000000000 (sampleMock 10 20)] |};
         cfg_Logging := {| lc_Level := "info"; lc_Verbose := false |} |}.
Proof. reflexivity. Qed.

(** ** The fault-decision draw *)

(** The draws of the non-negative clock residues [0 .. 9999], and of their
    opposites, checked by evaluation. *)
Definition residues : list Z := map Z.of_nat (seq 0 (Z.to_nat 10000)).

Definition drawOfResidue (k : Z) : float := (Go.float64_of_int k / 100)%float.

Definition drawMax : float := drawOfResidue 9999.

Definition nonNegativeResidueOk (k : Z) : bool :=
  (0 <=? drawOfResidue k)%float && (drawOfResidue k <=? drawMax)%float
  && (drawOfResidue k <? 100)%float && (-100 <? drawOfResidue k)%float.

Definition negativeResidueOk (k : Z) : bool :=
  (drawOfResidue (- k) <=? 0)%float && (-100 <? drawOfResidue (- k))%float
  && (drawOfResidue (- k) <? 100)%float.

Lemma residues_nonNegative : forallb nonNegativeResidueOk residues = true.
Proof. vm_compute. reflexivity. Qed.

Lemma residues_negative : forallb negativeResidueOk residues = true.
Proof. vm_compute. reflexivity. Qed.

Lemma residues_In (k : Z) : 0 <= k < 10000 -> In k residues.
Proof.
  intros H. unfold residues. apply in_map_iff.
  exists (Z.to_nat k). split; [lia|]. apply in_seq. lia.
Qed.

Lemma draw_nonNegative_clock (t : Z) :
  0 <= t ->
  (0 <=? draw t)%float = true /\ (draw t <=? drawMax)%float = true
  /\ (draw t <? 100)%float = true /\ (-100 <? draw t)%float = true.
Proof.
  intros Ht.
  assert (Hk : 0 <= Z.rem t 10000 < 10000) by (apply Z.rem_bound_pos; lia).
  pose proof (proj1 (forallb_forall _ _) residues_nonNegative _
                (residues_In _ Hk)) as H.
  unfold nonNegativeResidueOk in H.
  apply andb_true_iff in H. destruct H as [H H4].
  apply andb_true_iff in H. destruct H as [H H3].
  apply andb_true_iff in H. destruct H as [H1 H2].
  unfold draw, Go.rem. fold (drawOfResidue (Z.rem t 10000)). auto.
Qed.

Lemma draw_negative_clock (t : Z) :
  t <= 0 ->
  (draw t <=? 0)%float = true /\ (-100 <? draw t)%float = true
  /\ (draw t <? 100)%float = true.
Proof.
  intros Ht.
  assert (Hk : 0 <= - Z.rem t 10000 < 10000).
  { pose proof (Z.rem_bound_pos_neg t 10000). lia. }
  pose proof (proj1 (forallb_forall _ _) residues_negative _
                (residues_In _ Hk)) as H.
  unfold negativeResidueOk in H. rewrite Z.opp_involutive in H.
  apply andb_true_iff in H. destruct H as [H H3].
  apply andb_true_iff in H. destruct H as [H1 H2].
  unfold draw, Go.rem. fold (drawOfResidue (Z.rem t 10000)). auto.
Qed.

(** Whatever the clock reads, the draw is strictly between -100 and 100. *)
Lemma draw_bounds (t : Z) :
  (-100 <? draw t)%float = true /\ (draw t <? 100)%float = true.
Proof.
  destruct (Z.le_ge_cases 0 t) as [H | H].
  - split; apply (draw_nonNegative_clock t H).
  - split; apply (draw_negative_clock t H).
Qed.

(** ** Traces of the response writers *)

(** The events the writer operations produce. *)
Definition writerEvent (e : Event) : bool :=
  match e with
  | HeaderSet _ _ | WriteHeader _ | Write _ | SetStatusCode _ | Panic => true
  | _ => false
  end.

Definition writerOnly (tr : Trace) : Prop := forallb writerEvent tr = true.

Lemma writerOnly_app (a b : Trace) :
  writerOnly a -> writerOnly b -> writerOnly (a ++ b).
Proof.
  unfold writerOnly. intros Ha Hb. rewrite forallb_app, Ha, Hb. reflexivity.
Qed.

Lemma andThen_cases (a b : Trace) :
  (panicked a = true /\ andThen a b = a) \/
  (panicked a = false /\ andThen a b = a ++ b).
Proof. unfold andThen. destruct (panicked a); auto. Qed.

Lemma writerOnly_andThen (a b : Trace) :
  writerOnly a -> writerOnly b -> writerOnly (andThen a b).
Proof.
  intros Ha Hb. unfold andThen.
  destruct (panicked a); [exact Ha | apply writerOnly_app; assumption].
Qed.

Lemma filter_andThen_nil (p : Event -> bool) (a b : Trace) :
  filter p a = [] -> filter p b = [] -> filter p (andThen a b) = [].
Proof.
  intros Ha Hb. unfold andThen.
  destruct (panicked a); [exact Ha | rewrite filter_app, Ha, Hb; reflexivity].
Qed.

Lemma panicked_app (a b : Trace) :
  panicked (a ++ b) = panicked a || panicked b.
Proof. apply existsb_app. Qed.

Lemma panicked_filter_nil (tr : Trace) :
  panicked tr = false <-> filter isPanic tr = [].
Proof.
  unfold panicked. induction tr as [|e rest IH]; [tauto|].
  simpl. destruct (isPanic e); simpl; [split; discriminate | exact IH].
Qed.

Lemma w_WriteHeader_writerOnly (w : ResponseWriter) (code : Z) :
  writerOnly (w_WriteHeader w code).
Proof.
  induction w as [t | inner IH]; [|exact IH].
  simpl. destruct (validStatus code); reflexivity.
Qed.

Lemma w_WriteHeader_panicked (w : ResponseWriter) (code : Z) :
  panicked (w_WriteHeader w code) = negb (validStatus code).
Proof.
  induction w as [t | inner IH]; [|exact IH].
  simpl. destruct (validStatus code); reflexivity.
Qed.

Lemma andThen_WriteHeader_valid (w : ResponseWriter) (code : Z) (rest : Trace) :
  validStatus code = true ->
  andThen (w_WriteHeader w code) rest = w_WriteHeader w code ++ rest.
Proof.
  intros Hv. unfold andThen. rewrite w_WriteHeader_panicked, Hv. reflexivity.
Qed.

Lemma andThen_WriteHeader_invalid (w : ResponseWriter) (code : Z) (rest : Trace) :
  validStatus code = false ->
  andThen (w_WriteHeader w code) rest = w_WriteHeader w code.
Proof.
  intros Hv. unfold andThen. rewrite w_WriteHeader_panicked, Hv. reflexivity.
Qed.

Lemma w_Write_panicked (w : ResponseWriter) (body : string) :
  panicked (w_Write w body) = false.
Proof. induction w as [t | inner IH]; [reflexivity | exact IH]. Qed.

Lemma w_HeaderSet_panicked (w : ResponseWriter) (kv : string * string) :
  panicked (w_HeaderSet w kv) = false.
Proof. induction w as [t | inner IH]; [reflexivity | exact IH]. Qed.

Lemma headers_panicked (w : ResponseWriter) (hs : list (string * string)) :
  panicked (flat_map (w_HeaderSet w) hs) = false.
Proof.
  induction hs as [|kv rest IH]; [reflexivity|].
  simpl. rewrite panicked_app, w_HeaderSet_panicked, IH. reflexivity.
Qed.

Lemma w_Write_writerOnly (w : ResponseWriter) (body : string) :
  writerOnly (w_Write w body).
Proof. induction w as [t | inner IH]; [reflexivity | exact IH]. Qed.

Lemma w_HeaderSet_writerOnly (w : ResponseWriter) (kv : string * string) :
  writerOnly (w_HeaderSet w kv).
Proof. induction w as [t | inner IH]; [reflexivity | exact IH]. Qed.

Lemma headers_writerOnly (w : ResponseWriter) (hs : list (string * string)) :
  writerOnly (flat_map (w_HeaderSet w) hs).
Proof.
  induction hs as [|kv rest IH]; [reflexivity|].
  simpl. apply writerOnly_app; [apply w_HeaderSet_writerOnly | exact IH].
Qed.

Lemma http_Error_writerOnly (w : ResponseWriter) (msg : string) (code : Z) :
  writerOnly (http_Error w msg code).
Proof.
  unfold http_Error.
  repeat first [apply writerOnly_app | apply writerOnly_andThen];
    auto using w_HeaderSet_writerOnly, w_WriteHeader_writerOnly,
               w_Write_writerOnly.
Qed.

Lemma filter_writerOnly (p : Event -> bool) (tr : Trace) :
  (forall e, writerEvent e = true -> p e = false) ->
  writerOnly tr -> filter p tr = [].
Proof.
  intros Hp. unfold writerOnly.
  induction tr as [|e rest IH]; [reflexivity|].
  simpl. intros H. apply andb_true_iff in H. destruct H as [He Hr].
  rewrite (Hp e He). auto.
Qed.

Lemma decisions_app (a b : Trace) :
  decisions (a ++ b) = decisions a ++ decisions b.
Proof.
  induction a as [|e rest IH]; [reflexivity|].
  destruct e as [| m l | | | | | | | | | | | | | | |]; simpl; try exact IH.
  destruct m; simpl; rewrite ?IH; reflexivity.
Qed.

Lemma decisions_writerOnly (tr : Trace) : writerOnly tr -> decisions tr = [].
Proof.
  unfold writerOnly. induction tr as [|e rest IH]; [reflexivity|].
  simpl. intros H. apply andb_true_iff in H. destruct H as [He Hr].
  destruct e; try discriminate; simpl; auto.
Qed.

Lemma sleeps_app (a b : Trace) : sleeps (a ++ b) = sleeps a ++ sleeps b.
Proof.
  induction a as [|e rest IH]; [reflexivity|].
  destruct e; simpl; rewrite ?IH; reflexivity.
Qed.

Lemma sleeps_writerOnly (tr : Trace) : writerOnly tr -> sleeps tr = [].
Proof.
  unfold writerOnly. induction tr as [|e rest IH]; [reflexivity|].
  simpl. intros H. apply andb_true_iff in H. destruct H as [He Hr].
  destruct e; try discriminate; simpl; auto.
Qed.

Lemma w_WriteHeader_status (w : ResponseWriter) (code : Z) :
  filter writesResponse (w_WriteHeader w code)
  = if validStatus code then [WriteHeader code] else [].
Proof.
  induction w as [t | inner IH]; [|exact IH].
  simpl. destruct (validStatus code); reflexivity.
Qed.

Lemma w_Write_body (w : ResponseWriter) (body : string) :
  filter writesResponse (w_Write w body) = [Write body].
Proof. induction w as [t | inner IH]; [reflexivity | exact IH]. Qed.

Lemma w_HeaderSet_noWrite (w : ResponseWriter) (kv : string * string) :
  filter writesResponse (w_HeaderSet w kv) = [].
Proof. induction w as [t | inner IH]; [reflexivity | exact IH]. Qed.

(** The events of the fault logic and of the normal reply's bookkeeping:
    metrics, sleeps and actions on the raw connection. *)
Definition faultEvent (e : Event) : bool :=
  match e with
  | Inc _ _ | Observe _ _ _ | Sleep _ | Hijack _ | ConnClose => true
  | _ => false
  end.

(** ** Method check *)

Lemma method_mismatch (ep : BackendEndpoint) (r : Request) :
  req_Method r <> be_Method ep ->
  negb (String.eqb (req_Method r) (be_Method ep)) = true.
Proof.
  intros H. apply negb_true_iff. apply String.eqb_neq. exact H.
Qed.

Lemma method_match (ep : BackendEndpoint) (r : Request) :
  req_Method r = be_Method ep ->
  negb (String.eqb (req_Method r) (be_Method ep)) = false.
Proof.
  intros H. apply negb_false_iff. apply String.eqb_eq. exact H.
Qed.

(** C7. A request whose method differs from the endpoint's is answered by
    [http.Error] with status 405 and the text "Method not allowed"; the reply
    depends neither on the endpoint's configuration nor on the clock, its
    only writes are the status 405 and that text, and it contains no fault
    decision, metric, sleep or action on the connection. *)
Theorem method_mismatch_405 (ep : BackendEndpoint) (w : ResponseWriter)
  (r : Request) (clk : Clock) :
  req_Method r <> be_Method ep ->
  let tr := registerEndpoint ep w r clk in
  tr = http_Error w "Method not allowed" 405 /\
  responseWrites tr
  = [WriteHeader 405;
     Write (String.append "Method not allowed" (String (Ascii.ascii_of_nat 10) ""))] /\
  decisions tr = [] /\
  filter faultEvent tr = [].
Proof.
  intros Hm tr. subst tr. unfold registerEndpoint.
  rewrite (method_mismatch ep r Hm).
  split; [reflexivity|]. split; [|split].
  - unfold responseWrites, http_Error.
    rewrite andThen_WriteHeader_valid by reflexivity.
    rewrite !filter_app, !w_HeaderSet_noWrite, w_WriteHeader_status, w_Write_body.
    reflexivity.
  - apply decisions_writerOnly, http_Error_writerOnly.
  - apply filter_writerOnly; [|apply http_Error_writerOnly].
    intros e. destruct e; simpl; congruence.
Qed.

Definition sampleRequest (method : string) : Request :=
  {| req_Method := method; req_Path := "/unreliable";
     req_RemoteAddr := "10.0.0.7:51234";
     req_Header := [("Accept", ["*/*"])] |}.

Definition sampleClock (unixNano : Z) : Clock :=
  {| clk_UnixNano := unixNano; clk_Since := 250000; clk_RangeSeed := 0 |}.

Lemma method_mismatch_405_witness :
  let tr := registerEndpoint (sampleMock 100 0) (LoggingWriter (ConnWriter (Some true)))
              (sampleRequest "POST") (sampleClock 1730000000123456789) in
  tr = http_Error (LoggingWriter (ConnWriter (Some true))) "Method not allowed" 405 /\
  responseWrites tr
  = [WriteHeader 405;
     Write (String.append "Method not allowed" (String (Ascii.ascii_of_nat 10) ""))] /\
  decisions tr = [] /\
  filter faultEvent tr = [].
Proof.
  apply (method_mismatch_405 (sampleMock 100 0)
           (LoggingWriter (ConnWriter (Some true))) (sampleRequest "POST")
           (sampleClock 1730000000123456789)).
  simpl. discriminate.
Defined.

(** ** The three-way fault decision *)

(** The decision rule in the specification's words: drop if
    [r < dropProbability], else idle if
    [r < dropProbability + idleProbability], else respond. *)
Definition specDecision (ep : BackendEndpoint) (r : float) : FaultDecision :=
  if (r <? be_DropPercent ep)%float then Drop
  else if (r <? be_DropPercent ep + be_IdlePercent ep)%float then Idle
  else Respond.

(** The trace of each outcome. *)
Definition outcomeTrace (d : FaultDecision) (ep : BackendEndpoint)
  (w : ResponseWriter) (r : Request) (clk : Clock) : Trace :=
  match d with
  | Drop => dropConnection w r
  | Idle => idleConnection ep w r
  | Respond => normalResponse ep w r clk
  end.

Lemma decisions_dropConnection (w : ResponseWriter) (r : Request) :
  decisions (dropConnection w r) = [Drop].
Proof.
  unfold dropConnection, closeAfterDrop.
  destruct (asHijacker w) as [[|]|]; reflexivity.
Qed.

Lemma decisions_idleConnection (ep : BackendEndpoint) (w : ResponseWriter)
  (r : Request) :
  decisions (idleConnection ep w r) = [Idle].
Proof.
  unfold idleConnection, closeAfterIdle.
  destruct (asHijacker w) as [[|]|]; reflexivity.
Qed.

Lemma panicked_delay (c : bool) (d : Go.Duration) :
  panicked (if c then [Sleep d] else []) = false.
Proof. destruct c; reflexivity. Qed.

Lemma decisions_delay (c : bool) (d : Go.Duration) :
  decisions (if c then [Sleep d] else []) = [].
Proof. destruct c; reflexivity. Qed.

(** The normal reply panics exactly when [WriteHeader] does. *)
Lemma panicked_normalResponse (ep : BackendEndpoint) (w : ResponseWriter)
  (r : Request) (clk : Clock) :
  panicked (normalResponse ep w r clk) = negb (validStatus (be_StatusCode ep)).
Proof.
  unfold normalResponse. rewrite !panicked_app, headers_panicked.
  rewrite panicked_delay. simpl.
  destruct (validStatus (be_StatusCode ep)) eqn:Hv.
  - rewrite andThen_WriteHeader_valid by exact Hv.
    rewrite !panicked_app, w_WriteHeader_panicked, Hv.
    destruct (String.eqb (be_Body ep) "");
      rewrite ?w_Write_panicked; reflexivity.
  - rewrite andThen_WriteHeader_invalid by exact Hv.
    rewrite w_WriteHeader_panicked, Hv. reflexivity.
Qed.

(** The normal reply counts its request after [WriteHeader] has returned,
    hence not at all when [WriteHeader] panics. *)
Lemma decisions_normalResponse (ep : BackendEndpoint) (w : ResponseWriter)
  (r : Request) (clk : Clock) :
  decisions (normalResponse ep w r clk)
  = if validStatus (be_StatusCode ep) then [Respond] else [].
Proof.
  unfold normalResponse. rewrite !decisions_app.
  rewrite (decisions_writerOnly _ (headers_writerOnly w _)).
  rewrite decisions_delay. simpl.
  destruct (validStatus (be_StatusCode ep)) eqn:Hv.
  - rewrite andThen_WriteHeader_valid by exact Hv.
    rewrite !decisions_app.
    rewrite (decisions_writerOnly _ (w_WriteHeader_writerOnly w (be_StatusCode ep))).
    destruct (String.eqb (be_Body ep) "");
      simpl; rewrite ?(decisions_writerOnly _ (w_Write_writerOnly w (be_Body ep)));
      reflexivity.
  - rewrite andThen_WriteHeader_invalid by exact Hv.
    apply decisions_writerOnly, w_WriteHeader_writerOnly.
Qed.

Lemma panicked_dropConnection (w : ResponseWriter) (r : Request) :
  panicked (dropConnection w r) = false.
Proof.
  unfold dropConnection, closeAfterDrop.
  destruct (asHijacker w) as [[|]|]; reflexivity.
Qed.

Lemma panicked_idleConnection (ep : BackendEndpoint) (w : ResponseWriter)
  (r : Request) :
  panicked (idleConnection ep w r) = false.
Proof.
  unfold idleConnection, closeAfterIdle.
  destruct (asHijacker w) as [[|]|]; reflexivity.
Qed.

(** Only the reply can panic, and it does on a status code that is not of
    three digits. *)
Lemma panicked_outcomeTrace (d : FaultDecision) (ep : BackendEndpoint)
  (w : ResponseWriter) (r : Request) (clk : Clock) :
  panicked (outcomeTrace d ep w r clk)
  = match d with
    | Respond => negb (validStatus (be_StatusCode ep))
    | _ => false
    end.
Proof.
  destruct d; unfold outcomeTrace.
  - apply panicked_dropConnection.
  - apply panicked_idleConnection.
  - apply panicked_normalResponse.
Qed.

(** An outcome counts itself once and no other outcome; a reply that
    panics counts nothing. *)
Lemma decisions_outcomeTrace (d : FaultDecision) (ep : BackendEndpoint)
  (w : ResponseWriter) (r : Request) (clk : Clock) :
  decisions (outcomeTrace d ep w r clk)
  = if panicked (outcomeTrace d ep w r clk) then [] else [d].
Proof.
  rewrite panicked_outcomeTrace. destruct d; unfold outcomeTrace.
  - apply decisions_dropConnection.
  - apply decisions_idleConnection.
  - rewrite decisions_normalResponse.
    destruct (validStatus (be_StatusCode ep)); reflexivity.
Qed.

Lemma createHandler_faults (ep : BackendEndpoint) (w : ResponseWriter)
  (r : Request) (clk : Clock) :
  faultsConfigured ep = true ->
  createHandler ep w r clk
  = outcomeTrace (specDecision ep (draw (clk_UnixNano clk))) ep w r clk.
Proof.
  intros H. unfold createHandler, specDecision. rewrite H.
  destruct (draw (clk_UnixNano clk) <? be_DropPercent ep)%float; [reflexivity|].
  destruct (draw (clk_UnixNano clk) <? be_DropPercent ep + be_IdlePercent ep)%float;
    reflexivity.
Qed.

Lemma createHandler_noFaults (ep : BackendEndpoint) (w : ResponseWriter)
  (r : Request) (clk : Clock) :
  faultsConfigured ep = false ->
  createHandler ep w r clk = normalResponse ep w r clk.
Proof. intros H. unfold createHandler. rewrite H. reflexivity. Qed.

Lemma registerEndpoint_match (ep : BackendEndpoint) (w : ResponseWriter)
  (r : Request) (clk : Clock) :
  req_Method r = be_Method ep ->
  registerEndpoint ep w r clk = createHandler ep w r clk.
Proof.
  intros H. unfold registerEndpoint. rewrite (method_match ep r H). reflexivity.
Qed.

(** C1. For a request with the endpoint's method, when the drop or the idle
    percentage is positive, the handler draws one value [x] from the clock,
    below 100 and, the clock being at or after the Unix epoch, at least 0;
    it drops if [x < drop], else idles if [x < drop + idle], else responds:
    its trace is that of exactly this one outcome, it counts this outcome
    and no other, and it counts nothing only when the outcome is to respond
    and [WriteHeader] panics on a status code that is not of three
    digits. *)
Theorem three_way_decision (ep : BackendEndpoint) (w : ResponseWriter)
  (r : Request) (clk : Clock) :
  req_Method r = be_Method ep ->
  faultsConfigured ep = true ->
  let x := draw (clk_UnixNano clk) in
  let tr := registerEndpoint ep w r clk in
  (0 <= clk_UnixNano clk -> (0 <=? x)%float = true) /\
  (x <? 100)%float = true /\
  tr = outcomeTrace (specDecision ep x) ep w r clk /\
  decisions tr = (if panicked tr then [] else [specDecision ep x]) /\
  panicked tr
  = match specDecision ep x with
    | Respond => negb (validStatus (be_StatusCode ep))
    | _ => false
    end.
Proof.
  intros Hm Hf x tr. subst x tr.
  destruct (draw_bounds (clk_UnixNano clk)) as [_ Hhi].
  split; [intros Ht; apply (draw_nonNegative_clock _ Ht)|].
  split; [exact Hhi|].
  rewrite (registerEndpoint_match ep w r clk Hm).
  rewrite (createHandler_faults ep w r clk Hf).
  split; [reflexivity|].
  split; [apply decisions_outcomeTrace | apply panicked_outcomeTrace].
Qed.

Lemma three_way_decision_witness :
  let ep := sampleMock 30 20 in
  let w := LoggingWriter (ConnWriter (Some true)) in
  let r := sampleRequest "GET" in
  let clk := sampleClock 1730000000123454321 in
  let x := draw (clk_UnixNano clk) in
  let tr := registerEndpoint ep w r clk in
  (0 <=? x)%float = true /\
  (x <? 100)%float = true /\
  tr = outcomeTrace Idle ep w r clk /\
  decisions tr = [Idle] /\
  panicked tr = false.
Proof.
  destruct (three_way_decision (sampleMock 30 20)
              (LoggingWriter (ConnWriter (Some true))) (sampleRequest "GET")
              (sampleClock 1730000000123454321) eq_refl eq_refl)
    as [H0 [H1 [H2 [H3 H4]]]].
  split; [apply H0; simpl; lia|].
  split; [exact H1|]. split; [exact H2|]. split; [exact H3 | exact H4].
Defined.

(** ** The drop path *)

(** The claim C3 as the specification words it, on the trace of one
    request: the connection is closed, nothing is written on the response,
    the drop counter goes up once and the request counter not at all. *)
Definition closedWithoutResponse (tr : Trace) : Prop :=
  connectionCloses tr = 1%nat /\
  responseWrites tr = [] /\
  increments BackendDroppedTotal tr = 1%nat /\
  increments BackendRequestsTotal tr = 0%nat.


Lemma dropConnection_effects (w : ResponseWriter) (r : Request) :
  responseWrites (dropConnection w r) = [] /\
  increments BackendDroppedTotal (dropConnection w r) = 1%nat /\
  increments BackendRequestsTotal (dropConnection w r) = 0%nat /\
  connectionCloses (dropConnection w r)
  = match asHijacker w with Some true => 1%nat | _ => 0%nat end.
Proof.
  unfold dropConnection, closeAfterDrop.
  destruct (asHijacker w) as [[|]|]; repeat split.
Qed.

Lemma drop_certain (ep : BackendEndpoint) (w : ResponseWriter)
  (r : Request) (clk : Clock) :
  req_Method r = be_Method ep ->
  be_DropPercent ep = 100%float ->
  registerEndpoint ep w r clk = dropConnection w r.
Proof.
  intros Hm Hd.
  rewrite (registerEndpoint_match ep w r clk Hm).
  assert (Hf : faultsConfigured ep = true).
  { unfold faultsConfigured. rewrite Hd. reflexivity. }
  rewrite (createHandler_faults ep w r clk Hf).
  unfold specDecision. rewrite Hd.
  rewrite (proj2 (draw_bounds (clk_UnixNano clk))). reflexivity.
Qed.


(** The writer [loggingMiddleware] hands on never passes the type assertion
    [w.(http.Hijacker)]: behind the server built by [Run], no handler closes
    the connection, whatever the connection underneath offers. *)
Lemma LoggingWriter_not_Hijacker (w : ResponseWriter) :
  asHijacker (LoggingWriter w) = None.
Proof. reflexivity. Qed.

Lemma connectionCloses_app (a b : Trace) :
  connectionCloses (a ++ b) = (connectionCloses a + connectionCloses b)%nat.
Proof. unfold connectionCloses. rewrite filter_app, length_app. reflexivity. Qed.

Lemma connectionCloses_writerOnly (tr : Trace) :
  writerOnly tr -> connectionCloses tr = 0%nat.
Proof.
  intros H. unfold connectionCloses. rewrite filter_writerOnly; auto.
  intros e. destruct e; simpl; congruence.
Qed.

Lemma connectionCloses_logs {A : Type} (lvl : Level) (fmt : string) (l : list A) :
  connectionCloses (map (fun _ => Log lvl fmt) l) = 0%nat.
Proof. induction l as [|a rest IH]; [reflexivity | exact IH]. Qed.

Lemma connectionCloses_headerLogs (hs : list (string * list string)) :
  connectionCloses
    (flat_map (fun kv => map (fun _ => Log Debug "    %s: %s") (snd kv)) hs) = 0%nat.
Proof.
  induction hs as [|kv rest IH]; [reflexivity|].
  simpl. rewrite connectionCloses_app, connectionCloses_logs, IH. reflexivity.
Qed.

Lemma connectionCloses_andThen (a b : Trace) :
  connectionCloses a = 0%nat -> connectionCloses b = 0%nat ->
  connectionCloses (andThen a b) = 0%nat.
Proof.
  intros Ha Hb. unfold andThen.
  destruct (panicked a); [exact Ha|].
  rewrite connectionCloses_app, Ha, Hb. reflexivity.
Qed.

Lemma connectionCloses_normalResponse (ep : BackendEndpoint)
  (w : ResponseWriter) (r : Request) (clk : Clock) :
  connectionCloses (normalResponse ep w r clk) = 0%nat.
Proof.
  unfold normalResponse. rewrite !connectionCloses_app.
  rewrite (connectionCloses_writerOnly _ (headers_writerOnly w _)).
  rewrite connectionCloses_andThen.
  - destruct (0 <? be_Delay ep); reflexivity.
  - apply connectionCloses_writerOnly, w_WriteHeader_writerOnly.
  - rewrite !connectionCloses_app.
    destruct (String.eqb (be_Body ep) "");
      rewrite ?(connectionCloses_writerOnly _ (w_Write_writerOnly w (be_Body ep)));
      reflexivity.
Qed.

Lemma serve_never_closes (verbose : bool) (ep : BackendEndpoint)
  (w : ResponseWriter) (r : Request) (clk : Clock) :
  connectionCloses (serve verbose ep w r clk) = 0%nat.
Proof.
  unfold serve, loggingMiddleware. rewrite !connectionCloses_app.
  assert (H : connectionCloses (registerEndpoint ep (LoggingWriter w) r clk) = 0%nat).
  { unfold registerEndpoint.
    destruct (negb (String.eqb (req_Method r) (be_Method ep))).
    - apply connectionCloses_writerOnly, http_Error_writerOnly.
    - unfold createHandler.
      destruct (faultsConfigured ep);
        [|apply connectionCloses_normalResponse].
      destruct (draw (clk_UnixNano clk) <? be_DropPercent ep)%float;
        [reflexivity|].
      destruct (draw (clk_UnixNano clk)
                <? be_DropPercent ep + be_IdlePercent ep)%float;
        [reflexivity | apply connectionCloses_normalResponse]. }
  rewrite (connectionCloses_andThen _ [Log Info "→ %s %s -> %d (took %v)"]
             H eq_refl).
  destruct verbose; [|reflexivity].
  change (connectionCloses (Log Debug "  Request Headers:" :: ?l))
    with (connectionCloses l).
  rewrite connectionCloses_headerLogs. reflexivity.
Qed.

(** C3, at a request as the server started by [Run] hands it to the
    handler, to an endpoint whose drop percentage is 100 and whose method
    the request has; the connection underneath offers takeover, and the
    takeover would succeed.  The handler takes the drop branch and counts
    the drop, but its type assertion is made on the writer of
    [loggingMiddleware], which has no [Hijack]: the handler returns without
    [conn.Close()], the middleware logs the status 200 it started from, and
    the connection is not closed. *)
Theorem drop_behind_Run_not_closed :
  let ep := sampleMock 100 0 in
  let r := sampleRequest "GET" in
  let tr := serve false ep (ConnWriter (Some true)) r
              (sampleClock 1730000000123456789) in
  be_DropPercent ep = 100%float /\
  req_Method r = be_Method ep /\
  tr = [Log Info "← %s %s from %s";
        Log Warn "Dropping connection for %s %s (%.1f%% drop rate)";
        Inc BackendDroppedTotal (pathMethod r);
        Log Info "→ %s %s -> %d (took %v)"] /\
  connectionCloses tr = 0%nat /\
  ~ closedWithoutResponse tr.
Proof.
  split; [reflexivity|]. split; [reflexivity|]. split; [reflexivity|].
  split; [reflexivity|].
  unfold closedWithoutResponse. intros [H _]. vm_compute in H. discriminate.
Qed.

(** ** The idle path *)

Lemma closeAfterIdle_closeAfterDrop (w : ResponseWriter) :
  closeAfterIdle w = closeAfterDrop w.
Proof.
  unfold closeAfterIdle, closeAfterDrop.
  destruct (asHijacker w) as [[|]|]; reflexivity.
Qed.

(** A trace whose decision is idle is the trace of the idle branch. *)
Lemma idle_decision_trace (ep : BackendEndpoint) (w : ResponseWriter)
  (r : Request) (clk : Clock) :
  decisions (registerEndpoint ep w r clk) = [Idle] ->
  registerEndpoint ep w r clk = idleConnection ep w r.
Proof.
  unfold registerEndpoint.
  destruct (negb (String.eqb (req_Method r) (be_Method ep))).
  - rewrite (decisions_writerOnly _ (http_Error_writerOnly w _ _)). discriminate.
  - unfold createHandler.
    destruct (faultsConfigured ep).
    + destruct (draw (clk_UnixNano clk) <? be_DropPercent ep)%float.
      * rewrite decisions_dropConnection. discriminate.
      * destruct (draw (clk_UnixNano clk)
                  <? be_DropPercent ep + be_IdlePercent ep)%float;
          [reflexivity|].
        rewrite decisions_normalResponse.
        destruct (validStatus (be_StatusCode ep)); discriminate.
    + rewrite decisions_normalResponse.
      destruct (validStatus (be_StatusCode ep)); discriminate.
Qed.

(** C6. When the fault decision of a request is idle, the handler counts one
    idled connection, observes once the idle duration it resolved (the
    configured one, 30 seconds when that is zero), sleeps exactly that long,
    and then runs the steps on the connection that the drop path runs. *)
Theorem idle_holds_then_terminates (ep : BackendEndpoint) (w : ResponseWriter)
  (r : Request) (clk : Clock) :
  decisions (registerEndpoint ep w r clk) = [Idle] ->
  let tr := registerEndpoint ep w r clk in
  let d := if be_IdleDuration ep =? 0 then 30 * Go.Second
           else be_IdleDuration ep in
  increments BackendIdledTotal tr = 1%nat /\
  observations BackendIdleDuration tr = [Seconds d] /\
  sleeps tr = [d] /\
  responseWrites tr = [] /\
  (exists before,
      tr = before ++ Sleep d :: closeAfterDrop w /\
      dropConnection w r
      = firstn 2 (dropConnection w r) ++ closeAfterDrop w /\
      connectionCloses before = 0%nat /\ sleeps before = []).
Proof.
  intros H tr d. subst tr. rewrite (idle_decision_trace ep w r clk H).
  unfold idleConnection. rewrite closeAfterIdle_closeAfterDrop.
  fold d. change (resolvedIdleDuration ep) with d.
  unfold dropConnection, closeAfterDrop.
  destruct (asHijacker w) as [[|]|];
    repeat (split; [reflexivity|]);
    exists [Log Warn "Idling connection for %s %s for %v (%.1f%% idle rate)";
            Inc BackendIdledTotal (pathMethod r);
            Observe BackendIdleDuration (pathMethod r) (Seconds d)];
    repeat split.
Qed.

Definition idleMock (duration : Go.Duration) : BackendEndpoint :=
  {| be_Path := "/slow"; be_Method := "GET"; be_StatusCode := 200;
     be_Headers := []; be_Body := "OK"; be_Delay := 0;
     be_DropPercent := 0; be_IdlePercent := 100;
     be_IdleDuration := duration |}.

Lemma idle_holds_then_terminates_witness :
  let w := ConnWriter (Some true) in
  let tr := registerEndpoint (idleMock 0) w (sampleRequest "GET")
              (sampleClock 1730000000123456789) in
  increments BackendIdledTotal tr = 1%nat /\
  observations BackendIdleDuration tr = [Seconds 30000000000] /\
  sleeps tr = [30000000000] /\
  responseWrites tr = [] /\
  (exists before,
      tr = before ++ Sleep 30000000000 :: closeAfterDrop w /\
      dropConnection w (sampleRequest "GET")
      = firstn 2 (dropConnection w (sampleRequest "GET")) ++ closeAfterDrop w /\
      connectionCloses before = 0%nat /\ sleeps before = []).
Proof.
  exact (idle_holds_then_terminates (idleMock 0) (ConnWriter (Some true))
           (sampleRequest "GET") (sampleClock 1730000000123456789) eq_refl).
Defined.

(** ** The range of the draw *)

(** [drawMax] is the binary64 number nearest to 99.99. *)
Example drawMax_value : drawMax = 0x1.8ff5c28f5c28fp+6%float.
Proof. reflexivity. Qed.

(** The claim C10 as worded, at one clock reading: the draw is at least 0,
    at most 99.99 and strictly below 100. *)
Definition drawInRange (t : Z) : Prop :=
  (0 <=? draw t)%float = true /\ (draw t <=? drawMax)%float = true
  /\ (draw t <? 100)%float = true.

(** The clock reading is that of [time.Now()], which is at or after the
    Unix epoch on a machine whose clock is set.  For a reading before the
    epoch Go's [%] gives a residue below 0: at [-1] the draw is [-0.01]. *)
Example draw_before_epoch_value : draw (-1) = (-0x1.47ae147ae147bp-7)%float.
Proof. reflexivity. Qed.

(** An endpoint that passes validation with a zero percentage sum has both
    percentages zero: the fault branch is not entered at all. *)
Lemma zero_sum_noFaults (ep : BackendEndpoint) (i : nat) :
  percentError i ep = None ->
  (be_DropPercent ep + be_IdlePercent ep =? 0)%float = true ->
  faultsConfigured ep = false.
Proof.
  intros Hv Hs.
  destruct (percentError_valid ep i Hv) as [Hd [_ [Hi _]]].
  destruct (Float64.add_zero_nonneg _ _ Hd Hi Hs) as [H1 H2].
  unfold faultsConfigured. rewrite H1, H2. reflexivity.
Qed.

(** C10. For every reading [t] of a clock at or after the Unix epoch the
    draw [float64(t % 10000) / 100.0] is at least 0, at most 99.99 and
    strictly below 100.  With the endpoint's method and whatever the clock
    reads, a drop percentage of 100 makes the handler run the drop branch,
    and an endpoint that passes the percentage checks with percentages
    adding up to 0 makes it run the normal reply, which counts one request
    unless [WriteHeader] panics on a status code that is not of three
    digits. *)
Theorem draw_in_range (ep : BackendEndpoint) (w : ResponseWriter)
  (r : Request) (clk : Clock) :
  req_Method r = be_Method ep ->
  let tr := registerEndpoint ep w r clk in
  (0 <= clk_UnixNano clk -> drawInRange (clk_UnixNano clk)) /\
  (be_DropPercent ep = 100%float ->
   tr = dropConnection w r /\ decisions tr = [Drop]) /\
  (percentError 0 ep = None ->
   (be_DropPercent ep + be_IdlePercent ep =? 0)%float = true ->
   tr = normalResponse ep w r clk /\
   decisions tr = if validStatus (be_StatusCode ep) then [Respond] else []).
Proof.
  intros Hm tr. subst tr. split; [|split].
  - intros Ht. destruct (draw_nonNegative_clock _ Ht) as [H1 [H2 [H3 _]]].
    repeat split; assumption.
  - intros Hd. rewrite (drop_certain ep w r clk Hm Hd).
    split; [reflexivity | apply decisions_dropConnection].
  - intros Hv Hs. rewrite (registerEndpoint_match ep w r clk Hm).
    rewrite (createHandler_noFaults ep w r clk (zero_sum_noFaults ep 0 Hv Hs)).
    split; [reflexivity | apply decisions_normalResponse].
Qed.

Lemma draw_in_range_witness :
  (drawInRange 1730000000123459999 /\
   decisions (registerEndpoint (sampleMock 100 0) (ConnWriter (Some true))
                (sampleRequest "GET") (sampleClock 1730000000123459999))
   = [Drop]) /\
  decisions (registerEndpoint (sampleMock 0 0) (ConnWriter (Some true))
               (sampleRequest "GET") (sampleClock 1730000000123450000))
  = [Respond].
Proof.
  split; [split|].
  - apply (draw_in_range (sampleMock 100 0) (ConnWriter (Some true))
             (sampleRequest "GET") (sampleClock 1730000000123459999) eq_refl).
    simpl. lia.
  - apply (draw_in_range (sampleMock 100 0) (ConnWriter (Some true))
             (sampleRequest "GET") (sampleClock 1730000000123459999) eq_refl).
    reflexivity.
  - apply (draw_in_range (sampleMock 0 0) (ConnWriter (Some true))
             (sampleRequest "GET") (sampleClock 1730000000123450000) eq_refl);
      reflexivity.
Defined.

(** ** The retry loop *)

(** [from; from + 1; ...], [n] numbers. *)
Fixpoint countFrom (from : Z) (n : nat) : list Z :=
  match n with
  | O => []
  | S n' => from :: countFrom (from + 1) n'
  end.

Lemma countFrom_In (k from : Z) (n : nat) :
  In k (countFrom from n) <-> from <= k < from + Z.of_nat n.
Proof.
  revert from. induction n as [|n IH]; intros from; simpl.
  - lia.
  - rewrite IH. lia.
Qed.

Lemma countFrom_length (from : Z) (n : nat) :
  List.length (countFrom from n) = n.
Proof. revert from. induction n as [|n IH]; intros; simpl; auto. Qed.

Lemma wrap64_small (z : Z) : Go.int64_range z -> Go.wrap64 z = z.
Proof.
  unfold Go.int64_range, Go.wrap64, Go.two63, Go.two64. intros H.
  rewrite Z.mod_small; lia.
Qed.

Lemma wrap64_range (z : Z) : Go.int64_range (Go.wrap64 z).
Proof.
  unfold Go.int64_range, Go.wrap64, Go.two63, Go.two64.
  pose proof (Z.mod_pos_bound (z + 2 ^ 63) (2 ^ 64)). lia.
Qed.

(** The exchange completed: a response with some status was read in full. *)
Definition completed (x : Exchange) : bool :=
  match x with Completed _ _ _ _ => true | _ => false end.

(** A transport-level failure: the connection or the reading of the body. *)
Definition transportFailure (x : Exchange) : bool :=
  match x with DoFails | ReadBodyFails _ => true | _ => false end.

Lemma executions_app (a b : Trace) :
  executions (a ++ b) = executions a ++ executions b.
Proof.
  induction a as [|e rest IH]; [reflexivity|].
  destruct e; simpl; rewrite ?IH; reflexivity.
Qed.

Lemma executions_observeIfPositive (m : Metric) (name : string) (d : Z) :
  executions (observeIfPositive m name d) = [].
Proof. unfold observeIfPositive. destruct (0 <? d); reflexivity. Qed.

Lemma executions_debugIfPositive (fmt : string) (d : Z) :
  executions (debugIfPositive fmt d) = [].
Proof. unfold debugIfPositive. destruct (0 <? d); reflexivity. Qed.

Lemma executions_logs {A : Type} (lvl : Level) (fmt : string) (l : list A) :
  executions (map (fun _ => Log lvl fmt) l) = [].
Proof. induction l as [|a rest IH]; [reflexivity | exact IH]. Qed.

Lemma executions_headerLogs (hs : list (string * list string)) :
  executions
    (flat_map (fun kv => map (fun _ => Log Debug "    %s: %s") (snd kv)) hs) = [].
Proof.
  induction hs as [|kv rest IH]; [reflexivity|].
  simpl. rewrite executions_app, executions_logs, IH. reflexivity.
Qed.

Lemma sleeps_observeIfPositive (m : Metric) (name : string) (d : Z) :
  sleeps (observeIfPositive m name d) = [].
Proof. unfold observeIfPositive. destruct (0 <? d); reflexivity. Qed.

Lemma sleeps_debugIfPositive (fmt : string) (d : Z) :
  sleeps (debugIfPositive fmt d) = [].
Proof. unfold debugIfPositive. destruct (0 <? d); reflexivity. Qed.

Lemma sleeps_logs {A : Type} (lvl : Level) (fmt : string) (l : list A) :
  sleeps (map (fun _ => Log lvl fmt) l) = [].
Proof. induction l as [|a rest IH]; [reflexivity | exact IH]. Qed.

Lemma sleeps_headerLogs (hs : list (string * list string)) :
  sleeps
    (flat_map (fun kv => map (fun _ => Log Debug "    %s: %s") (snd kv)) hs) = [].
Proof.
  induction hs as [|kv rest IH]; [reflexivity|].
  simpl. rewrite sleeps_app, sleeps_logs, IH. reflexivity.
Qed.

(** One call of [executeRequest] is one execution, without a sleep; it
    returns nil exactly for a completed exchange. *)
Lemma executeRequest_effects (verbose : bool) (ep : EndpointConfig)
  (attempt : Z) (x : Exchange) :
  executions (fst (executeRequest verbose ep attempt x)) = [attempt] /\
  sleeps (fst (executeRequest verbose ep attempt x)) = [] /\
  (snd (executeRequest verbose ep attempt x) = None <-> completed x = true).
Proof.
  destruct x as [| | status | status header body tm]; simpl;
    try (repeat split; intros; discriminate).
  split; [|split; [|tauto]].
  - f_equal.
    rewrite !executions_app, !executions_observeIfPositive.
    destruct verbose; simpl; [|reflexivity].
    rewrite !executions_app, !executions_debugIfPositive. simpl.
    rewrite !executions_app, executions_headerLogs.
    destruct (0 <? String.length body)%nat; reflexivity.
  - rewrite !sleeps_app, !sleeps_observeIfPositive.
    destruct verbose; simpl; [|reflexivity].
    rewrite !sleeps_app, !sleeps_debugIfPositive. simpl.
    rewrite !sleeps_app, sleeps_headerLogs.
    destruct (0 <? String.length body)%nat; reflexivity.
Qed.

Section RetryLoop.

Variable verbose : bool.
Variable ep : EndpointConfig.
Variable net : Z -> Exchange.

Let M : Z := maxAttempts ep.

Lemma maxAttempts_range : Go.int64_range M.
Proof. apply wrap64_range. Qed.

Lemma next_attempt (a : Z) : 0 <= a -> a < M -> Go.add64 a 1 = a + 1.
Proof.
  intros H0 H1. pose proof maxAttempts_range as HM.
  unfold Go.add64. apply wrap64_small.
  unfold Go.int64_range, Go.two63 in *. lia.
Qed.

(** The loop always ends: the fuel [makeRequest] passes is enough. *)
Lemma attemptLoop_total (fuel : nat) :
  forall a, 0 <= a -> M - a <= Z.of_nat fuel ->
  exists tr, attemptLoop verbose ep net fuel a = Some tr.
Proof.
  induction fuel as [|fuel IH]; intros a Ha Hf.
  - simpl. fold M. destruct (a <? M) eqn:E; [|eexists; reflexivity].
    apply Z.ltb_lt in E. lia.
  - simpl. fold M. destruct (a <? M) eqn:E; [|eexists; reflexivity].
    apply Z.ltb_lt in E. rewrite (next_attempt a Ha E).
    destruct (executeRequest verbose ep (a + 1) (net (a + 1))) as [tr0 [err|]];
      [|eexists; reflexivity].
    destruct (IH (a + 1) ltac:(lia) ltac:(lia)) as [rest Hrest].
    rewrite Hrest. destruct (a + 1 <? M); eexists; reflexivity.
Qed.

Lemma makeRequest_total : exists tr, makeRequest verbose ep net = Some tr.
Proof. unfold makeRequest. apply attemptLoop_total; fold M; lia. Qed.

(** The attempts of a run: numbered consecutively; each one that is
    followed by another returned an error; the run stops short of the budget
    only after a completed exchange. *)
Lemma attemptLoop_executions (fuel : nat) :
  forall a tr, 0 <= a ->
  attemptLoop verbose ep net fuel a = Some tr ->
  exists n : nat,
    executions tr = countFrom (a + 1) n /\
    a + Z.of_nat n <= Z.max a M /\
    (forall k, a < k < a + Z.of_nat n -> completed (net k) = false) /\
    (a + Z.of_nat n < M ->
     (0 < n)%nat /\ completed (net (a + Z.of_nat n)) = true).
Proof.
  induction fuel as [|fuel IH]; intros a tr Ha; simpl; fold M;
    destruct (a <? M) eqn:E;
    try (intros H; injection H as <-; exists 0%nat;
         apply Z.ltb_ge in E; simpl; repeat split; try lia);
    try discriminate.
  apply Z.ltb_lt in E. rewrite (next_attempt a Ha E).
  pose proof (executeRequest_effects verbose ep (a + 1) (net (a + 1)))
    as [Hex [_ Hok]].
  destruct (executeRequest verbose ep (a + 1) (net (a + 1))) as [tr0 [err|]];
    simpl in Hex, Hok.
  - assert (Hfail : completed (net (a + 1)) = false).
    { destruct (completed (net (a + 1))); [|reflexivity].
      destruct Hok as [_ Hok]. specialize (Hok eq_refl). discriminate. }
    assert (Hrest : forall pre rest,
               attemptLoop verbose ep net fuel (a + 1) = Some rest ->
               executions pre = [a + 1] ->
               exists n : nat,
                 executions (pre ++ rest) = countFrom (a + 1) n /\
                 a + Z.of_nat n <= Z.max a M /\
                 (forall k, a < k < a + Z.of_nat n -> completed (net k) = false) /\
                 (a + Z.of_nat n < M ->
                  (0 < n)%nat /\ completed (net (a + Z.of_nat n)) = true)).
    { intros pre rest Hr Hpre.
      destruct (IH (a + 1) rest ltac:(lia) Hr) as [n [H1 [H2 [H3 H4]]]].
      exists (S n). rewrite executions_app, Hpre, H1. simpl.
      split; [reflexivity|]. split; [lia|]. split.
      - intros k Hk. destruct (Z.eq_dec k (a + 1)) as [-> | Hne];
          [exact Hfail | apply H3; lia].
      - intros Hlt.
        replace (a + Z.pos (Pos.of_succ_nat n)) with (a + 1 + Z.of_nat n) in * by lia.
        destruct (H4 Hlt) as [H5 H6]. split; [lia | exact H6]. }
    destruct (attemptLoop verbose ep net fuel (a + 1)) as [rest|] eqn:Er;
      destruct (a + 1 <? M); simpl; try discriminate;
      intros H; injection H as <-.
    + match goal with
      | |- context [?l ++ Sleep ?d :: rest] =>
          replace (l ++ Sleep d :: rest) with ((l ++ [Sleep d]) ++ rest)
            by (rewrite <- app_assoc; reflexivity)
      end.
      apply Hrest; [reflexivity|].
      rewrite !executions_app, Hex.
      destruct (1 <? a + 1); reflexivity.
    + apply Hrest; [reflexivity|].
      rewrite !executions_app, Hex.
      destruct (1 <? a + 1); reflexivity.
  - intros H; injection H as <-. exists 1%nat. rewrite Hex. simpl.
    split; [reflexivity|]. split; [lia|]. split; [intros; lia|].
    intros _. split; [lia|]. apply Hok. reflexivity.
Qed.

End RetryLoop.

Section RetryBudget.

Variable verbose : bool.
Variable ep : EndpointConfig.
Variable net : Z -> Exchange.

Let M : Z := maxAttempts ep.

Lemma failed_returns_error (k : Z) :
  completed (net k) = false ->
  exists err, snd (executeRequest verbose ep k (net k)) = Some err.
Proof.
  intros H. destruct (net k); try discriminate; eexists; reflexivity.
Qed.

(** When no exchange completes, the loop sleeps after every attempt but
    the last, for [time.Second * attempts]. *)
Lemma attemptLoop_all_fail_sleeps (fuel : nat) :
  (forall k, completed (net k) = false) ->
  forall a tr, 0 <= a ->
  attemptLoop verbose ep net fuel a = Some tr ->
  sleeps tr = map (Go.mul64 Go.Second) (countFrom (a + 1) (Z.to_nat (M - a - 1))).
Proof.
  intros Hfail.
  induction fuel as [|fuel IH]; intros a tr Ha; simpl; fold M;
    destruct (a <? M) eqn:E;
    try (intros H; injection H as <-; apply Z.ltb_ge in E;
         replace (Z.to_nat (M - a - 1)) with 0%nat by lia; reflexivity);
    try discriminate.
  apply Z.ltb_lt in E. rewrite (next_attempt ep a Ha E).
  pose proof (executeRequest_effects verbose ep (a + 1) (net (a + 1)))
    as [_ [Hsl _]].
  destruct (failed_returns_error (a + 1) (Hfail (a + 1))) as [err Herr].
  destruct (executeRequest verbose ep (a + 1) (net (a + 1))) as [tr0 res].
  simpl in Hsl, Herr. subst res.
  destruct (attemptLoop verbose ep net fuel (a + 1)) as [rest|] eqn:Er;
    destruct (a + 1 <? M) eqn:E1; simpl; try discriminate;
    intros H; injection H as <-;
    pose proof (IH (a + 1) rest ltac:(lia) Er) as Hrest.
  - apply Z.ltb_lt in E1.
    replace (Z.to_nat (M - a - 1)) with (S (Z.to_nat (M - (a + 1) - 1))) by lia.
    simpl. rewrite !sleeps_app, Hsl. simpl.
    destruct (1 <? a + 1); simpl; rewrite Hrest; reflexivity.
  - apply Z.ltb_ge in E1.
    replace (Z.to_nat (M - a - 1)) with 0%nat by lia.
    replace (Z.to_nat (M - (a + 1) - 1)) with 0%nat in Hrest by lia.
    rewrite !sleeps_app, Hsl, Hrest.
    destruct (1 <? a + 1); reflexivity.
Qed.

Lemma attemptLoop_all_fail_executions (fuel : nat) :
  (forall k, completed (net k) = false) ->
  forall a tr, 0 <= a ->
  attemptLoop verbose ep net fuel a = Some tr ->
  executions tr = countFrom (a + 1) (Z.to_nat (M - a)).
Proof.
  intros Hfail a tr Ha Htr.
  destruct (attemptLoop_executions verbose ep net fuel a tr Ha Htr)
    as [n [H1 [H2 [_ H4]]]].
  fold M in H2, H4. rewrite H1. f_equal.
  destruct (Z_lt_le_dec (a + Z.of_nat n) M) as [Hlt | Hge].
  - destruct (H4 Hlt) as [_ Hc]. rewrite Hfail in Hc. discriminate.
  - lia.
Qed.

(** An attempt that completes is the last thing the loop does. *)
Lemma attemptLoop_completed_last (fuel : nat) :
  forall a tr, 0 <= a ->
  attemptLoop verbose ep net fuel a = Some tr ->
  forall k, In k (executions tr) -> completed (net k) = true ->
  exists before, tr = before ++ fst (executeRequest verbose ep k (net k)).
Proof.
  induction fuel as [|fuel IH]; intros a tr Ha; simpl; fold M;
    destruct (a <? M) eqn:E;
    try (intros H; injection H as <-; intros k []);
    try discriminate.
  apply Z.ltb_lt in E. rewrite (next_attempt ep a Ha E).
  pose proof (executeRequest_effects verbose ep (a + 1) (net (a + 1)))
    as [Hex [_ Hok]].
  destruct (executeRequest verbose ep (a + 1) (net (a + 1))) as [tr0 [err|]]
    eqn:Eexec; simpl in Hex, Hok.
  - assert (Hfail : completed (net (a + 1)) = false).
    { destruct (completed (net (a + 1))); [|reflexivity].
      destruct Hok as [_ Hok]. specialize (Hok eq_refl). discriminate. }
    destruct (attemptLoop verbose ep net fuel (a + 1)) as [rest|] eqn:Er;
      destruct (a + 1 <? M); simpl; try discriminate;
      intros H; injection H as <-; intros k Hin Hc;
      rewrite !executions_app, Hex in Hin;
      (assert (Hk : In k (executions rest));
       [ destruct (1 <? a + 1); simpl in Hin;
         destruct Hin as [<- | Hin]; try congruence; exact Hin |]);
      destruct (IH (a + 1) rest ltac:(lia) Er k Hk Hc) as [before ->].
    + eexists. rewrite app_comm_cons, app_assoc. reflexivity.
    + eexists. rewrite app_assoc. reflexivity.
  - intros H; injection H as <-. intros k Hin Hc.
    rewrite Hex in Hin. destruct Hin as [<- | []].
    exists []. rewrite Eexec. reflexivity.
Qed.

End RetryBudget.

Lemma backoff_seconds (k : Z) :
  0 <= k <= 9223372036 -> Go.mul64 Go.Second k = k * Go.Second.
Proof.
  intros H. unfold Go.mul64. rewrite wrap64_small.
  - apply Z.mul_comm.
  - unfold Go.int64_range, Go.two63, Go.Second. lia.
Qed.

(** The claim C2 as worded, for a retry budget [N] on the trace of one
    dispatched unit: attempts 1 to N+1, delays of 1s, 2s, ..., (N-1)s. *)
Definition backoffUpToNMinus1 (N : Z) (tr : Trace) : Prop :=
  executions tr = countFrom 1 (Z.to_nat (N + 1)) /\
  sleeps tr = map (fun k => k * Go.Second) (countFrom 1 (Z.to_nat (N - 1))).

Definition sampleProbe (retries : Z) : EndpointConfig :=
  {| ec_Name := "health"; ec_URL := "http://localhost:8080/health";
     ec_Method := "GET"; ec_Headers := []; ec_Body := "";
     ec_Retries := retries; ec_RequestsPerSecond := 0 |}.

(** With two retries the loop sleeps 1s and then 2s. *)
Lemma backoff_two_retries :
  exists tr,
    makeRequest false (sampleProbe 2) (fun _ => DoFails) = Some tr /\
    executions tr = [1; 2; 3] /\
    sleeps tr = [1000000000; 2000000000] /\
    ~ backoffUpToNMinus1 2 tr.
Proof.
  eexists. split; [vm_compute; reflexivity|].
  split; [reflexivity|]. split; [reflexivity|].
  intros [_ H]. vm_compute in H. discriminate.
Qed.

(** C2 (amended). With a retry budget [N] (0 <= N <= 9223372036, so that
    the delays fit a [time.Duration]) and every attempt failing at the
    transport level, one dispatched unit makes exactly the attempts
    1, ..., N+1 and then gives up, sleeping k seconds between attempt k and
    attempt k+1: the delays are 1s, 2s, ..., Ns. *)
Theorem retries_then_gives_up (verbose : bool) (ep : EndpointConfig)
  (net : Z -> Exchange) :
  0 <= ec_Retries ep <= 9223372036 ->
  (forall k, transportFailure (net k) = true) ->
  exists tr,
    makeRequest verbose ep net = Some tr /\
    executions tr = countFrom 1 (Z.to_nat (ec_Retries ep + 1)) /\
    List.length (executions tr) = Z.to_nat (ec_Retries ep + 1) /\
    sleeps tr
    = map (fun k => k * Go.Second) (countFrom 1 (Z.to_nat (ec_Retries ep))) /\
    List.length (sleeps tr) = Z.to_nat (ec_Retries ep).
Proof.
  intros HN Hnet.
  assert (Hfail : forall k, completed (net k) = false).
  { intros k. specialize (Hnet k). destruct (net k); try discriminate; reflexivity. }
  assert (HM : maxAttempts ep = ec_Retries ep + 1).
  { unfold maxAttempts, Go.add64. apply wrap64_small.
    unfold Go.int64_range, Go.two63. lia. }
  destruct (makeRequest_total verbose ep net) as [tr Htr].
  exists tr. split; [exact Htr|]. unfold makeRequest in Htr.
  pose proof (attemptLoop_all_fail_executions verbose ep net _ Hfail 0 tr
                ltac:(lia) Htr) as Hex.
  pose proof (attemptLoop_all_fail_sleeps verbose ep net _ Hfail 0 tr
                ltac:(lia) Htr) as Hsl.
  rewrite HM in Hex, Hsl.
  replace (ec_Retries ep + 1 - 0) with (ec_Retries ep + 1) in Hex by lia.
  replace (ec_Retries ep + 1 - 0 - 1) with (ec_Retries ep) in Hsl by lia.
  simpl in Hex, Hsl.
  assert (Hsl' : sleeps tr
                 = map (fun k => k * Go.Second)
                     (countFrom 1 (Z.to_nat (ec_Retries ep)))).
  { rewrite Hsl. apply map_ext_in. intros k Hk.
    apply countFrom_In in Hk. apply backoff_seconds. lia. }
  split; [exact Hex|]. split; [rewrite Hex; apply countFrom_length|].
  split; [exact Hsl'|]. rewrite Hsl', length_map. apply countFrom_length.
Qed.

Lemma retries_then_gives_up_witness :
  exists tr,
    makeRequest true (sampleProbe 3) (fun k => if k =? 2 then ReadBodyFails 200 else DoFails)
    = Some tr /\
    executions tr = [1; 2; 3; 4] /\
    List.length (executions tr) = 4%nat /\
    sleeps tr = [1000000000; 2000000000; 3000000000] /\
    List.length (sleeps tr) = 3%nat.
Proof.
  apply (retries_then_gives_up true (sampleProbe 3)
           (fun k => if k =? 2 then ReadBodyFails 200 else DoFails)).
  - simpl. lia.
  - intros k. destruct (k =? 2); reflexivity.
Defined.

(** ** What ends the loop and what retries *)

(** The claim C4 as worded, on the trace of one dispatched unit: no attempt
    follows a completed exchange, and an attempt is followed by another only
    after a transport-level failure. *)
Definition retriesOnlyTransportFailures (net : Z -> Exchange) (tr : Trace)
  : Prop :=
  (forall k, In k (executions tr) -> completed (net k) = true ->
             ~ In (k + 1) (executions tr)) /\
  (forall k, In k (executions tr) -> In (k + 1) (executions tr) ->
             transportFailure (net k) = true).

(** A request that cannot be built ([http.NewRequestWithContext] fails, as
    for a method with a space or a URL that does not parse) is an error of
    [executeRequest] like the others, and is retried. *)
Lemma request_construction_failure_retried :
  exists tr,
    makeRequest false (sampleProbe 1) (fun _ => NewRequestFails) = Some tr /\
    executions tr = [1; 2] /\
    sleeps tr = [1000000000] /\
    ~ retriesOnlyTransportFailures (fun _ => NewRequestFails) tr.
Proof.
  eexists. split; [vm_compute; reflexivity|].
  split; [reflexivity|]. split; [reflexivity|].
  intros [_ H]. specialize (H 1). simpl in H.
  assert (Hf : false = true) by (apply H; auto).
  discriminate.
Qed.

(** C4 (amended). The loop of one dispatched unit always ends.  An attempt
    whose exchange completes, whatever the status code, is the last thing the
    loop does: no attempt, log or sleep follows it.  An attempt k is
    followed by attempt k+1 exactly when [executeRequest] returned an error
    for it (the request could not be built, the connection failed, or the
    body could not be read) and k is below the attempt budget. *)
Theorem completed_ends_error_retries (verbose : bool) (ep : EndpointConfig)
  (net : Z -> Exchange) :
  exists tr,
    makeRequest verbose ep net = Some tr /\
    (forall k, In k (executions tr) -> completed (net k) = true ->
       ~ In (k + 1) (executions tr) /\
       exists before, tr = before ++ fst (executeRequest verbose ep k (net k))) /\
    (forall k, In k (executions tr) ->
       (In (k + 1) (executions tr) <->
        (exists err, snd (executeRequest verbose ep k (net k)) = Some err) /\
        k < maxAttempts ep)).
Proof.
  destruct (makeRequest_total verbose ep net) as [tr Htr].
  exists tr. split; [exact Htr|]. unfold makeRequest in Htr.
  destruct (attemptLoop_executions verbose ep net _ 0 tr ltac:(lia) Htr)
    as [n [H1 [H2 [H3 H4]]]].
  rewrite H1. simpl Z.add in *. split.
  - intros k Hin Hc. split.
    + rewrite countFrom_In in *. intros Hnext.
      rewrite (H3 k) in Hc by lia. discriminate.
    + apply (attemptLoop_completed_last verbose ep net _ 0 tr ltac:(lia) Htr);
        [rewrite H1; exact Hin | exact Hc].
  - intros k Hin. rewrite countFrom_In in *. split.
    + intros Hnext. split; [|lia].
      apply failed_returns_error. apply H3. lia.
    + intros [[err Herr] Hlt].
      assert (Hf : completed (net k) = false).
      { destruct (net k); try reflexivity; discriminate. }
      destruct (Z_lt_le_dec k (Z.of_nat n)) as [Hk | Hk]; [lia|].
      assert (Hkn : k = Z.of_nat n) by lia.
      destruct (H4 ltac:(lia)) as [_ Hc].
      rewrite <- Hkn in Hc. congruence.
Qed.

(** A completed exchange with status 503 on the second attempt: the loop
    stops there although two more attempts were in the budget. *)
Example status_503_is_success :
  let net := fun k => if k =? 2
                      then Completed 503 [] "unavailable"
                             {| t_dns := 0; t_connect := 0; t_tls := 0;
                                t_ttfb := 1500000; t_total := 2000000 |}
                      else DoFails in
  option_map executions (makeRequest false (sampleProbe 3) net) = Some [1; 2] /\
  option_map sleeps (makeRequest false (sampleProbe 3) net) = Some [1000000000] /\
  option_map (increments ClientRetries) (makeRequest false (sampleProbe 3) net)
  = Some 0%nat.
Proof. repeat split. Qed.

(** ** The scheduling stream *)

(** The ticks a run of the loop receives: those before the context is done. *)
Fixpoint ticksBeforeDone (sel : list Select) : nat :=
  match sel with
  | SelTick :: rest => S (ticksBeforeDone rest)
  | _ => O
  end.

Lemma tickLoop_launches (cfg : ClientConfig) (sel : list Select) :
  launches (fst (tickLoop cfg sel)) = ticksBeforeDone sel /\
  ticks (fst (tickLoop cfg sel)) = ticksBeforeDone sel.
Proof.
  induction sel as [|[|] rest [IH1 IH2]]; simpl; auto.
  destruct (tickLoop cfg rest) as [tr o]. simpl in *.
  unfold launches, ticks in *. simpl. auto.
Qed.

Lemma tickLoop_follow (cfg : ClientConfig) (sel : list Select) :
  forall prev, launchesFollowTicks prev (fst (tickLoop cfg sel)) = true.
Proof.
  induction sel as [|[|] rest IH]; intros prev; simpl; auto.
  specialize (IH (Some (Launch (gated cfg)))).
  destruct (tickLoop cfg rest) as [tr o]. simpl in *. exact IH.
Qed.

(** The periods of 2 and of 3 requests per second, in nanoseconds. *)
Example rateInterval_2 : rateInterval 0 2 = 500000000.
Proof. reflexivity. Qed.

Example rateInterval_3 : rateInterval 0 3 = 333333333.
Proof. reflexivity. Qed.

(** The claim C5 as worded, for one endpoint: with a positive rate every
    launch follows a tick and none happens at start; otherwise one launch
    happens at start and one more on every tick. *)
Definition schedulesAsSpecified (impl : Z) (cfg : ClientConfig)
  (ep : EndpointConfig) : Prop :=
  forall sel,
    let tr := fst (runEndpoint impl cfg ep sel) in
    if rateLimited ep
    then launchesFollowTicks None tr = true /\ launches tr = ticks tr
    else launches tr = S (ticks tr).

Definition sampleClient (interval : Go.Duration) (maxConcurrent : Z)
  : ClientConfig :=
  {| cc_Endpoints := [sampleProbe 2]; cc_Timeout := 5 * Go.Second;
     cc_Interval := interval; cc_MaxConcurrentRequests := maxConcurrent |}.

(** A client section without [interval] (the zero duration) and an endpoint
    without a rate: [time.NewTicker] panics before the first launch. *)
Lemma no_interval_no_dispatch :
  runEndpoint 0 (sampleClient 0 0) (sampleProbe 2) [SelTick; SelTick]
  = ([], Panics) /\
  ~ schedulesAsSpecified 0 (sampleClient 0 0) (sampleProbe 2).
Proof.
  split; [reflexivity|].
  intros H. specialize (H [SelTick; SelTick]). simpl in H. discriminate.
Qed.

(** C5 (amended). With a positive rate the stream launches nothing at
    start and launches once right after each tick it receives, at no other
    time; its ticker has the period [Duration(float64(Second) / rate)].
    Otherwise, when the shared interval is positive, its ticker has that
    interval, it launches once at start before any tick, and once more
    right after each tick it receives. *)
Theorem scheduling_modes (impl : Z) (cfg : ClientConfig) (ep : EndpointConfig)
  (sel : list Select) :
  (rateLimited ep = true ->
   let tr := fst (runEndpoint impl cfg ep sel) in
   launchesFollowTicks None tr = true /\
   launches tr = ticks tr /\
   launches (fst (runEndpoint impl cfg ep [])) = 0%nat /\
   (snd (runEndpoint impl cfg ep sel) <> Panics ->
    exists fmt,
      tr = NewTicker (rateInterval impl (ec_RequestsPerSecond ep))
           :: Log Info fmt :: fst (tickLoop cfg sel) /\
      launches tr = ticksBeforeDone sel)) /\
  (rateLimited ep = false ->
   0 < cc_Interval cfg ->
   let tr := fst (runEndpoint impl cfg ep sel) in
   (exists fmt,
      tr = NewTicker (cc_Interval cfg) :: Log Info fmt
           :: Launch (gated cfg) :: fst (tickLoop cfg sel)) /\
   launchesFollowTicks (Some RecvTick) (fst (tickLoop cfg sel)) = true /\
   launches tr = S (ticks tr) /\
   ticks tr = ticksBeforeDone sel /\
   launches (fst (runEndpoint impl cfg ep [])) = 1%nat).
Proof.
  destruct (tickLoop_launches cfg sel) as [HL HT].
  pose proof (tickLoop_follow cfg sel) as HF.
  split.
  - intros Hr. unfold runEndpoint. rewrite Hr.
    destruct (rateInterval impl (ec_RequestsPerSecond ep) <=? 0).
    + simpl. repeat split; try reflexivity. intros H. congruence.
    + simpl. destruct (tickLoop cfg sel) as [tr o]. simpl in *.
      split; [apply (HF (Some (Log Info _)))|].
      split; [unfold launches, ticks in *; simpl; congruence|].
      split; [reflexivity|].
      intros _. eexists. split; [reflexivity|].
      unfold launches in *. simpl. exact HL.
  - intros Hr Hi. unfold runEndpoint. rewrite Hr.
    assert (E : (cc_Interval cfg <=? 0) = false) by (apply Z.leb_gt; exact Hi).
    rewrite E. simpl. destruct (tickLoop cfg sel) as [tr o]. simpl in *.
    split; [eexists; reflexivity|].
    split; [apply HF|].
    unfold launches, ticks in *. simpl.
    split; [congruence|]. split; [exact HT | reflexivity].
Qed.

Lemma scheduling_modes_witness :
  (let tr := fst (runEndpoint 0 (sampleClient 0 2)
                    {| ec_Name := "fast"; ec_URL := "http://localhost:8080/";
                       ec_Method := "GET"; ec_Headers := []; ec_Body := "";
                       ec_Retries := 0; ec_RequestsPerSecond := 4 |}
                    [SelTick; SelTick; SelDone; SelTick]) in
   tr = [NewTicker 250000000;
         Log Info "Endpoint [%s] configured for %.2f requests/second (max %d concurrent)";
         RecvTick; Launch true; RecvTick; Launch true; RecvDone; TickerStop] /\
   launches tr = 2%nat) /\
  (let tr := fst (runEndpoint 0 (sampleClient 5000000000 0) (sampleProbe 2)
                    [SelTick; SelTick; SelDone; SelTick]) in
   tr = [NewTicker 5000000000;
         Log Info "Endpoint [%s] configured with interval %v (unlimited concurrent)";
         Launch false;
         RecvTick; Launch false; RecvTick; Launch false; RecvDone; TickerStop] /\
   launches tr = 3%nat).
Proof.
  split.
  - destruct (proj1 (scheduling_modes 0 (sampleClient 0 2)
                       {| ec_Name := "fast"; ec_URL := "http://localhost:8080/";
                          ec_Method := "GET"; ec_Headers := []; ec_Body := "";
                          ec_Retries := 0; ec_RequestsPerSecond := 4 |}
                       [SelTick; SelTick; SelDone; SelTick]) eq_refl)
      as [_ [_ [_ H]]].
    destruct (H ltac:(discriminate)) as [fmt [H1 H2]].
    split; [reflexivity | exact H2].
  - destruct (proj2 (scheduling_modes 0 (sampleClient 5000000000 0) (sampleProbe 2)
                       [SelTick; SelTick; SelDone; SelTick]) eq_refl eq_refl)
      as [_ [_ [H1 [H2 _]]]].
    split; [reflexivity|]. rewrite H1, H2. reflexivity.
Defined.

(** ** The concurrency gate *)

Module LimiterFacts.
Import Limiter.

Definition b2z (b : bool) : Z := if b then 1 else 0.

Lemma count_app (p : Goroutine -> bool) (gs : list Goroutine) (g : Goroutine) :
  count p (gs ++ [g]) = count p gs + b2z (p g).
Proof.
  unfold count. rewrite filter_app, length_app. cbn [filter].
  destruct (p g); cbn [List.length b2z]; lia.
Qed.

Lemma count_update (p : Goroutine -> bool) (gs : list Goroutine) :
  forall i old new,
    nth_error gs i = Some old ->
    count p (update i new gs) = count p gs - b2z (p old) + b2z (p new).
Proof.
  unfold count.
  induction gs as [|g rest IH]; intros [|i] old new H; simpl in H;
    try discriminate.
  - injection H as ->. cbn [update filter].
    destruct (p old), (p new); cbn [List.length b2z]; lia.
  - cbn [update filter]. specialize (IH i old new H).
    destruct (p g); cbn [List.length]; lia.
Qed.

Lemma count_nonneg (p : Goroutine -> bool) (gs : list Goroutine) :
  0 <= count p gs.
Proof. unfold count. lia. Qed.

Lemma count_le (p q : Goroutine -> bool) (gs : list Goroutine) :
  (forall g, p g = true -> q g = true) -> count p gs <= count q gs.
Proof.
  intros H. unfold count. induction gs as [|g rest IH]; cbn [filter]; [lia|].
  destruct (p g) eqn:E.
  - rewrite (H g E). cbn [List.length]. lia.
  - destruct (q g); cbn [List.length]; lia.
Qed.

Definition usesSemaphore (g : Goroutine) : bool :=
  match g with Acquiring | InFlight true | Releasing => true | _ => false end.

(** What holds in every state the goroutines of one endpoint can reach:
    the channel buffers one element for each goroutine between its send and
    its receive; with a semaphore its length never exceeds the maximum and
    no goroutine runs outside the gate; without one no goroutine ever
    touches a channel. *)
Definition invariant (maxConcurrent : Z) (s : State) : Prop :=
  buffered s = count holdsSlot (goroutines s) /\
  (0 < maxConcurrent ->
   buffered s <= maxConcurrent /\ count isUngated (goroutines s) = 0) /\
  (maxConcurrent <= 0 -> count usesSemaphore (goroutines s) = 0).

Lemma invariant_initial (K : Z) : invariant K initial.
Proof. unfold invariant, initial, count. simpl. lia. Qed.

Ltac gate_simpl :=
  cbn [b2z holdsSlot isUngated usesSemaphore isInFlight buffered goroutines] in *.

(** The counts after goroutine [i] moved from [old] to [new]. *)
Ltac updated_counts gs i old new En :=
  pose proof (count_nonneg holdsSlot (update i new gs));
  pose proof (count_nonneg isUngated (update i new gs));
  pose proof (count_nonneg usesSemaphore (update i new gs));
  rewrite !(count_update _ gs i old new En) in *;
  gate_simpl.

Lemma invariant_step (K : Z) (s s' : State) (a : Step) :
  invariant K s -> step K s a = Some s' -> invariant K s'.
Proof.
  unfold invariant. intros [Hb [Hpos Hzero]].
  destruct a as [|i|i|i]; cbn [step].
  - intros H. injection H as <-. gate_simpl.
    rewrite !count_app. unfold hasSemaphore.
    destruct (0 <? K) eqn:E; gate_simpl.
    + apply Z.ltb_lt in E. specialize (Hpos E). lia.
    + apply Z.ltb_ge in E. specialize (Hzero E). lia.
  - destruct (nth_error (goroutines s) i) as [[| | |]|] eqn:En; try discriminate.
    destruct (buffered s <? K) eqn:E; try discriminate.
    apply Z.ltb_lt in E.
    intros H. injection H as <-. gate_simpl.
    updated_counts (goroutines s) i Acquiring (InFlight true) En.
    split; [lia|]. split; [intros HK; specialize (Hpos HK); lia|].
    intros HK. specialize (Hzero HK). lia.
  - destruct (nth_error (goroutines s) i) as [[|[|]| |]|] eqn:En;
      try discriminate; intros H; injection H as <-; gate_simpl.
    + updated_counts (goroutines s) i (InFlight true) Releasing En.
      split; [lia|]. split; [intros HK; specialize (Hpos HK); lia|].
      intros HK. specialize (Hzero HK). lia.
    + updated_counts (goroutines s) i (InFlight false) Finished En.
      split; [lia|]. split; [intros HK; specialize (Hpos HK); lia|].
      intros HK. specialize (Hzero HK). lia.
  - destruct (nth_error (goroutines s) i) as [[| | |]|] eqn:En; try discriminate.
    destruct (0 <? buffered s) eqn:E; try discriminate.
    intros H. injection H as <-. gate_simpl.
    updated_counts (goroutines s) i Releasing Finished En.
    split; [lia|]. split; [intros HK; specialize (Hpos HK); lia|].
    intros HK. specialize (Hzero HK). lia.
Qed.

Lemma invariant_run (K : Z) (steps : list Step) :
  forall s s', invariant K s -> run K s steps = Some s' -> invariant K s'.
Proof.
  induction steps as [|a rest IH]; intros s s' Hs; simpl.
  - intros H. injection H as <-. exact Hs.
  - destruct (step K s a) as [s1|] eqn:E; [|discriminate].
    apply IH. exact (invariant_step K s s1 a Hs E).
Qed.

Lemma inFlight_split (gs : list Goroutine) :
  count isInFlight gs <= count holdsSlot gs + count isUngated gs.
Proof.
  unfold count. induction gs as [|g rest IH]; [cbn; lia|].
  destruct g as [|[|]| |];
    cbn [filter isInFlight holdsSlot isUngated List.length]; lia.
Qed.

Lemma midFlight_gated (K : Z) (s : State) :
  invariant K s -> 0 < K -> midFlight s <= buffered s.
Proof.
  intros [Hb [Hpos _]] HK. destruct (Hpos HK) as [_ Hu].
  unfold midFlight. rewrite Hb.
  pose proof (inFlight_split (goroutines s)). lia.
Qed.

(** A receive that a goroutine has reached never blocks: the buffer holds
    the element the goroutine itself sent. *)
Lemma receive_enabled (K : Z) (s : State) (i : nat) :
  invariant K s -> nth_error (goroutines s) i = Some Releasing ->
  step K s (Receive i) <> None.
Proof.
  intros [Hb _] En. cbn [step]. rewrite En.
  assert (H : 0 < count holdsSlot (goroutines s)).
  { pose proof (count_update holdsSlot (goroutines s) i Releasing Finished En)
      as Hu. gate_simpl.
    pose proof (count_nonneg holdsSlot (update i Finished (goroutines s))). lia. }
  rewrite <- Hb in H. apply Z.ltb_lt in H. rewrite H. discriminate.
Qed.

End LimiterFacts.

(** C8. In every state the goroutines of one endpoint reach: with a
    configured maximum K > 0 at most K executions are mid-flight; a
    dispatched unit cannot pass its send while K slots are taken and can as
    soon as fewer are, and the receive that frees a slot never blocks; the
    scheduler's launch is always possible and leaves the gate's state
    alone.  With a maximum of zero (or less) no semaphore exists: a launched
    unit is mid-flight at once and no unit ever waits. *)
Theorem limiter_bounds_in_flight (K : Z) (steps : list Limiter.Step)
  (s : Limiter.State) :
  Limiter.run K Limiter.initial steps = Some s ->
  (0 < K ->
   Limiter.midFlight s <= K /\
   0 <= Limiter.buffered s <= K /\
   (forall i, Limiter.buffered s = K -> Limiter.step K s (Limiter.Send i) = None) /\
   (forall i, nth_error (Limiter.goroutines s) i = Some Limiter.Acquiring ->
              Limiter.buffered s < K ->
              exists s', Limiter.step K s (Limiter.Send i) = Some s' /\
                         nth_error (Limiter.goroutines s') i
                         = Some (Limiter.InFlight true)) /\
   (forall i, nth_error (Limiter.goroutines s) i = Some Limiter.Releasing ->
              exists s', Limiter.step K s (Limiter.Receive i) = Some s' /\
                         Limiter.buffered s' = Limiter.buffered s - 1)) /\
  (exists s', Limiter.step K s Limiter.Dispatch = Some s' /\
              Limiter.buffered s' = Limiter.buffered s /\
              Limiter.midFlight s <= Limiter.midFlight s') /\
  (K <= 0 ->
   Limiter.hasSemaphore K = false /\
   Limiter.count LimiterFacts.usesSemaphore (Limiter.goroutines s) = 0 /\
   exists s', Limiter.step K s Limiter.Dispatch = Some s' /\
              Limiter.midFlight s' = Limiter.midFlight s + 1).
Proof.
  intros Hrun.
  pose proof (LimiterFacts.invariant_run K steps _ s
                (LimiterFacts.invariant_initial K) Hrun) as Hinv.
  split; [|split].
  - intros HK.
    pose proof (LimiterFacts.midFlight_gated K s Hinv HK) as Hmid.
    destruct Hinv as [Hb [Hpos Hzero]]. destruct (Hpos HK) as [Hle Hu].
    pose proof (LimiterFacts.count_nonneg Limiter.holdsSlot (Limiter.goroutines s)).
    split; [lia|]. split; [lia|]. split; [|split].
    + intros i Hfull. simpl.
      destruct (nth_error (Limiter.goroutines s) i) as [[| | |]|]; try reflexivity.
      rewrite Hfull, Z.ltb_irrefl. reflexivity.
    + intros i En Hfree. simpl. rewrite En.
      apply Z.ltb_lt in Hfree. rewrite Hfree. eexists. split; [reflexivity|].
      simpl. clear - En. revert i En.
      induction (Limiter.goroutines s) as [|g rest IH]; intros [|i] En;
        simpl in *; try discriminate; auto.
    + intros i En.
      pose proof (LimiterFacts.receive_enabled K s i
                    (conj Hb (conj Hpos Hzero)) En) as Hen.
      simpl in *. rewrite En in *.
      destruct (0 <? Limiter.buffered s); [|congruence].
      eexists. split; reflexivity.
  - eexists. split; [reflexivity|]. simpl. split; [reflexivity|].
    unfold Limiter.midFlight. simpl. rewrite LimiterFacts.count_app.
    destruct (Limiter.isInFlight _); simpl; lia.
  - intros HK. destruct Hinv as [_ [_ Hzero]].
    assert (Hs : Limiter.hasSemaphore K = false).
    { unfold Limiter.hasSemaphore. apply Z.ltb_ge. exact HK. }
    split; [exact Hs|]. split; [exact (Hzero HK)|].
    eexists. split; [reflexivity|].
    unfold Limiter.midFlight. simpl. rewrite LimiterFacts.count_app, Hs.
    reflexivity.
Qed.

Lemma limiter_bounds_in_flight_witness :
  exists s,
    Limiter.run 2 Limiter.initial
      [Limiter.Dispatch; Limiter.Dispatch; Limiter.Dispatch;
       Limiter.Send 0; Limiter.Send 2] = Some s /\
    Limiter.midFlight s = 2 /\
    Limiter.step 2 s (Limiter.Send 1) = None /\
    Limiter.midFlight s <= 2.
Proof.
  eexists. split; [reflexivity|]. split; [reflexivity|]. split; [reflexivity|].
  apply (limiter_bounds_in_flight 2
           [Limiter.Dispatch; Limiter.Dispatch; Limiter.Dispatch;
            Limiter.Send 0; Limiter.Send 2] _ eq_refl).
  reflexivity.
Defined.

(** Without a maximum, any number of executions is mid-flight together. *)
Example unlimited_three_in_flight :
  option_map Limiter.midFlight
    (Limiter.run 0 Limiter.initial
       [Limiter.Dispatch; Limiter.Dispatch; Limiter.Dispatch]) = Some 3.
Proof. reflexivity. Qed.

(** A blocked unit proceeds once another one has released its slot. *)
Example blocked_until_release :
  let blocked := Limiter.run 1 Limiter.initial
                   [Limiter.Dispatch; Limiter.Dispatch; Limiter.Send 0] in
  option_map (fun s => Limiter.step 1 s (Limiter.Send 1)) blocked = Some None /\
  option_map Limiter.midFlight
    (Limiter.run 1 Limiter.initial
       [Limiter.Dispatch; Limiter.Dispatch; Limiter.Send 0;
        Limiter.Dispatch; Limiter.Return 0; Limiter.Receive 0; Limiter.Send 1])
  = Some 1.
Proof. split; reflexivity. Qed.

(** * Further properties of the code *)

(** ** What validation leaves behind *)

(** The defaults [validateConfig] writes into one client endpoint and one
    backend endpoint. *)
Definition clientDefaults (ep : EndpointConfig) : EndpointConfig :=
  if String.eqb (ec_Method ep) "" then set_ec_Method "GET" ep else ep.

Definition backendDefaults (ep : BackendEndpoint) : BackendEndpoint :=
  let e1 := if String.eqb (be_Method ep) "" then set_be_Method "GET" ep else ep in
  let e2 := if be_StatusCode ep =? 0 then set_be_StatusCode 200 e1 else e1 in
  if (0 <? be_IdlePercent ep)%float && (be_IdleDuration ep =? 0)
  then set_be_IdleDuration (30 * Go.Second) e2
  else e2.

Definition percentsOk (ep : BackendEndpoint) : bool :=
  negb ((be_DropPercent ep <? 0)%float || (100 <? be_DropPercent ep)%float)
  && negb ((be_IdlePercent ep <? 0)%float || (100 <? be_IdlePercent ep)%float)
  && negb (100 <? be_DropPercent ep + be_IdlePercent ep)%float.

Lemma percentError_percentsOk (i : nat) (ep : BackendEndpoint) :
  percentError i ep = None <-> percentsOk ep = true.
Proof.
  unfold percentError, percentsOk.
  destruct ((be_DropPercent ep <? 0)%float || (100 <? be_DropPercent ep)%float)%bool;
    simpl; [split; discriminate|].
  destruct ((be_IdlePercent ep <? 0)%float || (100 <? be_IdlePercent ep)%float)%bool;
    simpl; [split; discriminate|].
  destruct (100 <? be_DropPercent ep + be_IdlePercent ep)%float; simpl;
    split; try discriminate; reflexivity.
Qed.

Lemma percentsOk_defaults (ep : BackendEndpoint) :
  percentsOk (backendDefaults ep) = percentsOk ep.
Proof.
  unfold backendDefaults, percentsOk.
  destruct (String.eqb (be_Method ep) ""), (be_StatusCode ep =? 0),
    ((0 <? be_IdlePercent ep)%float && (be_IdleDuration ep =? 0))%bool;
    reflexivity.
Qed.

Lemma validateClientEndpoint_inr (i : nat) (ep ep' : EndpointConfig) :
  validateClientEndpoint i ep = inr ep' <->
  String.eqb (ec_URL ep) "" = false /\ ep' = clientDefaults ep.
Proof.
  unfold validateClientEndpoint, clientDefaults.
  destruct (String.eqb (ec_URL ep) "").
  - split; [discriminate | intros [H _]; discriminate].
  - destruct (String.eqb (ec_Method ep) ""); split;
      try (intros H; injection H as <-; auto);
      intros [_ ->]; reflexivity.
Qed.

Lemma validateBackendEndpoint_inr (i : nat) (ep ep' : BackendEndpoint) :
  validateBackendEndpoint i ep = inr ep' <->
  String.eqb (be_Path ep) "" = false /\ percentsOk ep = true /\
  ep' = backendDefaults ep.
Proof.
  unfold validateBackendEndpoint.
  destruct (String.eqb (be_Path ep) "").
  - split; [discriminate | intros [H _]; discriminate].
  - destruct (percentError i ep) eqn:E.
    + split; [discriminate|]. intros [_ [H _]].
      apply (percentError_percentsOk i) in H. congruence.
    + apply percentError_percentsOk in E. unfold backendDefaults. split.
      * intros H. injection H as <-. auto.
      * intros [_ [_ ->]]. reflexivity.
Qed.

(** The two loops: they succeed exactly when every element passes, and
    then leave the defaults of every element, in place. *)
Lemma validateClientEndpoints_inr (eps : list EndpointConfig) :
  forall i eps',
    validateClientEndpoints i eps = inr eps' <->
    forallb (fun ep => negb (String.eqb (ec_URL ep) "")) eps = true /\
    eps' = map clientDefaults eps.
Proof.
  induction eps as [|ep rest IH]; intros i eps'; simpl.
  - split; [intros H; injection H as <-; auto | intros [_ ->]; reflexivity].
  - destruct (validateClientEndpoint i ep) as [e | ep1] eqn:E.
    + split; [discriminate|]. intros [H _].
      apply andb_true_iff in H. destruct H as [H _].
      apply negb_true_iff in H.
      assert (X : validateClientEndpoint i ep = inr (clientDefaults ep))
        by (apply validateClientEndpoint_inr; auto).
      congruence.
    + apply validateClientEndpoint_inr in E. destruct E as [E ->].
      rewrite E. simpl.
      destruct (validateClientEndpoints (S i) rest) as [e | rest1] eqn:Er.
      * split; [discriminate|]. intros [H _].
        assert (X : validateClientEndpoints (S i) rest = inr (map clientDefaults rest))
          by (apply IH; auto).
        congruence.
      * apply IH in Er. destruct Er as [Er ->]. rewrite Er.
        split; [intros H; injection H as <-; auto | intros [_ ->]; reflexivity].
Qed.

Lemma validateBackendEndpoints_inr (eps : list BackendEndpoint) :
  forall i eps',
    validateBackendEndpoints i eps = inr eps' <->
    forallb (fun ep => negb (String.eqb (be_Path ep) "") && percentsOk ep) eps
    = true /\
    eps' = map backendDefaults eps.
Proof.
  induction eps as [|ep rest IH]; intros i eps'; simpl.
  - split; [intros H; injection H as <-; auto | intros [_ ->]; reflexivity].
  - destruct (validateBackendEndpoint i ep) as [e | ep1] eqn:E.
    + split; [discriminate|]. intros [H _].
      apply andb_true_iff in H. destruct H as [H _].
      apply andb_true_iff in H. destruct H as [H1 H2].
      apply negb_true_iff in H1.
      assert (X : validateBackendEndpoint i ep = inr (backendDefaults ep))
        by (apply validateBackendEndpoint_inr; auto).
      congruence.
    + apply validateBackendEndpoint_inr in E. destruct E as [E1 [E2 ->]].
      rewrite E1, E2. simpl.
      destruct (validateBackendEndpoints (S i) rest) as [e | rest1] eqn:Er.
      * split; [discriminate|]. intros [H _].
        assert (X : validateBackendEndpoints (S i) rest
                    = inr (map backendDefaults rest))
          by (apply IH; auto).
        congruence.
      * apply IH in Er. destruct Er as [Er ->]. rewrite Er.
        split; [intros H; injection H as <-; auto | intros [_ ->]; reflexivity].
Qed.

Definition isEmpty {A : Type} (l : list A) : bool :=
  match l with [] => true | _ => false end.

(** What [validateConfig] requires of each section, as one test. *)
Definition clientSectionOk (c : Config) : bool :=
  if typeIn (cfg_Type c) "client" "both" then
    match cfg_Client c with
    | Some cl =>
        negb (isEmpty (cc_Endpoints cl))
        && forallb (fun ep => negb (String.eqb (ec_URL ep) "")) (cc_Endpoints cl)
    | None => false
    end
  else true.

Definition backendSectionOk (c : Config) : bool :=
  if typeIn (cfg_Type c) "backend" "both" then
    match cfg_Backend c with
    | Some b =>
        negb (isEmpty (bc_Endpoints b))
        && forallb (fun ep => negb (String.eqb (be_Path ep) "") && percentsOk ep)
             (bc_Endpoints b)
    | None => false
    end
  else true.

Definition typeOk (c : Config) : bool :=
  String.eqb (cfg_Type c) "client" || String.eqb (cfg_Type c) "backend"
  || String.eqb (cfg_Type c) "both".

Definition acceptable (c : Config) : bool :=
  typeOk c && clientSectionOk c && backendSectionOk c.

(** The configuration [validateConfig] leaves behind when it accepts. *)
Definition clientAfter (c : Config) : option ClientConfig :=
  if typeIn (cfg_Type c) "client" "both" then
    option_map
      (fun cl => {| cc_Endpoints := map clientDefaults (cc_Endpoints cl);
                    cc_Timeout := cc_Timeout cl;
                    cc_Interval := cc_Interval cl;
                    cc_MaxConcurrentRequests := cc_MaxConcurrentRequests cl |})
      (cfg_Client c)
  else cfg_Client c.

Definition backendAfter (c : Config) : option BackendConfig :=
  if typeIn (cfg_Type c) "backend" "both" then
    option_map
      (fun b => {| bc_Port := if bc_Port b =? 0 then 8080 else bc_Port b;
                   bc_Endpoints := map backendDefaults (bc_Endpoints b) |})
      (cfg_Backend c)
  else cfg_Backend c.

Definition loggingAfter (c : Config) : LoggingConfig :=
  if String.eqb (lc_Level (cfg_Logging c)) ""
  then {| lc_Level := "info"; lc_Verbose := lc_Verbose (cfg_Logging c) |}
  else cfg_Logging c.

Definition withDefaults (c : Config) : Config :=
  {| cfg_Type := cfg_Type c; cfg_Client := clientAfter c;
     cfg_Backend := backendAfter c; cfg_Logging := loggingAfter c |}.

Lemma validateClient_inr (c : Config) (cl' : option ClientConfig) :
  validateClient c = inr cl' <->
  clientSectionOk c = true /\ cl' = clientAfter c.
Proof.
  unfold validateClient, clientSectionOk, clientAfter.
  destruct (typeIn (cfg_Type c) "client" "both").
  - destruct (cfg_Client c) as [cl|]; cbn [option_map];
      [|split; [discriminate | intros [H _]; discriminate]].
    destruct (cc_Endpoints cl) as [|ep rest] eqn:Ee; cbn [isEmpty negb andb];
      [split; [discriminate | intros [H _]; discriminate]|].
    destruct (validateClientEndpoints 0 (ep :: rest)) as [e | eps'] eqn:E.
    + split; [discriminate|]. intros [H _].
      assert (X : validateClientEndpoints 0 (ep :: rest)
                  = inr (map clientDefaults (ep :: rest)))
        by (apply validateClientEndpoints_inr; auto).
      congruence.
    + apply validateClientEndpoints_inr in E. destruct E as [E ->].
      rewrite E.
      split; [intros H; injection H as <-; auto | intros [_ ->]; reflexivity].
  - split; [intros H; injection H as <-; auto | intros [_ ->]; reflexivity].
Qed.

Lemma validateBackend_inr (c : Config) (b' : option BackendConfig) :
  validateBackend c = inr b' <->
  backendSectionOk c = true /\ b' = backendAfter c.
Proof.
  unfold validateBackend, backendSectionOk, backendAfter.
  destruct (typeIn (cfg_Type c) "backend" "both").
  - destruct (cfg_Backend c) as [b|]; cbn [option_map];
      [|split; [discriminate | intros [H _]; discriminate]].
    destruct (bc_Endpoints b) as [|ep rest] eqn:Ee; cbn [isEmpty negb andb];
      [split; [discriminate | intros [H _]; discriminate]|].
    destruct (validateBackendEndpoints 0 (ep :: rest)) as [e | eps'] eqn:E.
    + split; [discriminate|]. intros [H _].
      assert (X : validateBackendEndpoints 0 (ep :: rest)
                  = inr (map backendDefaults (ep :: rest)))
        by (apply validateBackendEndpoints_inr; auto).
      congruence.
    + apply validateBackendEndpoints_inr in E. destruct E as [E ->].
      rewrite E.
      split; [intros H; injection H as <-; auto | intros [_ ->]; reflexivity].
  - split; [intros H; injection H as <-; auto | intros [_ ->]; reflexivity].
Qed.

(** X1. [validateConfig] accepts a configuration exactly when its type is
    one of the three modes and every section the type needs is present, has
    at least one endpoint, and every endpoint has its URL (client) or its
    path and valid percentages (backend); it then returns the configuration
    with the defaults filled in.  Nothing else is checked. *)
Theorem validateConfig_accepts_iff (c c' : Config) :
  validateConfig c = inr c' <-> acceptable c = true /\ c' = withDefaults c.
Proof.
  unfold validateConfig, acceptable, typeOk, withDefaults, loggingAfter.
  destruct (String.eqb (cfg_Type c) "client"),
           (String.eqb (cfg_Type c) "backend"),
           (String.eqb (cfg_Type c) "both"); simpl;
    try (split; [discriminate | intros [H _]; discriminate]);
    (destruct (validateClient c) as [e | cl] eqn:Ec;
     [ split; [discriminate|]; intros [H _];
       apply andb_true_iff in H; destruct H as [H _];
       assert (X : validateClient c = inr (clientAfter c))
         by (apply validateClient_inr; auto);
       congruence
     | apply validateClient_inr in Ec; destruct Ec as [Ec ->]; rewrite Ec; simpl;
       destruct (validateBackend c) as [e | b] eqn:Eb;
       [ split; [discriminate|]; intros [H _];
         assert (X : validateBackend c = inr (backendAfter c))
           by (apply validateBackend_inr; auto);
         congruence
       | apply validateBackend_inr in Eb; destruct Eb as [Eb ->]; rewrite Eb;
         split; [intros H; injection H as <-; auto | intros [_ ->]; reflexivity]
       ] ]).
Qed.

Lemma clientDefaults_idempotent (ep : EndpointConfig) :
  clientDefaults (clientDefaults ep) = clientDefaults ep.
Proof.
  unfold clientDefaults.
  destruct (String.eqb (ec_Method ep) "") eqn:E; simpl; [reflexivity|].
  rewrite E. reflexivity.
Qed.

Lemma clientDefaults_URL (ep : EndpointConfig) :
  ec_URL (clientDefaults ep) = ec_URL ep.
Proof.
  unfold clientDefaults. destruct (String.eqb (ec_Method ep) ""); reflexivity.
Qed.

Lemma backendDefaults_idempotent (ep : BackendEndpoint) :
  backendDefaults (backendDefaults ep) = backendDefaults ep.
Proof.
  unfold backendDefaults.
  destruct (String.eqb (be_Method ep) "") eqn:Em,
           (be_StatusCode ep =? 0) eqn:Es,
           (0 <? be_IdlePercent ep)%float eqn:Ei,
           (be_IdleDuration ep =? 0) eqn:Ed;
    cbn [andb]; simpl;
    rewrite ?Em, ?Es, ?Ei, ?Ed; cbn [andb]; reflexivity.
Qed.

Lemma backendDefaults_Path (ep : BackendEndpoint) :
  be_Path (backendDefaults ep) = be_Path ep.
Proof.
  unfold backendDefaults.
  destruct (String.eqb (be_Method ep) ""), (be_StatusCode ep =? 0),
    ((0 <? be_IdlePercent ep)%float && (be_IdleDuration ep =? 0))%bool;
    reflexivity.
Qed.

Lemma acceptable_withDefaults (c : Config) :
  acceptable c = true -> acceptable (withDefaults c) = true.
Proof.
  unfold acceptable, typeOk, clientSectionOk, backendSectionOk, withDefaults,
    clientAfter, backendAfter.
  cbn [cfg_Type cfg_Client cfg_Backend].
  intros H. apply andb_true_iff in H. destruct H as [H Hb].
  apply andb_true_iff in H. destruct H as [Ht Hc].
  rewrite Ht. cbn [andb]. apply andb_true_iff. split.
  - destruct (typeIn (cfg_Type c) "client" "both"); [|reflexivity].
    destruct (cfg_Client c) as [cl|]; [|discriminate]. cbn [option_map cc_Endpoints].
    apply andb_true_iff in Hc. destruct Hc as [H1 H2].
    apply andb_true_iff. split.
    + destruct (cc_Endpoints cl); [discriminate | reflexivity].
    + rewrite forallb_forall in *. intros ep Hin.
      apply in_map_iff in Hin. destruct Hin as [ep0 [<- Hin]].
      rewrite clientDefaults_URL. apply H2. exact Hin.
  - destruct (typeIn (cfg_Type c) "backend" "both"); [|reflexivity].
    destruct (cfg_Backend c) as [b|]; [|discriminate]. cbn [option_map bc_Endpoints].
    apply andb_true_iff in Hb. destruct Hb as [H1 H2].
    apply andb_true_iff. split.
    + destruct (bc_Endpoints b); [discriminate | reflexivity].
    + rewrite forallb_forall in *. intros ep Hin.
      apply in_map_iff in Hin. destruct Hin as [ep0 [<- Hin]].
      rewrite backendDefaults_Path, percentsOk_defaults. apply H2. exact Hin.
Qed.

Lemma withDefaults_idempotent (c : Config) :
  withDefaults (withDefaults c) = withDefaults c.
Proof.
  unfold withDefaults, clientAfter, backendAfter, loggingAfter.
  cbn [cfg_Type cfg_Client cfg_Backend cfg_Logging].
  f_equal.
  - destruct (typeIn (cfg_Type c) "client" "both"); [|reflexivity].
    destruct (cfg_Client c) as [cl|]; [|reflexivity]. simpl. do 2 f_equal.
    rewrite map_map. apply map_ext. apply clientDefaults_idempotent.
  - destruct (typeIn (cfg_Type c) "backend" "both"); [|reflexivity].
    destruct (cfg_Backend c) as [b|]; [|reflexivity]. simpl. do 2 f_equal.
    + destruct (bc_Port b =? 0) eqn:E; [reflexivity | rewrite E; reflexivity].
    + rewrite map_map. apply map_ext. apply backendDefaults_idempotent.
  - destruct (String.eqb (lc_Level (cfg_Logging c)) "") eqn:E; simpl;
      [reflexivity | rewrite E; reflexivity].
Qed.

(** X2. Validating again what validation returned changes nothing: the
    defaults it fills in (method GET, status 200, port 8080, idle duration
    30s, level info) are themselves accepted and left as they are. *)
Theorem validateConfig_idempotent (c c' : Config) :
  validateConfig c = inr c' -> validateConfig c' = inr c'.
Proof.
  intros H. apply validateConfig_accepts_iff in H. destruct H as [Ha ->].
  apply validateConfig_accepts_iff. split.
  - apply acceptable_withDefaults. exact Ha.
  - symmetry. apply withDefaults_idempotent.
Qed.

Definition sampleBothConfig : Config :=
  {| cfg_Type := "both";
     cfg_Client := Some {| cc_Endpoints :=
                             [{| ec_Name := "health";
                                 ec_URL := "http://localhost:8080/health";
                                 ec_Method := ""; ec_Headers := []; ec_Body := "";
                                 ec_Retries := 2; ec_RequestsPerSecond := 0 |}];
                           cc_Timeout := 5 * Go.Second;
                           cc_Interval := 1 * Go.Second;
                           cc_MaxConcurrentRequests := 0 |};
     cfg_Backend := Some {| bc_Port := 0;
                            bc_Endpoints :=
                              [{| be_Path := "/health"; be_Method := "";
                                  be_StatusCode := 0; be_Headers := [];
                                  be_Body := "OK"; be_Delay := 0;
                                  be_DropPercent := 10; be_IdlePercent := 20;
                                  be_IdleDuration := 0 |}] |};
     cfg_Logging := {| lc_Level := ""; lc_Verbose := true |} |}.

Lemma validateConfig_idempotent_witness :
  validateConfig (withDefaults sampleBothConfig) = inr (withDefaults sampleBothConfig).
Proof.
  apply (validateConfig_idempotent sampleBothConfig). reflexivity.
Defined.

(** The endpoints validation hands to the engines. *)
Definition clientEndpoints (c : Config) : list EndpointConfig :=
  if typeIn (cfg_Type c) "client" "both" then
    match cfg_Client c with
    | Some cl => cc_Endpoints cl
    | None => []
    end
  else [].



(** X4. After a successful validation every probe endpoint of a client or
    both configuration has a URL and a method; validation changes nothing
    of an endpoint but an empty method, so retries (also negative ones),
    rate, headers and body reach the engine as written. *)
Theorem validated_probe_endpoints (c c' : Config) (ep : EndpointConfig) :
  validateConfig c = inr c' ->
  In ep (clientEndpoints c') ->
  ec_URL ep <> "" /\ ec_Method ep <> "" /\
  exists ep0, In ep0 (clientEndpoints c) /\
    ep = clientDefaults ep0 /\
    ec_Name ep = ec_Name ep0 /\ ec_URL ep = ec_URL ep0 /\
    ec_Headers ep = ec_Headers ep0 /\ ec_Body ep = ec_Body ep0 /\
    ec_Retries ep = ec_Retries ep0 /\
    ec_RequestsPerSecond ep = ec_RequestsPerSecond ep0 /\
    (ec_Method ep0 <> "" -> ep = ep0).
Proof.
  intros H Hin. apply validateConfig_accepts_iff in H. destruct H as [Ha ->].
  unfold clientEndpoints, withDefaults, clientAfter in *.
  cbn [cfg_Type cfg_Client] in Hin.
  unfold acceptable, clientSectionOk in Ha.
  apply andb_true_iff in Ha. destruct Ha as [Ha _].
  apply andb_true_iff in Ha. destruct Ha as [_ Hc].
  destruct (typeIn (cfg_Type c) "client" "both"); [|destruct Hin].
  destruct (cfg_Client c) as [cl|]; [|discriminate].
  cbn [option_map cc_Endpoints] in Hin.
  apply andb_true_iff in Hc. destruct Hc as [_ Hc].
  rewrite forallb_forall in Hc.
  apply in_map_iff in Hin. destruct Hin as [ep0 [<- Hin]].
  specialize (Hc ep0 Hin). apply negb_true_iff in Hc.
  apply String.eqb_neq in Hc.
  rewrite clientDefaults_URL. split; [exact Hc|].
  unfold clientDefaults.
  destruct (String.eqb (ec_Method ep0) "") eqn:Em.
  - split; [simpl; discriminate|]. exists ep0. rewrite Em.
    split; [exact Hin|]. do 7 (split; [reflexivity|]).
    intros Hne. apply String.eqb_eq in Em. contradiction.
  - split; [apply String.eqb_neq; exact Em|]. exists ep0. rewrite Em.
    split; [exact Hin|]. do 7 (split; [reflexivity|]). reflexivity.
Qed.

Lemma validated_probe_endpoints_witness :
  ec_URL (clientDefaults (sampleProbe (-3))) <> "" /\
  ec_Retries (clientDefaults (sampleProbe (-3))) = -3.
Proof.
  destruct (validated_probe_endpoints
              {| cfg_Type := "client";
                 cfg_Client := Some {| cc_Endpoints := [sampleProbe (-3)];
                                       cc_Timeout := 0; cc_Interval := 0;
                                       cc_MaxConcurrentRequests := 0 |};
                 cfg_Backend := None;
                 cfg_Logging := {| lc_Level := "warn"; lc_Verbose := false |} |}
              _ (clientDefaults (sampleProbe (-3))) eq_refl
              (or_introl eq_refl))
    as [H1 [_ [ep0 [_ [_ [_ [_ [_ [_ [H2 _]]]]]]]]]].
  split; [exact H1 | reflexivity].
Defined.

(** ** Which endpoint an error names *)

(** The endpoint index an error of the backend loop carries. *)
Definition backendErrorIndex (e : ConfigError) : option nat :=
  match e with
  | ErrPathRequired i | ErrDropPercentRange i | ErrIdlePercentRange i
  | ErrPercentSum i => Some i
  | _ => None
  end.

Lemma validateBackendEndpoint_error_index (i : nat) (ep : BackendEndpoint)
  (e : ConfigError) :
  validateBackendEndpoint i ep = inl e -> backendErrorIndex e = Some i.
Proof.
  unfold validateBackendEndpoint, percentError.
  destruct (String.eqb (be_Path ep) ""); [intros H; injection H as <-; reflexivity|].
  destruct ((be_DropPercent ep <? 0)%float || (100 <? be_DropPercent ep)%float)%bool;
    [intros H; injection H as <-; reflexivity|].
  destruct ((be_IdlePercent ep <? 0)%float || (100 <? be_IdlePercent ep)%float)%bool;
    [intros H; injection H as <-; reflexivity|].
  destruct (100 <? be_DropPercent ep + be_IdlePercent ep)%float;
    [intros H; injection H as <-; reflexivity | discriminate].
Qed.

Lemma validateBackendEndpoints_first_error (eps : list BackendEndpoint) :
  forall i0 e,
    validateBackendEndpoints i0 eps = inl e ->
    exists j ep,
      backendErrorIndex e = Some (i0 + j)%nat /\
      nth_error eps j = Some ep /\
      validateBackendEndpoint (i0 + j) ep = inl e /\
      forall k epk, (k < j)%nat -> nth_error eps k = Some epk ->
        String.eqb (be_Path epk) "" = false /\ percentsOk epk = true.
Proof.
  induction eps as [|a rest IH]; intros i0 e; simpl; [discriminate|].
  destruct (validateBackendEndpoint i0 a) as [e0 | a'] eqn:Ea.
  - intros H. injection H as <-. exists 0%nat, a.
    rewrite Nat.add_0_r.
    split; [exact (validateBackendEndpoint_error_index i0 a e0 Ea)|].
    split; [reflexivity|]. split; [exact Ea|]. intros k epk Hk. lia.
  - destruct (validateBackendEndpoints (S i0) rest) as [e1 | rest'] eqn:Er;
      [|discriminate].
    intros H. injection H as <-.
    destruct (IH (S i0) e1 Er) as [j [ep [H1 [H2 [H3 H4]]]]].
    exists (S j), ep. replace (i0 + S j)%nat with (S i0 + j)%nat by lia.
    split; [exact H1|]. split; [exact H2|]. split; [exact H3|].
    intros [|k] epk Hk Hn; simpl in Hn.
    + injection Hn as <-. apply validateBackendEndpoint_inr in Ea.
      destruct Ea as [E1 [E2 _]]. auto.
    + apply (H4 k epk); [lia | exact Hn].
Qed.

Lemma validateClientEndpoints_error (eps : list EndpointConfig) :
  forall i0 e, validateClientEndpoints i0 eps = inl e ->
               backendErrorIndex e = None.
Proof.
  induction eps as [|a rest IH]; intros i0 e; simpl; [discriminate|].
  unfold validateClientEndpoint.
  destruct (String.eqb (ec_URL a) "");
    [intros H; injection H as <-; reflexivity|].
  destruct (String.eqb (ec_Method a) "");
    (destruct (validateClientEndpoints (S i0) rest) as [e1|] eqn:Er;
     [intros H; injection H as <-; exact (IH (S i0) e1 Er) | discriminate]).
Qed.

(** X5. When validation fails with an error that carries a backend endpoint
    index [i] (path missing, percentage out of range, sum above 100), the
    backend section has an endpoint at position [i], that endpoint is the
    one at fault, and every endpoint before it has a path and valid
    percentages: the message names the first offending endpoint. *)
Theorem error_names_first_offender (c : Config) (e : ConfigError) (i : nat) :
  validateConfig c = inl e ->
  backendErrorIndex e = Some i ->
  exists b ep,
    cfg_Backend c = Some b /\
    nth_error (bc_Endpoints b) i = Some ep /\
    validateBackendEndpoint i ep = inl e /\
    (String.eqb (be_Path ep) "" = true \/ percentsOk ep = false) /\
    forall k epk, (k < i)%nat -> nth_error (bc_Endpoints b) k = Some epk ->
      be_Path epk <> "" /\ percentsOk epk = true.
Proof.
  unfold validateConfig.
  destruct (negb (String.eqb (cfg_Type c) "client")
            && negb (String.eqb (cfg_Type c) "backend")
            && negb (String.eqb (cfg_Type c) "both"))%bool;
    [intros H; injection H as <-; discriminate|].
  destruct (validateClient c) as [e0 | cl] eqn:Ec.
  - intros H. injection H as <-. intros Hi. exfalso.
    unfold validateClient in Ec.
    destruct (typeIn (cfg_Type c) "client" "both"); [|discriminate].
    destruct (cfg_Client c) as [x|]; [|injection Ec as <-; discriminate].
    destruct (cc_Endpoints x) as [|a rest]; [injection Ec as <-; discriminate|].
    destruct (validateClientEndpoints 0 (a :: rest)) as [e1|] eqn:E1;
      [|discriminate].
    injection Ec as <-.
    rewrite (validateClientEndpoints_error _ _ _ E1) in Hi. discriminate.
  - destruct (validateBackend c) as [e0 | b0] eqn:Eb; [|discriminate].
    intros H. injection H as <-. intros Hi.
    unfold validateBackend in Eb.
    destruct (typeIn (cfg_Type c) "backend" "both"); [|discriminate].
    destruct (cfg_Backend c) as [b|]; [|injection Eb as <-; discriminate].
    destruct (bc_Endpoints b) as [|a rest] eqn:Ee;
      [injection Eb as <-; discriminate|].
    destruct (validateBackendEndpoints 0 (a :: rest)) as [e1|] eqn:E1;
      [|discriminate].
    injection Eb as <-.
    destruct (validateBackendEndpoints_first_error _ _ _ E1)
      as [j [ep [H1 [H2 [H3 H4]]]]].
    simpl Nat.add in H1, H3. rewrite H1 in Hi. injection Hi as <-.
    exists b, ep. rewrite Ee.
    split; [reflexivity|]. split; [exact H2|]. split; [exact H3|].
    split.
    + destruct (String.eqb (be_Path ep) "") eqn:Ep; [left; reflexivity|].
      right. destruct (percentsOk ep) eqn:Eo; [|reflexivity].
      assert (X : validateBackendEndpoint j ep = inr (backendDefaults ep))
        by (apply validateBackendEndpoint_inr; auto).
      congruence.
    + intros k epk Hk Hn. destruct (H4 k epk Hk Hn) as [Hp Ho].
      split; [apply String.eqb_neq; exact Hp | exact Ho].
Qed.

Lemma error_names_first_offender_witness :
  exists b ep,
    cfg_Backend (sampleBackendConfig [sampleMock 10 20; sampleMock 60 50]) = Some b /\
    nth_error (bc_Endpoints b) 1 = Some ep /\
    validateBackendEndpoint 1 ep = inl (ErrPercentSum 1) /\
    (String.eqb (be_Path ep) "" = true \/ percentsOk ep = false) /\
    forall k epk, (k < 1)%nat -> nth_error (bc_Endpoints b) k = Some epk ->
      be_Path epk <> "" /\ percentsOk epk = true.
Proof.
  apply (error_names_first_offender
           (sampleBackendConfig [sampleMock 10 20; sampleMock 60 50])
           (ErrPercentSum 1) 1%nat); reflexivity.
Defined.

(** ** The engines main starts *)

(** X6. Every engine [main] starts has its section: a client engine is
    started only with a client section that has at least one endpoint, a
    backend engine only with a backend section that has at least one
    endpoint and a port other than 0; and the engines started are those of
    the configured type. *)
Theorem engines_have_sections (c : Config) (e : Engine) :
  In e (startedEngines c) ->
  match e with
  | ClientEngine cl =>
      typeIn (cfg_Type c) "client" "both" = true /\
      exists x, cl = Some x /\ cc_Endpoints x <> []
  | BackendEngine b =>
      typeIn (cfg_Type c) "backend" "both" = true /\
      exists x, b = Some x /\ bc_Endpoints x <> [] /\ bc_Port x <> 0
  end.
Proof.
  unfold startedEngines.
  destruct (validateConfig c) as [err | c'] eqn:E; [intros []|].
  apply validateConfig_accepts_iff in E. destruct E as [Ha ->].
  unfold acceptable, clientSectionOk, backendSectionOk in Ha.
  apply andb_true_iff in Ha. destruct Ha as [Ha Hb].
  apply andb_true_iff in Ha. destruct Ha as [_ Hc].
  unfold withDefaults, clientAfter, backendAfter, typeIn in *.
  cbn [cfg_Type cfg_Client cfg_Backend].
  assert (Cl : forall cl, cfg_Client c = Some cl ->
               negb (isEmpty (cc_Endpoints cl)) && forallb (fun ep => negb (String.eqb (ec_URL ep) "")) (cc_Endpoints cl) = true ->
               map clientDefaults (cc_Endpoints cl) <> []).
  { intros cl _ H. destruct (cc_Endpoints cl); [discriminate|]. simpl. discriminate. }
  assert (Bk : forall b, cfg_Backend c = Some b ->
               negb (isEmpty (bc_Endpoints b)) && forallb (fun ep => negb (String.eqb (be_Path ep) "") && percentsOk ep) (bc_Endpoints b) = true ->
               map backendDefaults (bc_Endpoints b) <> [] /\
               (if bc_Port b =? 0 then 8080 else bc_Port b) <> 0).
  { intros b _ H. split.
    - destruct (bc_Endpoints b); [discriminate|]. simpl. discriminate.
    - destruct (bc_Port b =? 0) eqn:Ep; [discriminate|].
      apply Z.eqb_neq. exact Ep. }
  destruct (String.eqb (cfg_Type c) "client") eqn:E1;
    destruct (String.eqb (cfg_Type c) "backend") eqn:E2;
    destruct (String.eqb (cfg_Type c) "both") eqn:E3;
    cbn [orb] in *;
    try (apply String.eqb_eq in E1; apply String.eqb_eq in E2;
         rewrite E1 in E2; discriminate);
    try (apply String.eqb_eq in E1; apply String.eqb_eq in E3;
         rewrite E1 in E3; discriminate);
    try (apply String.eqb_eq in E2; apply String.eqb_eq in E3;
         rewrite E2 in E3; discriminate);
    intros Hin; simpl in Hin;
    repeat match goal with
           | H : _ \/ _ |- _ => destruct H as [H | H]
           | H : False |- _ => destruct H
           end;
    subst e; (split; [reflexivity|]);
    try (destruct (cfg_Client c) as [cl|]; [|discriminate];
         eexists; split; [reflexivity|]; apply (Cl cl eq_refl Hc));
    try (destruct (cfg_Backend c) as [b|]; [|discriminate];
         eexists; split; [reflexivity|]; apply (Bk b eq_refl Hb)).
Qed.

Lemma engines_have_sections_witness :
  typeIn (cfg_Type sampleBothConfig) "backend" "both" = true /\
  exists x, backendAfter sampleBothConfig = Some x /\
            bc_Endpoints x <> [] /\ bc_Port x <> 0.
Proof.
  apply (engines_have_sections sampleBothConfig
           (BackendEngine (backendAfter sampleBothConfig))).
  right. left. reflexivity.
Defined.

(** ** The logger's threshold *)

(** X7. Whatever level the logger is configured with (known or not), a
    message at level error is printed; a message at level debug is printed
    exactly when the configured level is "debug". *)
Theorem error_always_debug_only_on_debug (l : Logger) :
  shouldLog l "error" = true /\
  (shouldLog l "debug" = true <-> lg_level l = "debug").
Proof.
  unfold shouldLog, levels, levelsAt.
  destruct (String.eqb (lg_level l) "debug") eqn:E0.
  - apply String.eqb_eq in E0. split; [reflexivity|]. split; auto.
  - apply String.eqb_neq in E0.
    destruct (String.eqb (lg_level l) "info"), (String.eqb (lg_level l) "warn"),
      (String.eqb (lg_level l) "error"); simpl;
      (split; [reflexivity|]); split; intros H; try discriminate; contradiction.
Qed.

(** X8. The four levels are a threshold: if a message level is printed,
    every higher level is printed too; and a logger whose configured level is
    not one of the four names prints what a logger at level "info" prints. *)
Theorem levels_are_a_threshold (l : Logger) (a b : string) (x y : Z) :
  levels a = Some x -> levels b = Some y -> x <= y ->
  (shouldLog l a = true -> shouldLog l b = true) /\
  (levels (lg_level l) = None ->
   shouldLog l a
   = shouldLog {| lg_level := "info"; lg_verbose := lg_verbose l |} a).
Proof.
  intros Ha Hb Hxy. unfold shouldLog. rewrite Ha, Hb. split.
  - intros H. apply Z.leb_le in H. apply Z.leb_le. lia.
  - intros Hn. rewrite Hn. reflexivity.
Qed.

Lemma levels_are_a_threshold_witness :
  (shouldLog {| lg_level := "verbose"; lg_verbose := true |} "info" = true ->
   shouldLog {| lg_level := "verbose"; lg_verbose := true |} "warn" = true) /\
  (levels "verbose" = None ->
   shouldLog {| lg_level := "verbose"; lg_verbose := true |} "info"
   = shouldLog {| lg_level := "info"; lg_verbose := true |} "info").
Proof.
  apply (levels_are_a_threshold {| lg_level := "verbose"; lg_verbose := true |}
           "info" "warn" 1 2); [reflexivity | reflexivity | lia].
Defined.

(** ** What the mock server logs and reports *)

Lemma writerOnly_In (tr : Trace) (e : Event) :
  writerOnly tr -> In e tr -> writerEvent e = true.
Proof.
  unfold writerOnly. intros H Hin.
  exact (proj1 (forallb_forall _ _) H e Hin).
Qed.

Definition isErrorLog (e : Event) : bool :=
  match e with Log Error _ => true | _ => false end.

Lemma errorLogs_writerOnly (tr : Trace) :
  writerOnly tr -> filter isErrorLog tr = [].
Proof.
  intros H. apply filter_writerOnly; [|exact H].
  intros e. destruct e; simpl; congruence.
Qed.

Lemma errorLogs_headerLogs (hs : list (string * list string)) :
  filter isErrorLog
    (flat_map (fun kv => map (fun _ => Log Debug "    %s: %s") (snd kv)) hs) = [].
Proof.
  induction hs as [|kv rest IH]; [reflexivity|].
  simpl. rewrite filter_app, IH, app_nil_r.
  induction (snd kv) as [|v vs IHv]; [reflexivity | exact IHv].
Qed.

Lemma errorLogs_normalResponse (ep : BackendEndpoint) (w : ResponseWriter)
  (r : Request) (clk : Clock) :
  filter isErrorLog (normalResponse ep w r clk) = [].
Proof.
  unfold normalResponse. rewrite !filter_app.
  rewrite (errorLogs_writerOnly _ (headers_writerOnly w _)).
  rewrite filter_andThen_nil.
  - destruct (0 <? be_Delay ep); reflexivity.
  - apply errorLogs_writerOnly, w_WriteHeader_writerOnly.
  - rewrite !filter_app.
    destruct (String.eqb (be_Body ep) "");
      rewrite ?(errorLogs_writerOnly _ (w_Write_writerOnly w (be_Body ep)));
      reflexivity.
Qed.

Lemma errorLogs_registerEndpoint (ep : BackendEndpoint) (w : ResponseWriter)
  (r : Request) (clk : Clock) :
  filter isErrorLog (registerEndpoint ep w r clk) = [].
Proof.
  unfold registerEndpoint.
  destruct (negb (String.eqb (req_Method r) (be_Method ep))).
  - apply errorLogs_writerOnly, http_Error_writerOnly.
  - unfold createHandler.
    destruct (faultsConfigured ep); [|apply errorLogs_normalResponse].
    destruct (draw (clk_UnixNano clk) <? be_DropPercent ep)%float.
    + unfold dropConnection, closeAfterDrop.
      destruct (asHijacker w) as [[|]|]; reflexivity.
    + destruct (draw (clk_UnixNano clk)
                <? be_DropPercent ep + be_IdlePercent ep)%float;
        [|apply errorLogs_normalResponse].
      unfold idleConnection, closeAfterIdle.
      destruct (asHijacker w) as [[|]|]; reflexivity.
Qed.

(** X9. Serving a request never logs at level error: not for a wrong
    method, a dropped or idled connection, or a normal reply.  A logger
    configured at level "error" therefore prints nothing at all for the
    requests the mock server handles. *)
Theorem serving_never_logs_an_error (verbose : bool) (ep : BackendEndpoint)
  (w : ResponseWriter) (r : Request) (clk : Clock) (l : Logger) :
  filter isErrorLog (serve verbose ep w r clk) = [] /\
  (lg_level l = "error" -> printed l (serve verbose ep w r clk) = []).
Proof.
  assert (H : filter isErrorLog (serve verbose ep w r clk) = []).
  { unfold serve, loggingMiddleware. rewrite !filter_app.
    rewrite (filter_andThen_nil _ _ [Log Info "→ %s %s -> %d (took %v)"]
               (errorLogs_registerEndpoint ep (LoggingWriter w) r clk) eq_refl).
    destruct verbose; simpl; rewrite ?errorLogs_headerLogs; reflexivity. }
  split; [exact H|]. intros Hl.
  unfold printed.
  assert (E : forall e, (match e with
                         | Log lvl _ => shouldLog l (levelName lvl)
                         | _ => false
                         end) = isErrorLog e).
  { intros e. destruct e as [lvl f| | | | | | | | | | | | | | | |]; try reflexivity.
    unfold shouldLog. rewrite Hl. destruct lvl; reflexivity. }
  rewrite (filter_ext _ _ E). exact H.
Qed.

Lemma serving_never_logs_an_error_witness :
  printed {| lg_level := "error"; lg_verbose := true |}
    (serve true (sampleMock 100 0) (ConnWriter (Some true))
       (sampleRequest "GET") (sampleClock 1730000000123456789)) = [].
Proof.
  apply (serving_never_logs_an_error true (sampleMock 100 0)
           (ConnWriter (Some true)) (sampleRequest "GET")
           (sampleClock 1730000000123456789)
           {| lg_level := "error"; lg_verbose := true |}).
  reflexivity.
Defined.

Definition setsStatus (e : Event) : bool :=
  match e with SetStatusCode _ => true | _ => false end.

Lemma fold_status_none (tr : Trace) (st : Z) :
  filter setsStatus tr = [] ->
  fold_left (fun st e => match e with SetStatusCode c => c | _ => st end) tr st
  = st.
Proof.
  revert st. induction tr as [|e rest IH]; intros st H; [reflexivity|].
  destruct e; simpl in *; try discriminate; auto.
Qed.

Lemma fold_status_same (w : ResponseWriter) (code : Z) :
  fold_left (fun st e => match e with SetStatusCode c => c | _ => st end)
    (w_WriteHeader w code) code = code.
Proof.
  induction w as [t | inner IH]; [|exact IH].
  simpl. destruct (validStatus code); reflexivity.
Qed.

Lemma fold_status_WriteHeader (w : ResponseWriter) (code st : Z) :
  fold_left (fun st e => match e with SetStatusCode c => c | _ => st end)
    (w_WriteHeader (LoggingWriter w) code) st = code.
Proof. simpl. apply fold_status_same. Qed.

Lemma setsStatus_w_Write (w : ResponseWriter) (body : string) :
  filter setsStatus (w_Write w body) = [].
Proof. induction w as [t | inner IH]; [reflexivity | exact IH]. Qed.

Lemma setsStatus_w_HeaderSet (w : ResponseWriter) (kv : string * string) :
  filter setsStatus (w_HeaderSet w kv) = [].
Proof. induction w as [t | inner IH]; [reflexivity | exact IH]. Qed.

Lemma statusCodeField_normalResponse (ep : BackendEndpoint)
  (w : ResponseWriter) (r : Request) (clk : Clock) :
  statusCodeField (normalResponse ep (LoggingWriter w) r clk) = be_StatusCode ep.
Proof.
  unfold normalResponse, statusCodeField.
  rewrite !fold_left_app.
  destruct (validStatus (be_StatusCode ep)) eqn:Hv.
  - rewrite andThen_WriteHeader_valid by exact Hv.
    rewrite !fold_left_app, fold_status_WriteHeader.
    destruct (String.eqb (be_Body ep) "");
      rewrite ?(fold_status_none _ _ (setsStatus_w_Write _ _)); reflexivity.
  - rewrite andThen_WriteHeader_invalid by exact Hv.
    apply fold_status_WriteHeader.
Qed.

Lemma statusCodeField_http_Error (w : ResponseWriter) (msg : string) (code : Z) :
  statusCodeField (http_Error (LoggingWriter w) msg code) = code.
Proof.
  unfold http_Error, statusCodeField.
  rewrite !fold_left_app.
  destruct (validStatus code) eqn:Hv.
  - rewrite andThen_WriteHeader_valid by exact Hv.
    rewrite !fold_left_app, fold_status_WriteHeader.
    apply fold_status_none. apply setsStatus_w_Write.
  - rewrite andThen_WriteHeader_invalid by exact Hv.
    apply fold_status_WriteHeader.
Qed.

(** X10. The status the logging middleware reports for a request (the
    field [statusCode] of its wrapper when the handler returns) is 405 for a
    wrong method and the configured status code for a normal reply; for a
    dropped or an idled connection, where nothing was sent, it is still the
    initial 200. *)
Theorem reported_status (ep : BackendEndpoint) (w : ResponseWriter)
  (r : Request) (clk : Clock) :
  let tr := registerEndpoint ep (LoggingWriter w) r clk in
  (req_Method r <> be_Method ep -> statusCodeField tr = 405) /\
  (decisions tr = [Respond] -> statusCodeField tr = be_StatusCode ep) /\
  (decisions tr = [Drop] \/ decisions tr = [Idle] -> statusCodeField tr = 200).
Proof.
  intros tr. subst tr. unfold registerEndpoint.
  destruct (negb (String.eqb (req_Method r) (be_Method ep))) eqn:Em.
  - rewrite (decisions_writerOnly _ (http_Error_writerOnly _ _ _)).
    split; [intros _; apply statusCodeField_http_Error|].
    split; [discriminate | intros [H | H]; discriminate].
  - split.
    { intros Hne. rewrite (method_mismatch ep r Hne) in Em. discriminate. }
    unfold createHandler.
    destruct (faultsConfigured ep).
    + destruct (draw (clk_UnixNano clk) <? be_DropPercent ep)%float.
      * rewrite decisions_dropConnection. split; [discriminate|].
        intros _. reflexivity.
      * destruct (draw (clk_UnixNano clk)
                  <? be_DropPercent ep + be_IdlePercent ep)%float.
        -- rewrite decisions_idleConnection. split; [discriminate|].
           intros _. reflexivity.
        -- rewrite decisions_normalResponse.
           split; [intros _; apply statusCodeField_normalResponse|].
           destruct (validStatus (be_StatusCode ep));
             intros [H | H]; discriminate.
    + rewrite decisions_normalResponse.
      split; [intros _; apply statusCodeField_normalResponse|].
      destruct (validStatus (be_StatusCode ep));
        intros [H | H]; discriminate.
Qed.

Lemma reported_status_witness :
  statusCodeField (registerEndpoint (sampleMock 100 0)
                     (LoggingWriter (ConnWriter (Some true)))
                     (sampleRequest "GET") (sampleClock 1730000000123456789))
  = 200 /\
  statusCodeField (registerEndpoint (sampleMock 100 0)
                     (LoggingWriter (ConnWriter (Some true)))
                     (sampleRequest "PUT") (sampleClock 1730000000123456789))
  = 405.
Proof.
  split.
  - apply (reported_status (sampleMock 100 0) (ConnWriter (Some true))
             (sampleRequest "GET") (sampleClock 1730000000123456789)).
    left. reflexivity.
  - apply (reported_status (sampleMock 100 0) (ConnWriter (Some true))
             (sampleRequest "PUT") (sampleClock 1730000000123456789)).
    simpl. discriminate.
Defined.

(** ** The normal reply *)

Definition isHeaderSet (e : Event) : bool :=
  match e with HeaderSet _ _ => true | _ => false end.

Lemma increments_app (m : Metric) (a b : Trace) :
  increments m (a ++ b) = (increments m a + increments m b)%nat.
Proof. unfold increments. rewrite filter_app, length_app. reflexivity. Qed.

Lemma increments_writerOnly (m : Metric) (tr : Trace) :
  writerOnly tr -> increments m tr = 0%nat.
Proof.
  intros H. unfold increments. rewrite filter_writerOnly; auto.
  intros e. destruct e; simpl; congruence.
Qed.

Lemma observations_app (m : Metric) (a b : Trace) :
  observations m (a ++ b) = observations m a ++ observations m b.
Proof.
  induction a as [|e rest IH]; [reflexivity|].
  destruct e as [| |m0 l v| | | | | | | | | | | | | |]; simpl; try exact IH.
  destruct m0; simpl; try exact IH; destruct m; simpl; rewrite ?IH; reflexivity.
Qed.

Lemma observations_writerOnly (m : Metric) (tr : Trace) :
  writerOnly tr -> observations m tr = [].
Proof.
  unfold writerOnly. induction tr as [|e rest IH]; [reflexivity|].
  simpl. intros H. apply andb_true_iff in H. destruct H as [He Hr].
  destruct e; try discriminate; simpl; auto.
Qed.

Lemma headerSets_w_HeaderSet (w : ResponseWriter) (kv : string * string) :
  filter isHeaderSet (w_HeaderSet w kv) = [HeaderSet (fst kv) (snd kv)].
Proof. induction w as [t | inner IH]; [reflexivity | exact IH]. Qed.

Lemma headerSets_headers (w : ResponseWriter) (hs : list (string * string)) :
  filter isHeaderSet (flat_map (w_HeaderSet w) hs)
  = map (fun kv => HeaderSet (fst kv) (snd kv)) hs.
Proof.
  induction hs as [|kv rest IH]; [reflexivity|].
  simpl. rewrite filter_app, headerSets_w_HeaderSet, IH. reflexivity.
Qed.

Lemma headerSets_w_WriteHeader (w : ResponseWriter) (code : Z) :
  filter isHeaderSet (w_WriteHeader w code) = [].
Proof.
  induction w as [t | inner IH]; [|exact IH].
  simpl. destruct (validStatus code); reflexivity.
Qed.

(** The order of a [range] over a map is an order of its entries, and every
    order of the entries is the order of some seed. *)
Lemma insertAt_Permutation {A : Type} (n : nat) (x : A) (l : list A) :
  Permutation (insertAt n x l) (x :: l).
Proof.
  revert n. induction l as [|y l IH]; intros [|n]; simpl; try reflexivity.
  rewrite (IH n). apply perm_swap.
Qed.

Lemma rangeOrder_Permutation {A : Type} (seed : nat) (entries : list A) :
  Permutation (rangeOrder seed entries) entries.
Proof.
  revert seed. induction entries as [|x rest IH]; intros seed; [reflexivity|].
  simpl. rewrite insertAt_Permutation. apply perm_skip, IH.
Qed.

Lemma insertAt_middle {A : Type} (x : A) (l1 l2 : list A) :
  insertAt (List.length l1) x (l1 ++ l2) = l1 ++ x :: l2.
Proof.
  induction l1 as [|y l1 IH]; simpl; [destruct l2; reflexivity|].
  rewrite IH. reflexivity.
Qed.

Lemma rangeOrder_complete {A : Type} (entries order : list A) :
  Permutation entries order -> exists seed, rangeOrder seed entries = order.
Proof.
  revert order. induction entries as [|x rest IH]; intros order HP.
  - apply Permutation_nil in HP. subst order. exists O. reflexivity.
  - assert (Hin : In x order)
      by (apply (Permutation_in x HP); left; reflexivity).
    destruct (in_split x order Hin) as [l1 [l2 E]]. subst order.
    apply Permutation_cons_app_inv in HP.
    destruct (IH _ HP) as [seed Hs].
    pose proof (Permutation_length HP) as Hlen.
    rewrite length_app in Hlen.
    exists (List.length l1 + seed * S (List.length rest))%nat.
    cbn [rangeOrder].
    rewrite Nat.Div0.mod_add.
    rewrite Nat.div_add by discriminate.
    rewrite Nat.mod_small by lia.
    rewrite Nat.div_small by lia.
    rewrite Nat.add_0_l, Hs. apply insertAt_middle.
Qed.

Lemma headerSets_w_Write (w : ResponseWriter) (body : string) :
  filter isHeaderSet (w_Write w body) = [].
Proof. induction w as [t | inner IH]; [reflexivity | exact IH]. Qed.

Lemma noWrite_headers (w : ResponseWriter) (hs : list (string * string)) :
  filter writesResponse (flat_map (w_HeaderSet w) hs) = [].
Proof.
  induction hs as [|kv rest IH]; [reflexivity|].
  simpl. rewrite filter_app, w_HeaderSet_noWrite, IH. reflexivity.
Qed.

Lemma headerSets_normalResponse (ep : BackendEndpoint) (w : ResponseWriter)
  (r : Request) (clk : Clock) :
  filter isHeaderSet (normalResponse ep w r clk)
  = map (fun kv => HeaderSet (fst kv) (snd kv))
      (rangeOrder (clk_RangeSeed clk) (be_Headers ep)).
Proof.
  unfold normalResponse. rewrite !filter_app, headerSets_headers.
  rewrite filter_andThen_nil.
  - destruct (0 <? be_Delay ep); simpl; rewrite app_nil_r; reflexivity.
  - apply headerSets_w_WriteHeader.
  - rewrite !filter_app.
    destruct (String.eqb (be_Body ep) "");
      rewrite ?headerSets_w_Write; reflexivity.
Qed.

Lemma sleeps_normalResponse (ep : BackendEndpoint) (w : ResponseWriter)
  (r : Request) (clk : Clock) :
  sleeps (normalResponse ep w r clk)
  = if 0 <? be_Delay ep then [be_Delay ep] else [].
Proof.
  pose proof (w_WriteHeader_writerOnly w (be_StatusCode ep)) as Ws.
  unfold normalResponse. rewrite !sleeps_app.
  rewrite (sleeps_writerOnly _ (headers_writerOnly w _)).
  destruct (andThen_cases (w_WriteHeader w (be_StatusCode ep))
              ((if String.eqb (be_Body ep) ""
                then [] else w_Write w (be_Body ep))
               ++ [Inc BackendRequestsTotal
                     [LStr (req_Path r); LStr (req_Method r);
                      LInt (be_StatusCode ep)];
                   Observe BackendRequestDuration (pathMethod r)
                     (Seconds (clk_Since clk))]
               ++ (if String.eqb (be_Body ep) "" then []
                   else [Observe BackendResponseSize (pathMethod r)
                           (Number (Z.of_nat (String.length (be_Body ep))))])
               ++ [Log Debug "Handled %s %s -> %d (took %v)"]))
    as [[_ E] | [_ E]]; rewrite E.
  - rewrite (sleeps_writerOnly _ Ws).
    destruct (0 <? be_Delay ep); reflexivity.
  - rewrite !sleeps_app, (sleeps_writerOnly _ Ws).
    destruct (0 <? be_Delay ep); destruct (String.eqb (be_Body ep) "");
      rewrite ?(sleeps_writerOnly _ (w_Write_writerOnly w (be_Body ep)));
      reflexivity.
Qed.

Definition headerKey (e : Event) : string :=
  match e with HeaderSet key _ => key | _ => "" end.

(** Whether the handler of an endpoint, called at this clock, runs the
    normal reply: lines 94-135 fall through to line 137. *)
Definition replies (ep : BackendEndpoint) (clk : Clock) : bool :=
  negb (faultsConfigured ep)
  || match specDecision ep (draw (clk_UnixNano clk)) with
     | Respond => true
     | _ => false
     end.

Lemma replies_normalResponse (ep : BackendEndpoint) (w : ResponseWriter)
  (r : Request) (clk : Clock) :
  req_Method r = be_Method ep ->
  replies ep clk = true ->
  registerEndpoint ep w r clk = normalResponse ep w r clk.
Proof.
  intros Hm Hr. rewrite (registerEndpoint_match ep w r clk Hm).
  unfold replies in Hr.
  destruct (faultsConfigured ep) eqn:Hf.
  - rewrite (createHandler_faults ep w r clk Hf).
    destruct (specDecision ep (draw (clk_UnixNano clk)));
      [discriminate | discriminate | reflexivity].
  - apply (createHandler_noFaults ep w r clk Hf).
Qed.

(** X11. When the handler of an endpoint runs the normal reply, it sleeps
    only for a positive configured delay and sets the configured headers,
    each key once as the keys of a map are distinct, in the order in which
    the [range] visits the map and before anything is written.  With a status code of three digits it then writes
    that code, then the body when it is not empty, counts one request,
    observes its duration once and the body's length only when a body was
    written.  With any other status code [WriteHeader] panics: nothing is
    written, counted or observed. *)
Theorem respond_is_the_configured_reply (ep : BackendEndpoint)
  (w : ResponseWriter) (r : Request) (clk : Clock) :
  req_Method r = be_Method ep ->
  replies ep clk = true ->
  let tr := registerEndpoint ep w r clk in
  sleeps tr = (if 0 <? be_Delay ep then [be_Delay ep] else []) /\
  Permutation (filter isHeaderSet tr)
    (map (fun kv => HeaderSet (fst kv) (snd kv)) (be_Headers ep)) /\
  (NoDup (map fst (be_Headers ep)) ->
   NoDup (map headerKey (filter isHeaderSet tr))) /\
  (exists before after,
      tr = before ++ after /\
      responseWrites before = [] /\ filter isHeaderSet after = []) /\
  (validStatus (be_StatusCode ep) = true ->
   panicked tr = false /\
   responseWrites tr
   = WriteHeader (be_StatusCode ep)
     :: (if String.eqb (be_Body ep) "" then [] else [Write (be_Body ep)]) /\
   increments BackendRequestsTotal tr = 1%nat /\
   observations BackendRequestDuration tr = [Seconds (clk_Since clk)] /\
   observations BackendResponseSize tr
   = (if String.eqb (be_Body ep) "" then []
      else [Number (Z.of_nat (String.length (be_Body ep)))])) /\
  (validStatus (be_StatusCode ep) = false ->
   panicked tr = true /\
   responseWrites tr = [] /\
   increments BackendRequestsTotal tr = 0%nat /\
   observations BackendRequestDuration tr = [] /\
   observations BackendResponseSize tr = []).
Proof.
  intros Hm Hr tr. subst tr. rewrite (replies_normalResponse ep w r clk Hm Hr).
  pose proof (headers_writerOnly w (rangeOrder (clk_RangeSeed clk) (be_Headers ep)))
    as Wh.
  pose proof (w_WriteHeader_writerOnly w (be_StatusCode ep)) as Ws.
  pose proof (w_Write_writerOnly w (be_Body ep)) as Wb.
  split; [apply sleeps_normalResponse|].
  split.
  { rewrite headerSets_normalResponse.
    apply Permutation_map, rangeOrder_Permutation. }
  split.
  { intros Hn. rewrite headerSets_normalResponse, map_map.
    exact (Permutation_NoDup
             (Permutation_sym
                (Permutation_map fst
                   (rangeOrder_Permutation (clk_RangeSeed clk) (be_Headers ep))))
             Hn). }
  split.
  { unfold normalResponse.
    exists ((if 0 <? be_Delay ep then [Sleep (be_Delay ep)] else [])
            ++ flat_map (w_HeaderSet w)
                 (rangeOrder (clk_RangeSeed clk) (be_Headers ep))).
    eexists. split; [rewrite <- app_assoc; reflexivity|]. split.
    - unfold responseWrites. rewrite filter_app, noWrite_headers.
      destruct (0 <? be_Delay ep); reflexivity.
    - apply filter_andThen_nil; [apply headerSets_w_WriteHeader|].
      rewrite !filter_app.
      destruct (String.eqb (be_Body ep) "");
        rewrite ?headerSets_w_Write; reflexivity. }
  split.
  - intros Hv. split; [rewrite panicked_normalResponse, Hv; reflexivity|].
    unfold normalResponse. rewrite andThen_WriteHeader_valid by exact Hv.
    split; [|split; [|split]].
    + unfold responseWrites. rewrite !filter_app.
      rewrite noWrite_headers, w_WriteHeader_status, Hv.
      destruct (0 <? be_Delay ep); destruct (String.eqb (be_Body ep) "");
        rewrite ?w_Write_body; reflexivity.
    + rewrite !increments_app.
      rewrite (increments_writerOnly _ _ Wh), (increments_writerOnly _ _ Ws).
      destruct (0 <? be_Delay ep); destruct (String.eqb (be_Body ep) "");
        rewrite ?(increments_writerOnly _ _ Wb); reflexivity.
    + rewrite !observations_app.
      rewrite (observations_writerOnly _ _ Wh), (observations_writerOnly _ _ Ws).
      destruct (0 <? be_Delay ep); destruct (String.eqb (be_Body ep) "");
        rewrite ?(observations_writerOnly _ _ Wb); reflexivity.
    + rewrite !observations_app.
      rewrite (observations_writerOnly _ _ Wh), (observations_writerOnly _ _ Ws).
      destruct (0 <? be_Delay ep); destruct (String.eqb (be_Body ep) "");
        rewrite ?(observations_writerOnly _ _ Wb); reflexivity.
  - intros Hv. split; [rewrite panicked_normalResponse, Hv; reflexivity|].
    unfold normalResponse. rewrite andThen_WriteHeader_invalid by exact Hv.
    split; [|split; [|split]].
    + unfold responseWrites. rewrite !filter_app.
      rewrite noWrite_headers, w_WriteHeader_status, Hv.
      destruct (0 <? be_Delay ep); reflexivity.
    + rewrite !increments_app.
      rewrite (increments_writerOnly _ _ Wh), (increments_writerOnly _ _ Ws).
      destruct (0 <? be_Delay ep); reflexivity.
    + rewrite !observations_app.
      rewrite (observations_writerOnly _ _ Wh), (observations_writerOnly _ _ Ws).
      destruct (0 <? be_Delay ep); reflexivity.
    + rewrite !observations_app.
      rewrite (observations_writerOnly _ _ Wh), (observations_writerOnly _ _ Ws).
      destruct (0 <? be_Delay ep); reflexivity.
Qed.

Lemma respond_is_the_configured_reply_witness :
  let tr := registerEndpoint (sampleMock 30 20) (ConnWriter (Some true))
              (sampleRequest "GET") (sampleClock 1730000000123459999) in
  sleeps tr = [] /\
  Permutation (filter isHeaderSet tr) [HeaderSet "Content-Type" "text/plain"] /\
  panicked tr = false /\
  responseWrites tr = [WriteHeader 200; Write "OK"] /\
  increments BackendRequestsTotal tr = 1%nat /\
  observations BackendRequestDuration tr = [Seconds 250000] /\
  observations BackendResponseSize tr = [Number 2].
Proof.
  destruct (respond_is_the_configured_reply (sampleMock 30 20)
              (ConnWriter (Some true)) (sampleRequest "GET")
              (sampleClock 1730000000123459999) eq_refl eq_refl)
    as [H1 [H2 [_ [_ [H4 _]]]]].
  split; [exact H1|]. split; [exact H2|]. exact (H4 eq_refl).
Defined.

(** A status code of two digits passes validation; the reply then sets
    the headers, the wrapper of the middleware records the code, and
    [WriteHeader] of the server's writer panics: no body, no metric, no
    closing line of the middleware. *)
Example reply_with_status_42 :
  let ep := set_be_StatusCode 42 (sampleMock 0 0) in
  (exists c', validateConfig (sampleBackendConfig [ep]) = inr c') /\
  serve false ep (ConnWriter (Some true)) (sampleRequest "GET") (sampleClock 17)
  = [Log Info "← %s %s from %s";
     HeaderSet "Content-Type" "text/plain";
     SetStatusCode 42;
     Panic].
Proof. split; [eexists; reflexivity | reflexivity]. Qed.

(** The two orders of a map of two entries. *)
Example rangeOrder_two_entries :
  rangeOrder 0 [("A", "1"); ("B", "2")] = [("A", "1"); ("B", "2")] /\
  rangeOrder 1 [("A", "1"); ("B", "2")] = [("B", "2"); ("A", "1")].
Proof. split; reflexivity. Qed.

(** ** The connection behind the logging middleware *)

Definition touchesConnection (e : Event) : bool :=
  match e with Hijack _ | ConnClose => true | _ => false end.

Lemma untouched_writerOnly (tr : Trace) :
  writerOnly tr -> filter touchesConnection tr = [].
Proof.
  intros H. apply filter_writerOnly; [|exact H].
  intros e. destruct e; simpl; congruence.
Qed.

Lemma untouched_headerLogs (hs : list (string * list string)) :
  filter touchesConnection
    (flat_map (fun kv => map (fun _ => Log Debug "    %s: %s") (snd kv)) hs) = [].
Proof.
  induction hs as [|kv rest IH]; [reflexivity|].
  simpl. rewrite filter_app, IH, app_nil_r.
  induction (snd kv) as [|v vs IHv]; [reflexivity | exact IHv].
Qed.

Lemma untouched_normalResponse (ep : BackendEndpoint) (w : ResponseWriter)
  (r : Request) (clk : Clock) :
  filter touchesConnection (normalResponse ep w r clk) = [].
Proof.
  unfold normalResponse. rewrite !filter_app.
  rewrite (untouched_writerOnly _ (headers_writerOnly w _)).
  rewrite filter_andThen_nil.
  - destruct (0 <? be_Delay ep); reflexivity.
  - apply untouched_writerOnly, w_WriteHeader_writerOnly.
  - rewrite !filter_app.
    destruct (String.eqb (be_Body ep) "");
      rewrite ?(untouched_writerOnly _ (w_Write_writerOnly w (be_Body ep)));
      reflexivity.
Qed.

(** X12. Behind the server built by [Run] no handler ever takes over or
    closes the connection, whatever the connection underneath supports: the
    wrapper of the logging middleware has no [Hijack] method, so the type
    assertion of the drop and idle branches fails and both take their
    fallback.  A dropped request is counted as dropped and the handler
    writes nothing, but the connection is left to the HTTP server. *)
Theorem serve_never_takes_over (verbose : bool) (ep : BackendEndpoint)
  (w : ResponseWriter) (r : Request) (clk : Clock) :
  filter touchesConnection (serve verbose ep w r clk) = [] /\
  (decisions (registerEndpoint ep (LoggingWriter w) r clk) = [Drop] ->
   registerEndpoint ep (LoggingWriter w) r clk
   = [Log Warn "Dropping connection for %s %s (%.1f%% drop rate)";
      Inc BackendDroppedTotal (pathMethod r)]).
Proof.
  split.
  - unfold serve, loggingMiddleware. rewrite !filter_app.
    assert (H : filter touchesConnection
                  (registerEndpoint ep (LoggingWriter w) r clk) = []).
    { unfold registerEndpoint.
      destruct (negb (String.eqb (req_Method r) (be_Method ep))).
      - apply untouched_writerOnly, http_Error_writerOnly.
      - unfold createHandler.
        destruct (faultsConfigured ep); [|apply untouched_normalResponse].
        destruct (draw (clk_UnixNano clk) <? be_DropPercent ep)%float;
          [reflexivity|].
        destruct (draw (clk_UnixNano clk)
                  <? be_DropPercent ep + be_IdlePercent ep)%float;
          [reflexivity | apply untouched_normalResponse]. }
    rewrite (filter_andThen_nil _ _ [Log Info "→ %s %s -> %d (took %v)"]
               H eq_refl).
    destruct verbose; simpl; rewrite ?untouched_headerLogs; reflexivity.
  - unfold registerEndpoint.
    destruct (negb (String.eqb (req_Method r) (be_Method ep))).
    + rewrite (decisions_writerOnly _ (http_Error_writerOnly _ _ _)). discriminate.
    + unfold createHandler.
      destruct (faultsConfigured ep);
        [|rewrite decisions_normalResponse;
          destruct (validStatus (be_StatusCode ep)); discriminate].
      destruct (draw (clk_UnixNano clk) <? be_DropPercent ep)%float;
        [reflexivity|].
      destruct (draw (clk_UnixNano clk)
                <? be_DropPercent ep + be_IdlePercent ep)%float;
        [rewrite decisions_idleConnection
        |rewrite decisions_normalResponse;
         destruct (validStatus (be_StatusCode ep))];
        discriminate.
Qed.

Lemma serve_never_takes_over_witness :
  registerEndpoint (sampleMock 100 0) (LoggingWriter (ConnWriter (Some true)))
    (sampleRequest "GET") (sampleClock 1730000000123456789)
  = [Log Warn "Dropping connection for %s %s (%.1f%% drop rate)";
     Inc BackendDroppedTotal (pathMethod (sampleRequest "GET"))].
Proof.
  apply (serve_never_takes_over true (sampleMock 100 0) (ConnWriter (Some true))
           (sampleRequest "GET") (sampleClock 1730000000123456789)).
  reflexivity.
Defined.

(** ** The trace of one dispatched unit, attempt by attempt *)

Lemma increments_observeIfPositive (m m' : Metric) (name : string) (d : Z) :
  increments m (observeIfPositive m' name d) = 0%nat.
Proof. unfold observeIfPositive. destruct (0 <? d); reflexivity. Qed.

Lemma increments_debugIfPositive (m : Metric) (fmt : string) (d : Z) :
  increments m (debugIfPositive fmt d) = 0%nat.
Proof. unfold debugIfPositive. destruct (0 <? d); reflexivity. Qed.

Lemma increments_headerLogs (m : Metric) (hs : list (string * list string)) :
  increments m
    (flat_map (fun kv => map (fun _ => Log Debug "    %s: %s") (snd kv)) hs)
  = 0%nat.
Proof.
  induction hs as [|kv rest IH]; [reflexivity|].
  simpl. rewrite increments_app, IH, Nat.add_0_r.
  induction (snd kv) as [|v vs IHv]; [reflexivity | exact IHv].
Qed.

(** A completed exchange counts one request and nothing else. *)
Lemma executeRequest_completed_counts (verbose : bool) (ep : EndpointConfig)
  (k status : Z) (header : list (string * list string)) (body : string)
  (tm : Timings) :
  let tr := fst (executeRequest verbose ep k (Completed status header body tm)) in
  increments ClientRequestsTotal tr = 1%nat /\
  increments ClientRequestErrors tr = 0%nat /\
  increments ClientRetries tr = 0%nat.
Proof.
  cbn [executeRequest fst].
  repeat split;
    rewrite !increments_app, !increments_observeIfPositive;
    (destruct verbose;
     [ rewrite !increments_app, !increments_debugIfPositive,
         increments_headerLogs;
       destruct (0 <? String.length body)%nat; reflexivity
     | reflexivity ]).
Qed.

Lemma sleeps_flat_map (f : Z -> Trace) (l : list Z) :
  sleeps (flat_map f l) = flat_map (fun k => sleeps (f k)) l.
Proof.
  induction l as [|k rest IH]; [reflexivity|].
  simpl. rewrite sleeps_app, IH. reflexivity.
Qed.

Lemma increments_flat_map (m : Metric) (f : Z -> Trace) (l : list Z) :
  increments m (flat_map f l) = list_sum (map (fun k => increments m (f k)) l).
Proof.
  induction l as [|k rest IH]; [reflexivity|].
  simpl. rewrite increments_app, IH. reflexivity.
Qed.

Lemma list_sum_ext_in (f g : Z -> nat) (l : list Z) :
  (forall k, In k l -> f k = g k) ->
  list_sum (map f l) = list_sum (map g l).
Proof. intros H. f_equal. apply map_ext_in. exact H. Qed.

Lemma list_sum_const (c : nat) (l : list Z) :
  list_sum (map (fun _ => c) l) = (c * List.length l)%nat.
Proof. induction l as [|k rest IH]; simpl; [lia | rewrite IH; lia]. Qed.

Lemma flat_map_ext_in (f g : Z -> Trace) (l : list Z) :
  (forall k, In k l -> f k = g k) -> flat_map f l = flat_map g l.
Proof.
  induction l as [|k rest IH]; intros H; [reflexivity|].
  simpl. rewrite (H k (or_introl eq_refl)), IH; [reflexivity|].
  intros j Hj. apply H. right. exact Hj.
Qed.

Section AttemptBlocks.

Variable verbose : bool.
Variable ep : EndpointConfig.
Variable net : Z -> Exchange.

Let M : Z := maxAttempts ep.

(** What attempt [k] adds to the trace. *)
Definition attemptBlock (k : Z) : Trace :=
  match executeRequest verbose ep k (net k) with
  | (tr, Some _) =>
      (tr ++ [Log Error "Request failed [%s] (attempt %d/%d): %v"]
          ++ (if 1 <? k
              then [Inc ClientRetries [LStr (ec_Name ep); LStr (ec_Method ep)]]
              else []))
      ++ (if k <? maxAttempts ep then [Sleep (Go.mul64 Go.Second k)] else [])
  | (tr, None) => tr
  end.

Lemma attemptLoop_blocks (fuel : nat) :
  forall a tr, 0 <= a ->
  attemptLoop verbose ep net fuel a = Some tr ->
  exists n : nat,
    tr = flat_map attemptBlock (countFrom (a + 1) n) /\
    executions tr = countFrom (a + 1) n.
Proof.
  induction fuel as [|fuel IH]; intros a tr Ha; simpl; fold M;
    destruct (a <? M) eqn:E;
    try (intros H; injection H as <-; exists 0%nat; split; reflexivity);
    try discriminate.
  apply Z.ltb_lt in E. rewrite (next_attempt ep a Ha E).
  pose proof (executeRequest_effects verbose ep (a + 1) (net (a + 1)))
    as [Hex _].
  assert (Hb : attemptBlock (a + 1)
               = match executeRequest verbose ep (a + 1) (net (a + 1)) with
                 | (tr, Some _) =>
                     (tr ++ [Log Error "Request failed [%s] (attempt %d/%d): %v"]
                         ++ (if 1 <? a + 1
                             then [Inc ClientRetries
                                     [LStr (ec_Name ep); LStr (ec_Method ep)]]
                             else []))
                     ++ (if a + 1 <? M then [Sleep (Go.mul64 Go.Second (a + 1))]
                         else [])
                 | (tr, None) => tr
                 end) by reflexivity.
  destruct (executeRequest verbose ep (a + 1) (net (a + 1))) as [tr0 [err|]];
    simpl in Hex.
  - destruct (attemptLoop verbose ep net fuel (a + 1)) as [rest|] eqn:Er;
      destruct (a + 1 <? M); simpl; try discriminate;
      intros H; injection H as <-;
      destruct (IH (a + 1) rest ltac:(lia) Er) as [n [H1 H2]];
      exists (S n); simpl; rewrite Hb, <- H1.
    + split.
      * rewrite <- !app_assoc. reflexivity.
      * rewrite !executions_app, Hex. cbn [executions]. rewrite H2.
        destruct (1 <? a + 1); reflexivity.
    + split.
      * rewrite app_nil_r. reflexivity.
      * rewrite !executions_app, Hex. cbn [executions]. rewrite H2.
        destruct (1 <? a + 1); reflexivity.
  - intros H. injection H as <-. exists 1%nat. simpl.
    rewrite Hb, app_nil_r. split; [reflexivity | exact Hex].
Qed.

Lemma attemptBlock_failed (k : Z) :
  completed (net k) = false ->
  sleeps (attemptBlock k)
  = (if k <? M then [Go.mul64 Go.Second k] else []) /\
  increments ClientRetries (attemptBlock k) = (if 1 <? k then 1%nat else 0%nat) /\
  increments ClientRequestsTotal (attemptBlock k) = 0%nat /\
  increments ClientRequestErrors (attemptBlock k)
  = (if transportFailure (net k) then 1%nat else 0%nat).
Proof.
  unfold attemptBlock. fold M.
  destruct (net k); try discriminate; intros _; simpl;
    destruct (1 <? k), (k <? M); repeat split.
Qed.

Lemma attemptBlock_completed (k : Z) :
  completed (net k) = true ->
  sleeps (attemptBlock k) = [] /\
  increments ClientRetries (attemptBlock k) = 0%nat /\
  increments ClientRequestsTotal (attemptBlock k) = 1%nat /\
  increments ClientRequestErrors (attemptBlock k) = 0%nat.
Proof.
  unfold attemptBlock.
  destruct (net k) as [| | s | s h b tm] eqn:En; try discriminate. intros _.
  pose proof (executeRequest_effects verbose ep k (Completed s h b tm))
    as [_ [Hs _]].
  pose proof (executeRequest_completed_counts verbose ep k s h b tm)
    as [H1 [H2 H3]].
  destruct (executeRequest verbose ep k (Completed s h b tm)) as [tr res] eqn:Ex.
  assert (res = None) by (simpl in Ex; injection Ex as _ <-; reflexivity).
  subst res. simpl in *. auto.
Qed.

End AttemptBlocks.

Lemma retries_sum (from : Z) (n : nat) :
  2 <= from ->
  list_sum (map (fun k => if 1 <? k then 1%nat else 0%nat) (countFrom from n)) = n.
Proof.
  revert from. induction n as [|n IH]; intros from H; [reflexivity|].
  simpl. rewrite IH by lia.
  destruct (1 <? from) eqn:E; [reflexivity|]. apply Z.ltb_ge in E. lia.
Qed.

Lemma retries_sum_1 (n : nat) :
  list_sum (map (fun k => if 1 <? k then 1%nat else 0%nat) (countFrom 1 (S n)))
  = n.
Proof.
  pose proof (retries_sum 2 n ltac:(lia)) as H.
  unfold list_sum in *. cbn [countFrom map fold_right].
  change (1 + 1) with 2. rewrite H. reflexivity.
Qed.

Lemma backoff_sum (from : Z) (n : nat) :
  2 * fold_right Z.add 0 (map (fun k => k * Go.Second) (countFrom from n))
  = Z.of_nat n * (2 * from + Z.of_nat n - 1) * Go.Second.
Proof.
  revert from. induction n as [|n IH]; intros from; [reflexivity|].
  cbn [countFrom map fold_right]. rewrite Z.mul_add_distr_l, IH. lia.
Qed.

Section UnitSummaries.

Variable verbose : bool.
Variable ep : EndpointConfig.
Variable net : Z -> Exchange.

(** Attempts [from], ..., [from + n - 1] fail below the budget and attempt
    [from + n] completes. *)
Lemma blocks_until_success (n : nat) :
  forall from,
    (forall k, from <= k < from + Z.of_nat n ->
               completed (net k) = false /\ k < maxAttempts ep) ->
    completed (net (from + Z.of_nat n)) = true ->
    let tr := flat_map (attemptBlock verbose ep net) (countFrom from (S n)) in
    sleeps tr = map (Go.mul64 Go.Second) (countFrom from n) /\
    increments ClientRetries tr
    = list_sum (map (fun k => if 1 <? k then 1%nat else 0%nat) (countFrom from n)) /\
    increments ClientRequestsTotal tr = 1%nat.
Proof.
  induction n as [|n IH]; intros from Hfail Hok tr; subst tr.
  - replace (from + Z.of_nat 0) with from in Hok by lia.
    destruct (attemptBlock_completed verbose ep net from Hok) as [H1 [H2 [H3 _]]].
    cbn [countFrom flat_map map list_sum].
    rewrite app_nil_r. auto.
  - destruct (Hfail from ltac:(lia)) as [Hf Hlt].
    destruct (attemptBlock_failed verbose ep net from Hf) as [H1 [H2 [H3 _]]].
    apply Z.ltb_lt in Hlt. rewrite Hlt in H1.
    destruct (IH (from + 1)) as [I1 [I2 I3]].
    + intros k Hk. apply Hfail. lia.
    + replace (from + 1 + Z.of_nat n) with (from + Z.of_nat (S n)) by lia.
      exact Hok.
    + change (countFrom from (S (S n)))
        with (from :: countFrom (from + 1) (S n)).
      cbn [flat_map]. rewrite sleeps_app, !increments_app, H1, H2, H3, I1, I2, I3.
      cbn [countFrom map list_sum]. auto.
Qed.

End UnitSummaries.

(** X13. With a retry budget N (0 <= N <= 9223372036) and every attempt
    failing at the transport level, one dispatched unit counts N retries and
    N+1 request errors, never a request, and sleeps N(N+1)/2 seconds in
    total. *)
Theorem exhausted_unit_metrics (verbose : bool) (ep : EndpointConfig)
  (net : Z -> Exchange) :
  0 <= ec_Retries ep <= 9223372036 ->
  (forall k, transportFailure (net k) = true) ->
  exists tr,
    makeRequest verbose ep net = Some tr /\
    increments ClientRetries tr = Z.to_nat (ec_Retries ep) /\
    increments ClientRequestErrors tr = Z.to_nat (ec_Retries ep + 1) /\
    increments ClientRequestsTotal tr = 0%nat /\
    2 * fold_right Z.add 0 (sleeps tr)
    = ec_Retries ep * (ec_Retries ep + 1) * Go.Second.
Proof.
  intros HN Hnet.
  assert (Hfail : forall k, completed (net k) = false).
  { intros k. specialize (Hnet k). destruct (net k); try discriminate; reflexivity. }
  assert (HM : maxAttempts ep = ec_Retries ep + 1).
  { unfold maxAttempts, Go.add64. apply wrap64_small.
    unfold Go.int64_range, Go.two63. lia. }
  destruct (makeRequest_total verbose ep net) as [tr Htr].
  exists tr. split; [exact Htr|]. unfold makeRequest in Htr.
  destruct (attemptLoop_blocks verbose ep net _ 0 tr ltac:(lia) Htr)
    as [n [Hb Hn]].
  pose proof (attemptLoop_all_fail_executions verbose ep net _ Hfail 0 tr
                ltac:(lia) Htr) as Hex.
  pose proof (attemptLoop_all_fail_sleeps verbose ep net _ Hfail 0 tr
                ltac:(lia) Htr) as Hsl.
  rewrite HM in Hex, Hsl.
  assert (En : n = S (Z.to_nat (ec_Retries ep))).
  { rewrite Hex in Hn. apply (f_equal (@List.length Z)) in Hn.
    rewrite !countFrom_length in Hn. lia. }
  simpl Z.add in *. subst n.
  split; [|split; [|split]].
  - rewrite Hb, increments_flat_map.
    rewrite (list_sum_ext_in _ (fun k => if 1 <? k then 1%nat else 0%nat));
      [|intros k _; apply (attemptBlock_failed verbose ep net k (Hfail k))].
    apply retries_sum_1.
  - rewrite Hb, increments_flat_map.
    rewrite (list_sum_ext_in _ (fun _ => 1%nat)).
    + rewrite list_sum_const, countFrom_length. lia.
    + intros k _.
      destruct (attemptBlock_failed verbose ep net k (Hfail k)) as [_ [_ [_ H]]].
      rewrite H, Hnet. reflexivity.
  - rewrite Hb, increments_flat_map.
    rewrite (list_sum_ext_in _ (fun _ => 0%nat)).
    + rewrite list_sum_const. reflexivity.
    + intros k _.
      apply (attemptBlock_failed verbose ep net k (Hfail k)).
  - replace (ec_Retries ep + 1 - 0 - 1) with (ec_Retries ep) in Hsl by lia.
    rewrite Hsl.
    rewrite (map_ext_in _ (fun k => k * Go.Second)).
    + rewrite backoff_sum. rewrite Z2Nat.id by lia. lia.
    + intros k Hk. apply countFrom_In in Hk. apply backoff_seconds. lia.
Qed.

Lemma exhausted_unit_metrics_witness :
  exists tr,
    makeRequest false (sampleProbe 2) (fun _ => DoFails) = Some tr /\
    increments ClientRetries tr = 2%nat /\
    increments ClientRequestErrors tr = 3%nat /\
    increments ClientRequestsTotal tr = 0%nat /\
    2 * fold_right Z.add 0 (sleeps tr) = 6000000000.
Proof.
  apply (exhausted_unit_metrics false (sampleProbe 2) (fun _ => DoFails)).
  - simpl. lia.
  - intros k. reflexivity.
Defined.

(** X14. When the first exchange to complete is that of attempt k (within
    the budget), the unit makes the attempts 1, ..., k, sleeps
    [time.Second * j] after each failed attempt j < k, counts one request,
    and counts k-2 retries: the retry counter goes up only for a retry that
    fails, so a request that succeeds on its first retry counts none. *)
Theorem first_success_summary (verbose : bool) (ep : EndpointConfig)
  (net : Z -> Exchange) (k : Z) :
  0 <= ec_Retries ep < Go.two63 - 1 ->
  1 <= k <= ec_Retries ep + 1 ->
  completed (net k) = true ->
  (forall j, 1 <= j < k -> completed (net j) = false) ->
  exists tr,
    makeRequest verbose ep net = Some tr /\
    executions tr = countFrom 1 (Z.to_nat k) /\
    sleeps tr = map (Go.mul64 Go.Second) (countFrom 1 (Z.to_nat (k - 1))) /\
    increments ClientRequestsTotal tr = 1%nat /\
    increments ClientRetries tr = Z.to_nat (k - 2).
Proof.
  intros HN Hk Hok Hfail.
  assert (HM : maxAttempts ep = ec_Retries ep + 1).
  { unfold maxAttempts, Go.add64. apply wrap64_small.
    unfold Go.int64_range, Go.two63 in *. lia. }
  destruct (makeRequest_total verbose ep net) as [tr Htr].
  exists tr. split; [exact Htr|]. unfold makeRequest in Htr.
  destruct (attemptLoop_blocks verbose ep net _ 0 tr ltac:(lia) Htr)
    as [n [Hb Hn]].
  destruct (attemptLoop_executions verbose ep net _ 0 tr ltac:(lia) Htr)
    as [n' [H1 [H2 [H3 H4]]]].
  assert (n' = n).
  { rewrite H1 in Hn. apply (f_equal (@List.length Z)) in Hn.
    rewrite !countFrom_length in Hn. exact Hn. }
  subst n'. rewrite HM in *. simpl Z.add in *.
  assert (En : Z.of_nat n = k).
  { destruct (Z.lt_trichotomy (Z.of_nat n) k) as [Hlt | [Heq | Hgt]];
      [|exact Heq|].
    - destruct (H4 ltac:(lia)) as [Hpos Hc].
      rewrite (Hfail (Z.of_nat n) ltac:(lia)) in Hc. discriminate.
    - rewrite (H3 k ltac:(lia)) in Hok. discriminate. }
  assert (Sn : n = S (Z.to_nat (k - 1))) by lia.
  destruct (blocks_until_success verbose ep net (Z.to_nat (k - 1)) 1)
    as [B1 [B2 B3]].
  { intros j Hj. split; [apply Hfail; lia | lia]. }
  { replace (1 + Z.of_nat (Z.to_nat (k - 1))) with k by lia. exact Hok. }
  rewrite <- Sn, <- Hb in B1, B2, B3.
  split; [rewrite Hn; f_equal; lia|]. split; [exact B1|]. split; [exact B3|].
  rewrite B2.
  destruct (Z.to_nat (k - 1)) as [|m] eqn:Em.
  - simpl. lia.
  - rewrite retries_sum_1. lia.
Qed.

Lemma first_success_summary_witness :
  exists tr,
    makeRequest false (sampleProbe 3)
      (fun k => if k =? 2
                then Completed 503 [] "unavailable"
                       {| t_dns := 0; t_connect := 0; t_tls := 0;
                          t_ttfb := 1500000; t_total := 2000000 |}
                else DoFails) = Some tr /\
    executions tr = [1; 2] /\
    sleeps tr = [1000000000] /\
    increments ClientRequestsTotal tr = 1%nat /\
    increments ClientRetries tr = 0%nat.
Proof.
  apply (first_success_summary false (sampleProbe 3)
           (fun k => if k =? 2
                     then Completed 503 [] "unavailable"
                            {| t_dns := 0; t_connect := 0; t_tls := 0;
                               t_ttfb := 1500000; t_total := 2000000 |}
                     else DoFails) 2).
  - unfold Go.two63. simpl. lia.
  - simpl. lia.
  - reflexivity.
  - intros j Hj. assert (j = 1) by lia. subst j. reflexivity.
Defined.

(** X15. A dispatched unit sends something exactly when its retry budget
    is between 0 and the largest [int] minus one.  With a negative budget,
    which validation accepts, and with the largest [int], where
    [Retries + 1] wraps around, the loop is never entered and the unit does
    nothing at all.  Attempt numbers never exceed the budget plus one. *)
Theorem attempts_within_budget (verbose : bool) (ep : EndpointConfig)
  (net : Z -> Exchange) :
  Go.int64_range (ec_Retries ep) ->
  exists tr,
    makeRequest verbose ep net = Some tr /\
    (executions tr <> [] <-> 0 <= ec_Retries ep < Go.two63 - 1) /\
    (ec_Retries ep < 0 \/ ec_Retries ep = Go.two63 - 1 -> tr = []) /\
    (forall k, In k (executions tr) -> 1 <= k <= ec_Retries ep + 1) /\
    (0 <= ec_Retries ep < Go.two63 - 1 ->
     exists rest, executions tr = 1 :: rest).
Proof.
  intros HR.
  destruct (makeRequest_total verbose ep net) as [tr Htr].
  exists tr. split; [exact Htr|]. unfold makeRequest in Htr.
  assert (HM : (ec_Retries ep < Go.two63 - 1 ->
                maxAttempts ep = ec_Retries ep + 1) /\
               (ec_Retries ep = Go.two63 - 1 -> maxAttempts ep = - Go.two63)).
  { unfold maxAttempts, Go.add64. split.
    - intros H. apply wrap64_small. unfold Go.int64_range, Go.two63 in *. lia.
    - intros ->. reflexivity. }
  destruct HM as [HM1 HM2].
  assert (Hempty : ec_Retries ep < 0 \/ ec_Retries ep = Go.two63 - 1 -> tr = []).
  { intros H.
    assert (Hle : maxAttempts ep <= 0).
    { destruct H as [H | H]; [rewrite HM1 | rewrite (HM2 H)];
        unfold Go.two63 in *; lia. }
    destruct (Z.to_nat (maxAttempts ep)); simpl in Htr;
      destruct (0 <? maxAttempts ep) eqn:E;
      try (apply Z.ltb_lt in E; lia);
      injection Htr as <-; reflexivity. }
  destruct (attemptLoop_executions verbose ep net _ 0 tr ltac:(lia) Htr)
    as [n [H1 [H2 [H3 H4]]]].
  simpl Z.add in *.
  assert (Hfirst : 0 <= ec_Retries ep < Go.two63 - 1 ->
                   exists rest, executions tr = 1 :: rest).
  { intros H. rewrite (HM1 ltac:(lia)) in *.
    destruct n as [|n].
    - destruct (H4 ltac:(simpl; lia)) as [Hpos _]. lia.
    - rewrite H1. simpl. eexists. reflexivity. }
  split; [|split; [exact Hempty|split; [|exact Hfirst]]].
  - split.
    + intros Hne.
      destruct (Z_lt_le_dec (ec_Retries ep) 0) as [Hneg | Hnn].
      * rewrite (Hempty (or_introl Hneg)) in Hne. contradiction.
      * destruct (Z.eq_dec (ec_Retries ep) (Go.two63 - 1)) as [Heq | Hneq].
        -- rewrite (Hempty (or_intror Heq)) in Hne. contradiction.
        -- unfold Go.int64_range in HR. lia.
    + intros H. destruct (Hfirst H) as [rest ->]. discriminate.
  - intros k Hin. rewrite H1 in Hin. apply countFrom_In in Hin.
    destruct (Z_lt_le_dec (ec_Retries ep) 0) as [Hneg | Hnn].
    { rewrite (Hempty (or_introl Hneg)) in H1. simpl in H1.
      destruct n; [simpl in Hin; lia | discriminate]. }
    destruct (Z.eq_dec (ec_Retries ep) (Go.two63 - 1)) as [Heq | Hneq].
    { rewrite (Hempty (or_intror Heq)) in H1. simpl in H1.
      destruct n; [simpl in Hin; lia | discriminate]. }
    unfold Go.int64_range in HR.
    rewrite (HM1 ltac:(lia)) in H2. lia.
Qed.

Lemma attempts_within_budget_witness :
  exists tr,
    makeRequest false (sampleProbe (-1)) (fun _ => DoFails) = Some tr /\
    (executions tr <> [] <-> 0 <= -1 < Go.two63 - 1) /\
    (-1 < 0 \/ -1 = Go.two63 - 1 -> tr = []) /\
    (forall k, In k (executions tr) -> 1 <= k <= -1 + 1) /\
    (0 <= -1 < Go.two63 - 1 -> exists rest, executions tr = 1 :: rest).
Proof.
  apply (attempts_within_budget false (sampleProbe (-1)) (fun _ => DoFails)).
  unfold Go.int64_range, Go.two63. simpl. lia.
Defined.

(** ** Cancellation of the scheduling stream *)

Lemma tickLoop_ticks_then_done (cfg : ClientConfig) (n : nat)
  (later : list Select) :
  tickLoop cfg (repeat SelTick n ++ SelDone :: later)
  = (flat_map (fun _ => [RecvTick; Launch (gated cfg)]) (repeat SelTick n)
     ++ [RecvDone; TickerStop], Returns).
Proof.
  induction n as [|n IH]; [reflexivity|].
  simpl. rewrite IH. reflexivity.
Qed.

Lemma launches_ticks (g : bool) (n : nat) (tail : Trace) :
  launches (flat_map (fun _ => [RecvTick; Launch g]) (repeat SelTick n) ++ tail)
  = (n + launches tail)%nat.
Proof.
  induction n as [|n IH]; [reflexivity|].
  unfold launches in *. simpl. rewrite IH. reflexivity.
Qed.

(** X16. Once the select takes the done case, after [n] ticks, the stream
    returns: it has launched once per tick received (and once at start in
    interval mode), stops its ticker as its last action, and whatever ticks
    would have come later launch nothing. *)
Theorem cancellation_stops_the_stream (impl : Z) (cfg : ClientConfig)
  (ep : EndpointConfig) (n : nat) (later : list Select) :
  snd (runEndpoint impl cfg ep []) <> Panics ->
  let run := runEndpoint impl cfg ep (repeat SelTick n ++ SelDone :: later) in
  snd run = Returns /\
  run = runEndpoint impl cfg ep (repeat SelTick n ++ [SelDone]) /\
  (exists before, fst run = before ++ [RecvDone; TickerStop] /\
                  filter (fun e => match e with TickerStop => true | _ => false end)
                    before = []) /\
  launches (fst run) = (n + if rateLimited ep then 0 else 1)%nat.
Proof.
  unfold runEndpoint. intros Hp.
  destruct (rateLimited ep).
  - destruct (rateInterval impl (ec_RequestsPerSecond ep) <=? 0);
      [simpl in Hp; congruence|].
    rewrite !tickLoop_ticks_then_done. cbn [fst snd].
    split; [reflexivity|]. split; [reflexivity|]. split.
    + eexists (_ :: _ :: _). split; [reflexivity|].
      cbn [filter]. induction n as [|n IH]; [reflexivity | exact IH].
    + change (launches (?a :: ?b :: ?l)) with (launches l).
      rewrite launches_ticks. reflexivity.
  - destruct (cc_Interval cfg <=? 0); [simpl in Hp; congruence|].
    rewrite !tickLoop_ticks_then_done. cbn [fst snd].
    split; [reflexivity|]. split; [reflexivity|]. split.
    + eexists (_ :: _ :: _ :: _). split; [reflexivity|].
      cbn [filter]. induction n as [|n IH]; [reflexivity | exact IH].
    + change (launches (?a :: ?b :: Launch ?g :: ?l)) with (S (launches l)).
      rewrite launches_ticks.
      change (launches [RecvDone; TickerStop]) with 0%nat. lia.
Qed.

Lemma cancellation_stops_the_stream_witness :
  let run := runEndpoint 0 (sampleClient 1000000000 2) (sampleProbe 2)
               (repeat SelTick 2 ++ SelDone :: [SelTick; SelTick]) in
  snd run = Returns /\
  run = runEndpoint 0 (sampleClient 1000000000 2) (sampleProbe 2)
          (repeat SelTick 2 ++ [SelDone]) /\
  (exists before, fst run = before ++ [RecvDone; TickerStop] /\
                  filter (fun e => match e with TickerStop => true | _ => false end)
                    before = []) /\
  launches (fst run) = 3%nat.
Proof.
  apply (cancellation_stops_the_stream 0 (sampleClient 1000000000 2)
           (sampleProbe 2) 2 [SelTick; SelTick]).
  simpl. discriminate.
Defined.

(** ** The gate never deadlocks and never leaks a slot *)

Module GateProgress.
Import Limiter LimiterFacts.

Lemma count_positive_witness (p : Goroutine -> bool) (gs : list Goroutine) :
  0 < count p gs -> exists i g, nth_error gs i = Some g /\ p g = true.
Proof.
  unfold count. induction gs as [|g rest IH]; cbn [filter]; [simpl; lia|].
  destruct (p g) eqn:E.
  - intros _. exists 0%nat, g. split; [reflexivity | exact E].
  - intros H. destruct (IH H) as [i [g' [H1 H2]]].
    exists (S i), g'. split; [exact H1 | exact H2].
Qed.

Lemma count_member (p : Goroutine -> bool) (gs : list Goroutine) (i : nat)
  (g : Goroutine) :
  nth_error gs i = Some g -> p g = true -> 0 < count p gs.
Proof.
  unfold count. revert i.
  induction gs as [|h rest IH]; intros [|i] Hn Hp; simpl in Hn;
    try discriminate; cbn [filter].
  - injection Hn as ->. rewrite Hp. cbn [List.length]. lia.
  - specialize (IH i Hn Hp). destruct (p h); cbn [List.length]; lia.
Qed.

Lemma count_all_finished (p : Goroutine -> bool) (gs : list Goroutine) :
  p Finished = false -> (forall g, In g gs -> g = Finished) -> count p gs = 0.
Proof.
  intros Hp. unfold count. induction gs as [|g rest IH]; intros H; [reflexivity|].
  cbn [filter]. rewrite (H g (or_introl eq_refl)), Hp.
  apply IH. intros g' Hg. apply H. right. exact Hg.
Qed.

End GateProgress.

(** X17. The gate cannot deadlock: in every state the goroutines of one
    endpoint reach, as long as some launched unit has not finished, some
    unit can take its next step (complete its send, return from
    [makeRequest], or complete its deferred receive) without any further
    launch. *)
Theorem gate_never_deadlocks (K : Z) (steps : list Limiter.Step)
  (s : Limiter.State) (i : nat) (g : Limiter.Goroutine) :
  Limiter.run K Limiter.initial steps = Some s ->
  nth_error (Limiter.goroutines s) i = Some g ->
  g <> Limiter.Finished ->
  exists a s',
    a <> Limiter.Dispatch /\ Limiter.step K s a = Some s'.
Proof.
  intros Hrun Hn Hg.
  pose proof (LimiterFacts.invariant_run K steps _ s
                (LimiterFacts.invariant_initial K) Hrun) as Hinv.
  assert (Hret : forall j b, nth_error (Limiter.goroutines s) j
                             = Some (Limiter.InFlight b) ->
                 exists a s', a <> Limiter.Dispatch /\ Limiter.step K s a = Some s').
  { intros j b Hj. exists (Limiter.Return j). cbn [Limiter.step]. rewrite Hj.
    destruct b; eexists; split; try discriminate; reflexivity. }
  assert (Hrec : forall j, nth_error (Limiter.goroutines s) j
                           = Some Limiter.Releasing ->
                 exists a s', a <> Limiter.Dispatch /\ Limiter.step K s a = Some s').
  { intros j Hj. exists (Limiter.Receive j).
    pose proof (LimiterFacts.receive_enabled K s j Hinv Hj) as He.
    destruct (Limiter.step K s (Limiter.Receive j)) as [s'|]; [|contradiction].
    exists s'. split; [discriminate | reflexivity]. }
  destruct g as [|b| |]; [|exact (Hret i b Hn)|exact (Hrec i Hn)|contradiction].
  destruct (Limiter.buffered s <? K) eqn:E.
  - exists (Limiter.Send i). cbn [Limiter.step]. rewrite Hn, E.
    eexists. split; [discriminate | reflexivity].
  - apply Z.ltb_ge in E. destruct Hinv as [Hb [Hpos Hzero]].
    assert (HK : 0 < K).
    { destruct (Z_lt_le_dec 0 K) as [H | H]; [exact H|].
      pose proof (GateProgress.count_member LimiterFacts.usesSemaphore _ i _ Hn
                    eq_refl).
      rewrite (Hzero H) in *. lia. }
    assert (Hslot : 0 < Limiter.count Limiter.holdsSlot (Limiter.goroutines s))
      by lia.
    destruct (GateProgress.count_positive_witness _ _ Hslot) as [j [h [Hj Hh]]].
    destruct h as [|[|]| |]; try discriminate.
    + exact (Hret j true Hj).
    + exact (Hrec j Hj).
Qed.

Lemma gate_never_deadlocks_witness :
  exists a s',
    a <> Limiter.Dispatch /\
    Limiter.step 1
      {| Limiter.buffered := 1;
         Limiter.goroutines := [Limiter.InFlight true; Limiter.Acquiring] |}
      a = Some s'.
Proof.
  apply (gate_never_deadlocks 1
           [Limiter.Dispatch; Limiter.Dispatch; Limiter.Send 0]
           _ 1%nat Limiter.Acquiring eq_refl eq_refl).
  discriminate.
Defined.

(** X18. The semaphore holds exactly one element for every unit between
    its send and its deferred receive, in every reachable state; when all
    launched units have finished it is empty again, so no slot is ever
    lost. *)
Theorem gate_never_leaks (K : Z) (steps : list Limiter.Step)
  (s : Limiter.State) :
  Limiter.run K Limiter.initial steps = Some s ->
  Limiter.buffered s = Limiter.count Limiter.holdsSlot (Limiter.goroutines s) /\
  ((forall g, In g (Limiter.goroutines s) -> g = Limiter.Finished) ->
   Limiter.buffered s = 0 /\ Limiter.midFlight s = 0).
Proof.
  intros Hrun.
  pose proof (LimiterFacts.invariant_run K steps _ s
                (LimiterFacts.invariant_initial K) Hrun) as [Hb _].
  split; [exact Hb|]. intros Hall. rewrite Hb. unfold Limiter.midFlight.
  split; apply GateProgress.count_all_finished; auto.
Qed.

Lemma gate_never_leaks_witness :
  exists s,
    Limiter.run 1 Limiter.initial
      [Limiter.Dispatch; Limiter.Send 0; Limiter.Return 0; Limiter.Receive 0]
    = Some s /\
    Limiter.buffered s = 0.
Proof.
  eexists. split; [reflexivity|].
  apply (gate_never_leaks 1
           [Limiter.Dispatch; Limiter.Send 0; Limiter.Return 0; Limiter.Receive 0]
           _ eq_refl).
  intros g [<- | []]. reflexivity.
Defined.

(** ** Registering the endpoints *)

Lemma existsb_eqb_In (p : string) (l : list string) :
  existsb (String.eqb p) l = true <-> In p l.
Proof.
  rewrite existsb_exists. split.
  - intros [x [Hx E]]. apply String.eqb_eq in E. subst x. exact Hx.
  - intros H. exists p. split; [exact H | apply String.eqb_refl].
Qed.

(** Registration goes through exactly when no pattern is empty, none is
    repeated and none is already held; the mux then holds them all. *)
Lemma registerAll_Some (ps : list string) :
  forall seen held,
    registerAll seen ps = Some held <->
    held = seen ++ ps /\ ~ In "" ps /\ NoDup ps /\
    (forall p, In p ps -> ~ In p seen).
Proof.
  induction ps as [|p rest IH]; intros seen held; simpl.
  - rewrite app_nil_r. split.
    + intros H. injection H as <-.
      split; [reflexivity|]. split; [tauto|]. split; [constructor | tauto].
    + intros [-> _]. reflexivity.
  - destruct (String.eqb p "") eqn:Ep.
    + apply String.eqb_eq in Ep. subst p.
      split; [discriminate | intros [_ [H _]]; exfalso; apply H; left; reflexivity].
    + apply String.eqb_neq in Ep.
      destruct (existsb (String.eqb p) seen) eqn:Es.
      * apply existsb_eqb_In in Es.
        split; [discriminate|]. intros [_ [_ [_ H]]]. exfalso.
        exact (H p (or_introl eq_refl) Es).
      * assert (Hs : ~ In p seen).
        { intros H. apply existsb_eqb_In in H. congruence. }
        rewrite IH. rewrite <- app_assoc. simpl. split.
        -- intros [-> [H1 [H2 H3]]]. split; [reflexivity|]. split.
           ++ intros [H | H]; [congruence | contradiction].
           ++ split.
              ** constructor; [|exact H2]. intros Hin.
                 apply (H3 p Hin). apply in_or_app. right. left. reflexivity.
              ** intros q [<- | Hq]; [exact Hs|]. intros Hqs.
                 apply (H3 q Hq). apply in_or_app. left. exact Hqs.
        -- intros [-> [H1 [H2 H3]]]. split; [reflexivity|].
           inversion H2 as [|x l Hnp Hnd]; subst. split; [tauto|].
           split; [exact Hnd|]. intros q Hq Hqs.
           apply in_app_or in Hqs. destruct Hqs as [Hqs | [<- | []]].
           ++ exact (H3 q (or_intror Hq) Hqs).
           ++ contradiction.
Qed.

(** X19. [Run] registers its handlers by path alone.  When two configured
    endpoints have the same path, also with different methods, or when an
    endpoint has the path of the metrics handler, the second registration
    panics: the server never starts, although validation accepts such a
    configuration. *)
Theorem same_path_twice_panics (metricsHandler : bool) (cfg : BackendConfig)
  (i j : nat) (e1 e2 : BackendEndpoint) :
  nth_error (bc_Endpoints cfg) i = Some e1 ->
  nth_error (bc_Endpoints cfg) j = Some e2 ->
  (i <> j /\ be_Path e1 = be_Path e2) \/
  (metricsHandler = true /\ be_Path e1 = "/metrics") ->
  registerAll [] (registeredPatterns metricsHandler cfg) = None.
Proof.
  intros H1 H2 Hdup.
  destruct (registerAll [] (registeredPatterns metricsHandler cfg)) as [held|] eqn:E;
    [|reflexivity].
  exfalso. apply registerAll_Some in E. destruct E as [_ [_ [Hnd _]]].
  unfold registeredPatterns in Hnd.
  assert (P1 : nth_error (map be_Path (bc_Endpoints cfg)) i = Some (be_Path e1))
    by (rewrite nth_error_map, H1; reflexivity).
  assert (P2 : nth_error (map be_Path (bc_Endpoints cfg)) j = Some (be_Path e2))
    by (rewrite nth_error_map, H2; reflexivity).
  destruct Hdup as [[Hij Hp] | [Hm Hp]].
  - assert (Hnd' : NoDup (map be_Path (bc_Endpoints cfg))).
    { destruct metricsHandler; simpl in Hnd; [inversion Hnd; assumption | exact Hnd]. }
    rewrite NoDup_nth_error in Hnd'.
    apply Hij. apply Hnd'.
    + apply nth_error_Some. rewrite P1. discriminate.
    + rewrite P1, P2, Hp. reflexivity.
  - subst metricsHandler. simpl in Hnd. inversion Hnd as [|x l Hnin _]; subst.
    apply Hnin. rewrite <- Hp. apply (nth_error_In _ i). exact P1.
Qed.

Definition sameMockPath (method : string) : BackendEndpoint :=
  {| be_Path := "/items"; be_Method := method; be_StatusCode := 200;
     be_Headers := []; be_Body := ""; be_Delay := 0;
     be_DropPercent := 0; be_IdlePercent := 0; be_IdleDuration := 0 |}.

Lemma same_path_twice_panics_witness :
  (exists c', validateConfig
                (sampleBackendConfig [sameMockPath "GET"; sameMockPath "POST"])
              = inr c') /\
  registerAll []
    (registeredPatterns true
       {| bc_Port := 8080;
          bc_Endpoints := [sameMockPath "GET"; sameMockPath "POST"] |}) = None.
Proof.
  split; [eexists; reflexivity|].
  apply (same_path_twice_panics true
           {| bc_Port := 8080;
              bc_Endpoints := [sameMockPath "GET"; sameMockPath "POST"] |}
           0%nat 1%nat (sameMockPath "GET") (sameMockPath "POST")
           eq_refl eq_refl).
  left. split; [discriminate | reflexivity].
Defined.

(** ** A percentage that is not a number *)

Lemma ltb_nan_r (x : float) : (x <? PrimFloat.nan)%float = false.
Proof.
  rewrite ltb_spec. change (Prim2SF PrimFloat.nan) with S754_nan.
  destruct (Prim2SF x); reflexivity.
Qed.

Lemma add_nan_l (y : float) : (PrimFloat.nan + y)%float = PrimFloat.nan.
Proof.
  apply Prim2SF_inj. rewrite add_spec.
  change (Prim2SF PrimFloat.nan) with S754_nan. reflexivity.
Qed.

(** X20. A drop percentage that is NaN (YAML [.nan]) passes the range and
    sum checks of validation, which then depend on the idle percentage
    alone; the handler of such an endpoint never drops and never idles:
    for every request with its method it runs the normal reply, whatever
    the idle percentage, and counts one request unless [WriteHeader] panics
    on a status code that is not of three digits. *)
Theorem nan_drop_percent_disables_faults (ep : BackendEndpoint) (i : nat)
  (w : ResponseWriter) (r : Request) (clk : Clock) :
  be_DropPercent ep = PrimFloat.nan ->
  (percentError i ep = None <->
   (be_IdlePercent ep <? 0)%float = false /\
   (100 <? be_IdlePercent ep)%float = false) /\
  (req_Method r = be_Method ep ->
   registerEndpoint ep w r clk = normalResponse ep w r clk /\
   decisions (registerEndpoint ep w r clk)
   = if validStatus (be_StatusCode ep) then [Respond] else []).
Proof.
  intros Hd. split.
  - unfold percentError. rewrite Hd, add_nan_l, !ltb_nan_r.
    change (PrimFloat.nan <? 0)%float with false. cbn [orb].
    destruct (be_IdlePercent ep <? 0)%float, (100 <? be_IdlePercent ep)%float;
      cbn [orb]; split; try discriminate; try tauto;
      intros [H1 H2]; discriminate.
  - intros Hm. rewrite (registerEndpoint_match ep w r clk Hm).
    assert (E : createHandler ep w r clk = normalResponse ep w r clk).
    { unfold createHandler. rewrite Hd, add_nan_l, !ltb_nan_r.
      destruct (faultsConfigured ep); reflexivity. }
    rewrite E. split; [reflexivity | apply decisions_normalResponse].
Qed.

Lemma nan_drop_percent_disables_faults_witness :
  (percentError 0 (sampleMock PrimFloat.nan 100) = None <->
   (100 <? 0)%float = false /\ (100 <? 100)%float = false) /\
  (req_Method (sampleRequest "GET") = be_Method (sampleMock PrimFloat.nan 100) ->
   registerEndpoint (sampleMock PrimFloat.nan 100) (ConnWriter (Some true))
     (sampleRequest "GET") (sampleClock 17)
   = normalResponse (sampleMock PrimFloat.nan 100) (ConnWriter (Some true))
       (sampleRequest "GET") (sampleClock 17) /\
   decisions (registerEndpoint (sampleMock PrimFloat.nan 100)
                (ConnWriter (Some true)) (sampleRequest "GET") (sampleClock 17))
   = [Respond]).
Proof.
  exact (nan_drop_percent_disables_faults (sampleMock PrimFloat.nan 100) 0
           (ConnWriter (Some true)) (sampleRequest "GET") (sampleClock 17)
           eq_refl).
Defined.
